(** * l2r-lab: the SAC agent and its replay buffer

    A shallow embedding of [src/buffers/SimpleReplayBuffer.py] and of
    [agents/sac_agent.py].

    Python objects are mutable and an exception leaves the mutations made
    before it in place, so methods are functions from the object's state to
    an outcome (a value or a raised exception) paired with the state left
    behind.  Tensor arithmetic is written over an interface [Arith] of
    scalar operations with two instances: exact rationals and IEEE-754
    binary32, the [torch.float32] of the source. *)

From Stdlib Require Import ZArith QArith Qcanon Lia SpecFloat.
From stdpp Require Import base tactics option list strings gmap numbers pretty.

(** ** Outcomes of Python calls *)

Inductive exn : Type :=
  | KeyError
  | IndexError
  | ValueError
  | RuntimeError
  | AttributeError
  | AssertionError
  | NotImplementedError
  | FileNotFoundError
  | Exception (msg : string).

Inductive result (A : Type) : Type :=
  | Ok (a : A)
  | Raise (e : exn).
Arguments Ok {A} a.
Arguments Raise {A} e.

Definition rbind {A B} (r : result A) (k : A → result B) : result B :=
  match r with
  | Ok a => k a
  | Raise e => Raise e
  end.

(** A method of an object with state [S]: the state is threaded through,
    and survives a raised exception. *)
Definition M (S A : Type) : Type := S → result A * S.

Definition ret {S A} (a : A) : M S A := λ s, (Ok a, s).
Definition raise {S A} (e : exn) : M S A := λ s, (Raise e, s).
Definition bind {S A B} (m : M S A) (k : A → M S B) : M S B :=
  λ s, match m s with
       | (Ok a, s') => k a s'
       | (Raise e, s') => (Raise e, s')
       end.
Definition get {S} : M S S := λ s, (Ok s, s).
Definition modify {S} (f : S → S) : M S unit := λ s, (Ok tt, f s).
Definition lift {S A} (r : result A) : M S A := λ s, (r, s).

Declare Scope result_scope.
Delimit Scope result_scope with res.
Declare Scope method_scope.
Delimit Scope method_scope with M.
Notation "x <- m ;; k" := (rbind m (λ x, k))
  (at level 20, m at level 99, k at level 200,
   format "x  <-  m  ;;  '/' k") : result_scope.
Notation "x <- m ;; k" := (bind m (λ x, k))
  (at level 20, m at level 99, k at level 200,
   format "x  <-  m  ;;  '/' k") : method_scope.

(** ** Python floats

    A [float] of Python is an IEEE-754 binary64 number: 53 bits of
    precision, exponents below 1024.  Arithmetic between two Python
    numbers is done on these, before any tensor is involved. *)
Definition pyfloat : Type := spec_float.
Definition pyfloat_of_Z (n : Z) : pyfloat := binary_normalize 53 1024 n 0 false.
Definition pyfloat_sub (x y : pyfloat) : pyfloat := SFsub 53 1024 x y.
Definition pyfloat_div (x y : pyfloat) : pyfloat := SFdiv 53 1024 x y.

(** ** Scalar arithmetic of tensors

    [fof_float] is the cast of a Python float that meets a tensor in an
    operation to the dtype of the tensor. *)

Class Arith (F : Type) : Type := {
  f0 : F;
  f1 : F;
  fadd : F → F → F;
  fsub : F → F → F;
  fmul : F → F → F;
  fdiv : F → F → F;
  fmin : F → F → F;
  fof_nat : nat → F;
  fof_float : pyfloat → F;
}.

(** ** [collections.deque(maxlen=n)] *)

Record deque (A : Type) : Type := Deque { maxlen : nat; items : list A }.
Arguments Deque {A} maxlen items.
Arguments maxlen {A} d.
Arguments items {A} d.

(** [collections.deque(maxlen=n)] raises [ValueError] on a negative [n]. *)
Definition deque_new {A} (n : Z) : result (deque A) :=
  if (n <? 0)%Z then Raise ValueError else Ok (Deque (Z.to_nat n) []).

(** [d.append(x)]: the element goes to the right end, then the deque is
    trimmed from the left while it is longer than [maxlen]. *)
Definition deque_append {A} (x : A) (d : deque A) : deque A :=
  let l := items d ++ [x] in
  Deque (maxlen d) (if maxlen d <? length l then drop 1 l else l).

(** [d.extend(it)] appends the elements of [it] one by one, left to right
    (when [it] is [d] itself CPython first copies it to a list). *)
Definition deque_extend {A} (xs : list A) (d : deque A) : deque A :=
  foldl (λ d x, deque_append x d) d xs.

(** The [n] most recent elements of a history listed oldest first. *)
Definition most_recent {A} (n : nat) (l : list A) : list A :=
  drop (length l - n) l.

(** ** One-dimensional tensors

    A batch column or a parameter tensor is the list of its elements. *)

Section Tensors.
Context {F : Type} `{!Arith F}.

(** An elementwise binary operation, with torch's broadcasting: equal sizes,
    or one of the two of size one. *)
Definition broadcast2 (f : F → F → F) (x y : list F) : result (list F) :=
  if length x =? length y then Ok (zip_with f x y)
  else match x, y with
       | [a], _ => Ok (f a <$> y)
       | _, [b] => Ok ((λ a, f a b) <$> x)
       | _, _ => Raise RuntimeError
       end.

(** [self.add_(other)]: [other] is broadcast to the shape of [self]. *)
Definition add_ (self other : list F) : result (list F) :=
  if length other =? length self then Ok (zip_with fadd self other)
  else match other with
       | [b] => Ok ((λ a, fadd a b) <$> self)
       | _ => Raise RuntimeError
       end.

(** [x ** 2] *)
Definition pow2 (x : list F) : list F := (λ a, fmul a a) <$> x.

(** [x.sum()] and [x.mean()] *)
Definition tsum (x : list F) : F := foldl fadd f0 x.
Definition mean (x : list F) : F := fdiv (tsum x) (fof_nat (length x)).

(** [np.stack(rows)] for rows that are one-dimensional arrays: they must
    all have the same shape. *)
Definition same_length {A} (n : nat) (rows : list (list A)) : bool :=
  forallb (λ r, length r =? n) rows.

Definition np_stack (rows : list (list F)) : result (list (list F)) :=
  match rows with
  | [] => Raise ValueError
  | r :: _ => if same_length (length r) rows then Ok rows else Raise ValueError
  end.

(** [np.stack(rows)] for rows that are pairs of arrays: each pair becomes a
    two-row array, so its components must have one shape, the same for all
    the rows. *)
Definition np_stack_pairs (rows : list (list F * list F))
  : result (list (list F * list F)) :=
  match rows with
  | [] => Raise ValueError
  | r :: _ =>
      if same_length (length r.1) (fst <$> rows)
         && same_length (length r.1) (snd <$> rows)
      then Ok rows else Raise ValueError
  end.

End Tensors.

(** ** [class SimpleReplayBuffer] *)

Module SimpleReplayBuffer.
Section Methods.
Context {F : Type} `{!Arith F}.

(** What [store] accepts for an observation component: a torch tensor or
    a numpy array (one-dimensional here). *)
Inductive arraylike : Type :=
  | TorchTensor (requires_grad : bool) (data : list F)
  | NdArray (data : list F).

(** [obs.detach()] when needed, then [obs.cpu().numpy()]. *)
Definition to_numpy (x : arraylike) : list F :=
  match x with
  | TorchTensor _ d => d
  | NdArray d => d
  end.

Definition convert (p : arraylike * arraylike) : list F * list F :=
  (to_numpy p.1, to_numpy p.2).

(** The object under [values["act"]]: its [.action] attribute is stored. *)
Record action_obj : Type := ActionObj { action : list F }.

(** The dict given to [store]. *)
Record transition : Type := Transition {
  t_obs : arraylike * arraylike;
  t_next_obs : arraylike * arraylike;
  t_act : action_obj;
  t_rew : F;
  t_done : bool;
}.

(** [currdict], the dict kept in the deque. *)
Record entry : Type := Entry {
  e_obs : list F * list F;
  e_obs2 : list F * list F;
  e_act : list F;
  e_rew : F;
  e_done : bool;
}.

Definition currdict (v : transition) : entry :=
  {| e_obs := convert (t_obs v);
     e_obs2 := convert (t_next_obs v);
     e_act := action (t_act v);
     e_rew := t_rew v;
     e_done := t_done v |}.

(** The attributes of a buffer object. *)
Record state : Type := State {
  cls : string;                 (* self.__class__ *)
  max_size : Z;
  obs_dim : Z;
  act_dim : Z;
  batch_size : Z;
  buffer : deque entry;
  weights : option (list F);    (* unset until the first sample_batch *)
}.

Definition set_buffer (d : deque entry) (b : state) : state :=
  {| cls := cls b; max_size := max_size b; obs_dim := obs_dim b;
     act_dim := act_dim b; batch_size := batch_size b; buffer := d;
     weights := weights b |}.

Definition set_weights (w : list F) (b : state) : state :=
  {| cls := cls b; max_size := max_size b; obs_dim := obs_dim b;
     act_dim := act_dim b; batch_size := batch_size b; buffer := buffer b;
     weights := Some w |}.

Definition class_name : string := "SimpleReplayBuffer".

(** [__init__] *)
Definition init (obs_dim act_dim size batch_size : Z) : result state :=
  (d <- deque_new size ;;
   Ok {| cls := class_name; max_size := size; obs_dim := obs_dim;
         act_dim := act_dim; batch_size := batch_size; buffer := d;
         weights := None |})%res.

(** [__len__] *)
Definition len (b : state) : nat := length (items (buffer b)).

(** The argument of [store], by its [type(values)]. *)
Inductive value : Type :=
  | VDict (d : transition)        (* type(values) is dict *)
  | VBuffer (o : state)   (* a buffer object, of class [cls o] *)
  | VOther (ty : string).         (* an object of any other type *)

Definition invalid_input : exn :=
  Exception "Sorry, invalid input type. Please input dict or buffer of same type".

Definition store (values : value) : M state unit :=
  (self <- get ;;
   match values with
   | VDict d =>
       modify (set_buffer (deque_append (currdict d) (buffer self)))
   | VBuffer o =>
       if String.eqb (cls o) (cls self)
       then modify (set_buffer (deque_extend (items (buffer o)) (buffer self)))
       else raise invalid_input
   | VOther _ => raise invalid_input
   end)%M.

(** A run of [store] calls; a call that raises is caught by the caller and
    the run goes on from the state it left. *)
Definition store_all (vs : list value) (b : state) : state :=
  foldl (λ b v, (store v b).2) b vs.

(** The elements a [store] call hands to the deque, in order. *)
Definition stored (self_cls : string) (v : value) : list entry :=
  match v with
  | VDict d => [currdict d]
  | VBuffer o => if String.eqb (cls o) self_cls then items (buffer o) else []
  | VOther _ => []
  end.

(** [np.random.choice(a, size, replace=False)] for an int [a]: a negative
    [size], an empty population with a positive [size], and a [size] above
    the population are refused with [ValueError]; [draw] is the sample the
    generator produces when the call is accepted. *)
Definition np_random_choice (a : nat) (size : Z) (draw : list nat)
  : result (list nat) :=
  if (size <? 0)%Z then Raise ValueError
  else if (a =? 0) && (0 <? size)%Z then Raise ValueError
  else if (Z.of_nat a <? size)%Z then Raise ValueError
  else Ok draw.

(** What the generator may produce: [size] distinct indices below [a]. *)
Definition is_choice (a : nat) (size : Z) (draw : list nat) : Prop :=
  Z.of_nat (length draw) = size ∧ NoDup draw ∧ Forall (λ i, i < a) draw.

(** The loop over [idxs]: [self.buffer[idx]] for each index.  Every stored
    dict has the same five keys, so the dict of lists it builds is kept as
    the list of the rows; it is the empty dict when there is no row. *)
Fixpoint gather (l : list entry) (idxs : list nat) : result (list entry) :=
  match idxs with
  | [] => Ok []
  | i :: idxs' =>
      match l !! i with
      | None => Raise IndexError
      | Some e => (rows <- gather l idxs' ;; Ok (e :: rows))%res
      end
  end.

(** A sampled batch: the dict of stacked tensors. *)
Record batch : Type := Batch {
  b_obs : list (list F * list F);
  b_obs2 : list (list F * list F);
  b_act : list (list F);
  b_rew : list F;
  b_done : list F;
}.

(** What [sample_batch] returns and [update] receives: [{}] or a batch. *)
Inductive data : Type :=
  | EmptyDict
  | Data (b : batch).

Definition float_of_bool (b : bool) : F := if b then f1 else f0.

(** The dict comprehension [{k: torch.tensor(np.stack(v), ...)}]. *)
Definition to_tensors (rows : list entry) : result data :=
  match rows with
  | [] => Ok EmptyDict
  | _ =>
      (o <- np_stack_pairs (e_obs <$> rows) ;;
       o2 <- np_stack_pairs (e_obs2 <$> rows) ;;
       a <- np_stack (e_act <$> rows) ;;
       Ok (Data {| b_obs := o; b_obs2 := o2; b_act := a;
                   b_rew := e_rew <$> rows;
                   b_done := (λ e, float_of_bool (e_done e)) <$> rows |}))%res
  end.

Definition sample_batch (draw : list nat) : M state data :=
  (self <- get ;;
   idxs <- lift (np_random_choice (len self)
                   (Z.min (batch_size self) (Z.of_nat (len self))) draw) ;;
   rows <- lift (gather (items (buffer self)) idxs) ;;
   _ <- modify (set_weights (replicate (length idxs) f0)) ;;
   lift (to_tensors rows))%M.

End Methods.

Arguments arraylike F : clear implicits.
Arguments action_obj F : clear implicits.
Arguments transition F : clear implicits.
Arguments entry F : clear implicits.
Arguments state F : clear implicits.
Arguments value F : clear implicits.
Arguments batch F : clear implicits.
Arguments data F : clear implicits.

End SimpleReplayBuffer.


(** ** What the agent calls and the source does not define

    The networks ([l2r.common.models]), torch's autograd and optimizers,
    the observation encoder of the base class and the gym action space are
    taken as interfaces. *)

(** A parameter of a module: its [.data], [.requires_grad] and [.grad]. *)
Record param (F : Type) : Type := Param {
  p_data : list F;
  requires_grad : bool;
  grad : option (list F);
}.
Arguments Param {F} p_data requires_grad grad.
Arguments p_data {F} p.
Arguments requires_grad {F} p.
Arguments grad {F} p.

(** The vision backbone: [VAE(im_c, im_h, im_w, z_dim)], its weights and the
    device it lives on. *)
Record vae (F : Type) : Type := VAE {
  im_c : Z;
  im_h : Z;
  im_w : Z;
  z_dim : Z;
  vae_weights : list (list F);
  on_device : bool;
}.
Arguments VAE {F} im_c im_h im_w z_dim vae_weights on_device.
Arguments im_c {F} v.
Arguments im_h {F} v.
Arguments im_w {F} v.
Arguments z_dim {F} v.
Arguments vae_weights {F} v.
Arguments on_device {F} v.

(** [ActorCritic]: the policy and the two critics as functions of the
    module's parameters, one batch row at a time; [Noise] is what a sample
    of the policy consumes from the generator. *)
Class ActorCritic (F Noise Observation : Type) : Type := {
  pi : list (list F) → list F * list F → Noise → list F * F;
  q1 : list (list F) → list F * list F → list F → F;
  q2 : list (list F) → list F * list F → list F → F;
  act : list (list F) → Observation → bool → Noise → result (list F);
}.

(** torch: the gradient of each loss with respect to the parameter at an
    index of [actor_critic.parameters()] ([None] when the loss does not
    depend on it), given the parameters, the target parameters, the buffer
    weights, the batch and the noise; the update rule and the state of an
    optimizer; what [zero_grad] leaves in [.grad]; checkpoints on disk. *)
Class Torch (F Noise : Type) `{!Arith F} : Type := {
  grad_loss_q : list (list F) → list (list F) → list F →
                SimpleReplayBuffer.batch F → (nat → Noise) → nat →
                option (list F);
  grad_loss_pi : list (list F) →
                 SimpleReplayBuffer.batch F → (nat → Noise) → nat →
                option (list F);
  OptState : Type;
  optim_update : OptState → nat → list F → list F → list F;
  optim_next : OptState → list (option (list F)) → OptState;
  set_to_none : bool;
  torch_load : string → result (list (list F));
  vae_init : Z → Z → Z → Z → list (list F);
}.

(** The rest of the agent's surroundings: [BaseAgent._encode] and the
    sampler of the [Box] action space with its generator. *)
Class Env (F Observation : Type) : Type := {
  Rng : Type;
  _encode : option (vae F) → Observation → result Observation;
  sample : Rng → list F * Rng;
}.

(** ** [class SACAgent] *)

Module SACAgent.
Section Methods.
Context {F Noise Observation : Type}.
Context `{!Arith F, !ActorCritic F Noise Observation, !Torch F Noise,
          !Env F Observation}.

(** [cfg[name]] for an encoder name: the section of that encoder. *)
Record encoder_cfg : Type := EncoderCfg {
  speed_hiddens : list Z;
  latent_dims : Z;
  cfg_im_c : Z;
  cfg_im_h : Z;
  cfg_im_w : Z;
  vae_chkpt_statedict : string;
}.

(** [self.cfg], the [agent_kwargs] of the YAML file.  [gamma] and [alpha]
    only ever multiply a tensor and are kept as cast to its dtype;
    [polyak] enters [1 - polyak], computed on Python floats, and is kept
    as the Python float it is. *)
Record config : Type := Config {
  gamma : F;
  alpha : F;
  polyak : pyfloat;
  start_steps : Z;
  record_experience : bool;
  use_encoder_type : string;
  encoder_switch : bool;
  encoders : gmap string encoder_cfg;
}.

(** An optimizer: the indices (in [actor_critic.parameters()]) of the
    parameters of its group, and its running state. *)
Record optimizer : Type := Optimizer {
  param_group : list nat;
  opt_state : OptState;
}.

(** The attributes of the agent.  The class the agent imports for
    [replay_buffer] is not part of the sources: the buffer class that is,
    [SimpleReplayBuffer], stands for it ([compute_loss_q] only reads its
    [weights]).  [q_params], [q_optimizer] and [pi_optimizer] are assigned
    outside the sources and are kept as attributes of any value.  [t] is
    an integer, [1e6] being one. *)
Record state : Type := State {
  cfg : config;
  t : Z;
  deterministic : bool;
  transition_actor : string;   (* record["transition_actor"] *)
  action_space : Rng;   (* the Box and its generator *)
  feat_dim : Z;
  obs_dim : option Z;
  backbone : option (vae F);
  replay_buffer : SimpleReplayBuffer.state F;   (* a SimpleReplayBuffer *)
  actor_critic : list (param F);
  actor_critic_target : list (param F);
  q_params : list nat;   (* indices in actor_critic *)
  q_optimizer : optimizer;
  pi_optimizer : optimizer;
}.

Definition set_t (x : Z) (s : state) : state :=
  {| cfg := cfg s; t := x; deterministic := deterministic s;
     transition_actor := transition_actor s;
     action_space := action_space s; feat_dim := feat_dim s;
     obs_dim := obs_dim s; backbone := backbone s;
     replay_buffer := replay_buffer s; actor_critic := actor_critic s;
     actor_critic_target := actor_critic_target s; q_params := q_params s;
     q_optimizer := q_optimizer s; pi_optimizer := pi_optimizer s |}.

Definition set_deterministic (x : bool) (s : state) : state :=
  {| cfg := cfg s; t := t s; deterministic := x;
     transition_actor := transition_actor s;
     action_space := action_space s; feat_dim := feat_dim s;
     obs_dim := obs_dim s; backbone := backbone s;
     replay_buffer := replay_buffer s; actor_critic := actor_critic s;
     actor_critic_target := actor_critic_target s; q_params := q_params s;
     q_optimizer := q_optimizer s; pi_optimizer := pi_optimizer s |}.

Definition set_transition_actor (x : string) (s : state) : state :=
  {| cfg := cfg s; t := t s; deterministic := deterministic s;
     transition_actor := x; action_space := action_space s;
     feat_dim := feat_dim s; obs_dim := obs_dim s; backbone := backbone s;
     replay_buffer := replay_buffer s; actor_critic := actor_critic s;
     actor_critic_target := actor_critic_target s; q_params := q_params s;
     q_optimizer := q_optimizer s; pi_optimizer := pi_optimizer s |}.

Definition set_action_space (x : Rng) (s : state) : state :=
  {| cfg := cfg s; t := t s; deterministic := deterministic s;
     transition_actor := transition_actor s; action_space := x;
     feat_dim := feat_dim s; obs_dim := obs_dim s; backbone := backbone s;
     replay_buffer := replay_buffer s; actor_critic := actor_critic s;
     actor_critic_target := actor_critic_target s; q_params := q_params s;
     q_optimizer := q_optimizer s; pi_optimizer := pi_optimizer s |}.

Definition set_feat_dim (x : Z) (s : state) : state :=
  {| cfg := cfg s; t := t s; deterministic := deterministic s;
     transition_actor := transition_actor s;
     action_space := action_space s; feat_dim := x; obs_dim := obs_dim s;
     backbone := backbone s; replay_buffer := replay_buffer s;
     actor_critic := actor_critic s;
     actor_critic_target := actor_critic_target s; q_params := q_params s;
     q_optimizer := q_optimizer s; pi_optimizer := pi_optimizer s |}.

Definition set_obs_dim (x : option Z) (s : state) : state :=
  {| cfg := cfg s; t := t s; deterministic := deterministic s;
     transition_actor := transition_actor s;
     action_space := action_space s; feat_dim := feat_dim s; obs_dim := x;
     backbone := backbone s; replay_buffer := replay_buffer s;
     actor_critic := actor_critic s;
     actor_critic_target := actor_critic_target s; q_params := q_params s;
     q_optimizer := q_optimizer s; pi_optimizer := pi_optimizer s |}.

Definition set_backbone (x : option (vae F)) (s : state) : state :=
  {| cfg := cfg s; t := t s; deterministic := deterministic s;
     transition_actor := transition_actor s;
     action_space := action_space s; feat_dim := feat_dim s;
     obs_dim := obs_dim s; backbone := x; replay_buffer := replay_buffer s;
     actor_critic := actor_critic s;
     actor_critic_target := actor_critic_target s; q_params := q_params s;
     q_optimizer := q_optimizer s; pi_optimizer := pi_optimizer s |}.

Definition set_replay_buffer (x : SimpleReplayBuffer.state F) (s : state) : state :=
  {| cfg := cfg s; t := t s; deterministic := deterministic s;
     transition_actor := transition_actor s;
     action_space := action_space s; feat_dim := feat_dim s;
     obs_dim := obs_dim s; backbone := backbone s; replay_buffer := x;
     actor_critic := actor_critic s;
     actor_critic_target := actor_critic_target s; q_params := q_params s;
     q_optimizer := q_optimizer s; pi_optimizer := pi_optimizer s |}.

Definition set_actor_critic (x : list (param F)) (s : state) : state :=
  {| cfg := cfg s; t := t s; deterministic := deterministic s;
     transition_actor := transition_actor s;
     action_space := action_space s; feat_dim := feat_dim s;
     obs_dim := obs_dim s; backbone := backbone s;
     replay_buffer := replay_buffer s; actor_critic := x;
     actor_critic_target := actor_critic_target s; q_params := q_params s;
     q_optimizer := q_optimizer s; pi_optimizer := pi_optimizer s |}.

Definition set_actor_critic_target (x : list (param F)) (s : state) : state :=
  {| cfg := cfg s; t := t s; deterministic := deterministic s;
     transition_actor := transition_actor s;
     action_space := action_space s; feat_dim := feat_dim s;
     obs_dim := obs_dim s; backbone := backbone s;
     replay_buffer := replay_buffer s; actor_critic := actor_critic s;
     actor_critic_target := x; q_params := q_params s;
     q_optimizer := q_optimizer s; pi_optimizer := pi_optimizer s |}.

Definition set_q_optimizer (x : optimizer) (s : state) : state :=
  {| cfg := cfg s; t := t s; deterministic := deterministic s;
     transition_actor := transition_actor s;
     action_space := action_space s; feat_dim := feat_dim s;
     obs_dim := obs_dim s; backbone := backbone s;
     replay_buffer := replay_buffer s; actor_critic := actor_critic s;
     actor_critic_target := actor_critic_target s; q_params := q_params s;
     q_optimizer := x; pi_optimizer := pi_optimizer s |}.

Definition set_pi_optimizer (x : optimizer) (s : state) : state :=
  {| cfg := cfg s; t := t s; deterministic := deterministic s;
     transition_actor := transition_actor s;
     action_space := action_space s; feat_dim := feat_dim s;
     obs_dim := obs_dim s; backbone := backbone s;
     replay_buffer := replay_buffer s; actor_critic := actor_critic s;
     actor_critic_target := actor_critic_target s; q_params := q_params s;
     q_optimizer := q_optimizer s; pi_optimizer := x |}.

(** *** Acting *)

Definition learner : string := "learner".
Definition random : string := "random".

Definition select_action (obs : Observation) (encode : bool) (eps : Noise)
  : M state (list F) :=
  (self <- get ;;
   obs <- lift (if encode then _encode (backbone self) obs else Ok obs) ;;
   a <- (if (start_steps (cfg self) <? t self)%Z
         then (a <- lift (act (p_data <$> actor_critic self) obs
                            (deterministic self) eps) ;;
               _ <- modify (set_transition_actor learner) ;;
               ret a)
         else (let '(a, g) := sample (action_space self) in
               _ <- modify (set_action_space g) ;;
               _ <- modify (set_transition_actor random) ;;
               ret a)) ;;
   _ <- modify (λ s, set_t (t s + 1)%Z s) ;;
   ret a)%M.


(** *** The vision encoder *)

(** [d[k]] *)
Definition getitem {V} (d : gmap string V) (k : string) : result V :=
  match d !! k with
  | Some v => Ok v
  | None => Raise KeyError
  end.

(** [l[-1]] *)
Definition last_item {V} (l : list V) : result V :=
  match list.last l with
  | Some v => Ok v
  | None => Raise IndexError
  end.

(** [module.load_state_dict(sd)]: the tensors of [sd] must have the shapes
    of the module's. *)
Definition load_state_dict (v : vae F) (sd : list (list F)) : result (vae F) :=
  if bool_decide (length <$> sd = length <$> vae_weights v)
  then Ok (VAE (im_c v) (im_h v) (im_w v) (z_dim v) sd (on_device v))
  else Raise RuntimeError.

Definition to_device (v : vae F) : vae F :=
  VAE (im_c v) (im_h v) (im_w v) (z_dim v) (vae_weights v) true.

Definition setup_vision_encoder : M state unit :=
  (self <- get ;;
   let ty := use_encoder_type (cfg self) in
   _ <- (if String.eqb ty "vae" then ret tt else raise AssertionError) ;;
   c <- lift (getitem (encoders (cfg self)) ty) ;;
   _ <- modify (set_feat_dim (latent_dims c + 1)%Z) ;;
   od <- lift (if encoder_switch (cfg self)
               then (h <- last_item (speed_hiddens c) ;;
                     Ok (Some (latent_dims c + h)%Z))%res
               else Ok None) ;;
   _ <- modify (set_obs_dim od) ;;
   _ <- (if String.eqb ty "vae"
         then (c <- lift (getitem (encoders (cfg self)) "vae") ;;
               let v := VAE (cfg_im_c c) (cfg_im_h c) (cfg_im_w c)
                          (latent_dims c)
                          (vae_init (cfg_im_c c) (cfg_im_h c) (cfg_im_w c)
                             (latent_dims c)) false in
               _ <- modify (set_backbone (Some v)) ;;
               sd <- lift (torch_load (vae_chkpt_statedict c)) ;;
               v' <- lift (load_state_dict v sd) ;;
               modify (set_backbone (Some v')))
         else raise NotImplementedError) ;;
   self <- get ;;
   match backbone self with
   | Some v => modify (set_backbone (Some (to_device v)))
   | None => raise AttributeError
   end)%M.

(** *** The losses *)

(** A scalar tensor that carries its graph: [.item()], and what
    [.backward()] adds to the [.grad] of the parameter at each index. *)
Record loss : Type := Loss {
  item : F;
  grad_fn : nat → option (list F);
}.

(** A critic applied to a batch: the observation and action columns are
    concatenated row by row, so they must have the same number of rows. *)
Definition forward_q (q : list F * list F → list F → F)
    (o : list (list F * list F)) (a : list (list F)) : result (list F) :=
  if length o =? length a then Ok (zip_with q o a) else Raise RuntimeError.

(** The policy applied to a batch: row [i] consumes [eps i]. *)
Definition forward_pi (θ : list (list F)) (o : list (list F * list F))
    (eps : nat → Noise) : list (list F) * list F :=
  let out := imap (λ i x, pi θ x (eps i)) o in
  (fst <$> out, snd <$> out).

(** [self.replay_buffer.weights] *)
Definition getattr_weights (b : SimpleReplayBuffer.state F) : result (list F) :=
  match SimpleReplayBuffer.weights b with
  | Some w => Ok w
  | None => Raise AttributeError
  end.

Definition compute_loss_q (self : state) (d : SimpleReplayBuffer.data F)
    (eps : nat → Noise) : result (loss * (list F * list F)) :=
  match d with
  | SimpleReplayBuffer.EmptyDict => Raise KeyError
  | SimpleReplayBuffer.Data b =>
      let o := SimpleReplayBuffer.b_obs b in
      let a := SimpleReplayBuffer.b_act b in
      let r := SimpleReplayBuffer.b_rew b in
      let o2 := SimpleReplayBuffer.b_obs2 b in
      let d := SimpleReplayBuffer.b_done b in
      let θ := p_data <$> actor_critic self in
      let θ_targ := p_data <$> actor_critic_target self in
      (q1_ <- forward_q (q1 θ) o a ;;
       q2_ <- forward_q (q2 θ) o a ;;
       let '(a2, logp_a2) := forward_pi θ o2 eps in
       q1_pi_targ <- forward_q (q1 θ_targ) o2 a2 ;;
       q2_pi_targ <- forward_q (q2 θ_targ) o2 a2 ;;
       q_pi_targ <- broadcast2 fmin q1_pi_targ q2_pi_targ ;;
       soft <- broadcast2 fsub q_pi_targ (fmul (alpha (cfg self)) <$> logp_a2) ;;
       disc <- broadcast2 fmul (fmul (gamma (cfg self)) <$> (fsub f1 <$> d)) soft ;;
       backup <- broadcast2 fadd r disc ;;
       w <- getattr_weights (replay_buffer self) ;;
       e1 <- broadcast2 fsub q1_ backup ;;
       l1 <- broadcast2 fmul w (pow2 e1) ;;
       e2 <- broadcast2 fsub q2_ backup ;;
       l2 <- broadcast2 fmul w (pow2 e2) ;;
       let loss_q := fadd (mean l1) (mean l2) in
       Ok (Loss loss_q (grad_loss_q θ θ_targ w b eps), (q1_, q2_)))%res
  end.

Definition compute_loss_pi (self : state) (d : SimpleReplayBuffer.data F)
    (eps : nat → Noise) : result (loss * list F) :=
  match d with
  | SimpleReplayBuffer.EmptyDict => Raise KeyError
  | SimpleReplayBuffer.Data b =>
      let o := SimpleReplayBuffer.b_obs b in
      let θ := p_data <$> actor_critic self in
      let '(pi_, logp_pi) := forward_pi θ o eps in
      (q1_pi <- forward_q (q1 θ) o pi_ ;;
       q2_pi <- forward_q (q2 θ) o pi_ ;;
       q_pi <- broadcast2 fmin q1_pi q2_pi ;;
       l <- broadcast2 fsub (fmul (alpha (cfg self)) <$> logp_pi) q_pi ;;
       Ok (Loss (mean l) (grad_loss_pi θ b eps), logp_pi))%res
  end.

(** *** The update *)

Definition set_data (x : list F) (p : param F) : param F :=
  Param x (requires_grad p) (grad p).
Definition set_requires_grad (x : bool) (p : param F) : param F :=
  Param (p_data p) x (grad p).
Definition set_grad (x : option (list F)) (p : param F) : param F :=
  Param (p_data p) (requires_grad p) x.

(** [for p in group: f(p)], on the parameters at the indices of the group. *)
Definition for_each (f : nat → param F → param F) (group : list nat)
    (ps : list (param F)) : list (param F) :=
  foldl (λ ps i, alter (f i) i ps) ps group.

(** [optimizer.zero_grad()] *)
Definition zeros_like (g : list F) : list F := (λ _, f0) <$> g.

Definition clear_grad (p : param F) : param F :=
  if set_to_none then set_grad None p
  else set_grad (zeros_like <$> grad p) p.

Definition zero_grad (o : optimizer) (ps : list (param F)) : list (param F) :=
  for_each (λ _, clear_grad) (param_group o) ps.

(** [loss.backward()]: the gradient is accumulated in the [.grad] of every
    parameter of the graph that requires it. *)
Definition accumulate (g : list F) (p : param F) : param F :=
  match grad p with
  | None => set_grad (Some g) p
  | Some g0 => set_grad (Some (zip_with fadd g0 g)) p
  end.

Definition backward (l : loss) (ps : list (param F)) : list (param F) :=
  imap (λ i p, if requires_grad p
               then match grad_fn l i with
                    | Some g => accumulate g p
                    | None => p
                    end
               else p) ps.

(** [optimizer.step()]: a parameter of the group without gradient is
    skipped. *)
Definition apply_update (s : OptState) (i : nat) (p : param F) : param F :=
  match grad p with
  | Some g => set_data (optim_update s i (p_data p) g) p
  | None => p
  end.

Definition step (o : optimizer) (ps : list (param F))
  : list (param F) * optimizer :=
  (for_each (apply_update (opt_state o)) (param_group o) ps,
   Optimizer (param_group o) (optim_next (opt_state o) (grad <$> ps))).

(** First run one gradient descent step for Q1 and Q2. *)
Definition gradient_step_q (d : SimpleReplayBuffer.data F) (eps : nat → Noise)
  : M state unit :=
  (_ <- modify (λ s, set_actor_critic (zero_grad (q_optimizer s) (actor_critic s)) s) ;;
   self <- get ;;
   l <- lift (compute_loss_q self d eps) ;;
   _ <- modify (λ s, set_actor_critic (backward l.1 (actor_critic s)) s) ;;
   modify (λ s, let '(ps, o) := step (q_optimizer s) (actor_critic s) in
                set_q_optimizer o (set_actor_critic ps s)))%M.

(** Freeze, or unfreeze, the Q-networks: [for p in self.q_params:
    p.requires_grad = x]. *)
Definition set_q_requires_grad (x : bool) : M state unit :=
  modify (λ s, set_actor_critic
                 (for_each (λ _, set_requires_grad x) (q_params s) (actor_critic s)) s).

(** Next run one gradient descent step for pi. *)
Definition gradient_step_pi (d : SimpleReplayBuffer.data F) (eps : nat → Noise)
  : M state unit :=
  (_ <- modify (λ s, set_actor_critic (zero_grad (pi_optimizer s) (actor_critic s)) s) ;;
   self <- get ;;
   l <- lift (compute_loss_pi self d eps) ;;
   _ <- modify (λ s, set_actor_critic (backward l.1 (actor_critic s)) s) ;;
   modify (λ s, let '(ps, o) := step (pi_optimizer s) (actor_critic s) in
                set_pi_optimizer o (set_actor_critic ps s)))%M.

(** Finally, update target networks by polyak averaging: over
    [zip(actor_critic.parameters(), actor_critic_target.parameters())],
    [p_targ.data.mul_(polyak)] then
    [p_targ.data.add_((1 - polyak) * p.data)].  [1 - polyak] is computed
    on Python floats; it and [polyak] are cast to the dtype of the tensor
    they multiply.  When [add_] raises, the target parameter has already
    been scaled. *)
Fixpoint polyak_average (ρ : pyfloat) (ps ts : list (param F))
  : result unit * list (param F) :=
  match ps, ts with
  | p :: ps', p_targ :: ts' =>
      let scaled := (λ x, fmul x (fof_float ρ)) <$> p_data p_targ in
      match add_ scaled
              (fmul (fof_float (pyfloat_sub (pyfloat_of_Z 1) ρ)) <$> p_data p)
      with
      | Ok x =>
          let '(r, ts'') := polyak_average ρ ps' ts' in
          (r, set_data x p_targ :: ts'')
      | Raise e => (Raise e, set_data scaled p_targ :: ts')
      end
  | _, _ => (Ok tt, ts)
  end.

Definition update_targets : M state unit :=
  λ s, let '(r, ts) := polyak_average (polyak (cfg s)) (actor_critic s)
                         (actor_critic_target s) in
       (r, set_actor_critic_target ts s).

Definition update (d : SimpleReplayBuffer.data F) (eps_q eps_pi : nat → Noise)
  : M state unit :=
  (_ <- gradient_step_q d eps_q ;;
   _ <- set_q_requires_grad false ;;
   _ <- gradient_step_pi d eps_pi ;;
   _ <- set_q_requires_grad true ;;
   update_targets)%M.

End Methods.

Arguments encoder_cfg : clear implicits.
Arguments config F : clear implicits.
Arguments optimizer {F Noise _ _}.
Arguments state {F Noise Observation _ _ _}.
Arguments loss F : clear implicits.

End SACAgent.

(** ** Two arithmetics *)

(** Exact rational numbers. *)
Definition Qc_min (x y : Qc) : Qc := if decide (x ≤ y)%Qc then x else y.

(** The value of a finite Python float; the rationals have no infinity
    and no NaN, which are taken to zero. *)
Definition Qc_of_pyfloat (x : pyfloat) : Qc :=
  match x with
  | S754_finite s m e => Q2Qc (inject_Z (cond_Zopp s (Z.pos m)) * 2 ^ e)
  | _ => 0%Qc
  end.

#[export] Instance Qc_arith : Arith Qc := {|
  f0 := 0%Qc;
  f1 := 1%Qc;
  fadd := Qcplus;
  fsub := Qcminus;
  fmul := Qcmult;
  fdiv := Qcdiv;
  fmin := Qc_min;
  fof_nat n := Qc_of_Z (Z.of_nat n);
  fof_float := Qc_of_pyfloat;
|}.

(** IEEE-754 binary32, [torch.float32]: 24 bits of precision, exponents
    below 128. *)
Definition float32 : Type := spec_float.

(** The cast of a Python float to [torch.float32]: rounded to the nearest
    binary32 number, ties to even. *)
Definition float32_of_pyfloat (x : pyfloat) : float32 :=
  match x with
  | S754_finite s m e => binary_normalize 24 128 (cond_Zopp s (Z.pos m)) e s
  | _ => x
  end.

(** [torch.min(x, y)]: a NaN operand gives NaN. *)
Definition float32_min (x y : float32) : float32 :=
  match SFcompare x y with
  | None => S754_nan
  | Some Gt => y
  | Some _ => x
  end.

#[export] Instance float32_arith : Arith float32 := {|
  f0 := S754_zero false;
  f1 := SFone 24 128;
  fadd := SFadd 24 128;
  fsub := SFsub 24 128;
  fmul := SFmul 24 128;
  fdiv := SFdiv 24 128;
  fmin := float32_min;
  fof_nat n := binary_normalize 24 128 (Z.of_nat n) 0 false;
  fof_float := float32_of_pyfloat;
|}.

(** [torch.isfinite] *)
Definition float32_is_finite (x : float32) : bool :=
  match x with
  | S754_zero _ | S754_finite _ _ _ => true
  | S754_infinity _ | S754_nan => false
  end.

(** ** A small agent to run the model on

    Linear critics on the first observation component, a policy that
    replays the second one with the noise as log-probability, plain
    gradient descent, one checkpoint on disk. *)

Section Toy.
Context {F : Type} `{!Arith F}.

Definition dot (x y : list F) : F := tsum (zip_with fmul x y).

Definition toy_q (k : nat) (θ : list (list F)) (o : list F * list F)
    (a : list F) : F :=
  fadd (dot (default [] (θ !! k)) o.1) (tsum a).

#[export] Instance toy_actor_critic : ActorCritic F F (list F) := {|
  pi θ o e := (o.2, e);
  q1 := toy_q 0;
  q2 := toy_q 1;
  act θ o det e := Ok o;
|}.

Definition ones_like (θ : list (list F)) (i : nat) : option (list F) :=
  (λ x : list F, (λ _, f1) <$> x) <$> θ !! i.

Definition sgd (x g : list F) : list F :=
  if length g =? length x then zip_with fsub x g else x.

Definition toy_checkpoint : string := "vae.statedict".

#[export] Instance toy_torch : Torch F F := {|
  grad_loss_q θ θ_targ w b eps i := if i <? 2 then ones_like θ i else None;
  grad_loss_pi θ b eps i := if i <? 2 then None else ones_like θ i;
  OptState := unit;
  optim_update s i x g := sgd x g;
  optim_next s gs := s;
  set_to_none := true;
  torch_load path :=
    if String.eqb path toy_checkpoint then Ok [[f1; f1]]
    else Raise FileNotFoundError;
  vae_init c h w z := [[f0; f0]];
|}.

#[export] Instance toy_env : Env F (list F) := {|
  Rng := nat;
  _encode v o := Ok o;
  sample g := ([f0; f0], S g);
|}.

End Toy.


(** ** The losses as the specification words them

    Written per transition of the batch, to be compared with the
    tensor-level computations of [compute_loss_q] and [compute_loss_pi]. *)

Section Specification.
Context {F Noise Observation : Type}.
Context `{!Arith F, !ActorCritic F Noise Observation, !Torch F Noise,
          !Env F Observation}.
Import SimpleReplayBuffer SACAgent.

(** The transitions [(o, a, r, o2, d)] of a batch. *)
Definition transitions (bt : batch F)
  : list (list F * list F * list F * F * (list F * list F) * F) :=
  zip (zip (zip (zip (b_obs bt) (b_act bt)) (b_rew bt)) (b_obs2 bt))
      (b_done bt).

(** [r + gamma * (1 - done) * (min(Q1_targ(o2, a2), Q2_targ(o2, a2))
    - alpha * log pi(a2 | o2))], with [a2] drawn from the current policy. *)
Definition bellman_backup (self : state) (r d : F) (o2 : list F * list F)
    (e : Noise) : F :=
  let θ := p_data <$> actor_critic self in
  let θ_targ := p_data <$> actor_critic_target self in
  let '(a2, logp_a2) := pi θ o2 e in
  fadd r (fmul (fmul (gamma (cfg self)) (fsub f1 d))
               (fsub (fmin (q1 θ_targ o2 a2) (q2 θ_targ o2 a2))
                     (fmul (alpha (cfg self)) logp_a2))).

(** The error of a critic against the backup, one per transition. *)
Definition td_errors (self : state)
    (q : list (list F) → list F * list F → list F → F)
    (bt : batch F) (eps : nat → Noise) : list F :=
  imap (λ i '(o, a, r, o2, d),
          fsub (q (p_data <$> actor_critic self) o a)
               (bellman_backup self r d o2 (eps i)))
       (transitions bt).

(** The mean over the batch of the squared errors scaled by the weights. *)
Definition weighted_mse (w e : list F) : F :=
  mean (zip_with (λ wi ei, fmul wi (fmul ei ei)) w e).

Definition q_loss (self : state) (w : list F) (bt : batch F)
    (eps : nat → Noise) : F :=
  fadd (weighted_mse w (td_errors self q1 bt eps))
       (weighted_mse w (td_errors self q2 bt eps)).

(** The mean over the batch of [alpha * log pi(a | o) - min(Q1(o, a),
    Q2(o, a))], with [a] drawn from the current policy. *)
Definition pi_loss (self : state) (bt : batch F) (eps : nat → Noise) : F :=
  let θ := p_data <$> actor_critic self in
  mean (imap (λ i o, let '(a, logp) := pi θ o (eps i) in
                     fsub (fmul (alpha (cfg self)) logp)
                          (fmin (q1 θ o a) (q2 θ o a)))
             (b_obs bt)).


(** *** Vocabulary of the properties *)

(** The columns of a stacked batch have one row per sampled entry. *)
Definition has_rows (n : nat) (bt : batch F) : Prop :=
  length (b_obs bt) = n ∧ length (b_obs2 bt) = n ∧ length (b_act bt) = n ∧
  length (b_rew bt) = n ∧ length (b_done bt) = n.

(** The shapes of the parameters of a module. *)
Definition shape (ps : list (param F)) : list nat :=
  (λ p, length (p_data p)) <$> ps.

(** An optimizer updates a parameter in place: the shape stays. *)
Definition in_place : Prop :=
  ∀ os i (x g : list F), length (optim_update os i x g) = length x.

(** [polyak * p_targ + (1 - polyak) * p], element by element: [1 - polyak]
    is a Python float, and the two coefficients are cast to the dtype of
    the tensors. *)
Definition polyak_mix (ρ : pyfloat) (p p_targ : param F) : list F :=
  zip_with fadd ((λ x, fmul x (fof_float ρ)) <$> p_data p_targ)
           (fmul (fof_float (pyfloat_sub (pyfloat_of_Z 1) ρ)) <$> p_data p).

(** The states between the five phases of [update]. *)
Definition after_q_step (d : data F) (eps : nat → Noise) (s : state)
  : state := (gradient_step_q d eps s).2.
Definition after_freeze (d : data F) (eps : nat → Noise) (s : state)
  : state := (set_q_requires_grad false (after_q_step d eps s)).2.
Definition after_pi_step (d : data F) (eps_q eps_pi : nat → Noise)
    (s : state) : state :=
  (gradient_step_pi d eps_pi (after_freeze d eps_q s)).2.
Definition after_unfreeze (d : data F) (eps_q eps_pi : nat → Noise)
    (s : state) : state :=
  (set_q_requires_grad true (after_pi_step d eps_q eps_pi s)).2.

(** A method leaves an attribute alone, whether it returns or raises. *)
Definition keeps {A B} (π : state → A) (m : M state B) : Prop :=
  ∀ s, π (m s).2 = π s.





(** The backbone the agent builds from the section [c] of the config. *)
Definition fresh_vae (c : encoder_cfg) : vae F :=
  VAE (cfg_im_c c) (cfg_im_h c) (cfg_im_w c) (latent_dims c)
    (vae_init (cfg_im_c c) (cfg_im_h c) (cfg_im_w c) (latent_dims c)) false.

End Specification.

(** ** Finite values

    [torch.isfinite], and the three facts about zero that hold of finite
    values in both arithmetics: a zero weight cancels a finite squared
    error, zeros sum to zero, and zero divided by a count is zero. *)

Class Finite (F : Type) : Type := is_finite : F → bool.

Class ZeroLaws (F : Type) `{!Arith F, !Finite F} : Prop := {
  fmul_zero_square (x : F) :
    is_finite (fmul x x) = true → fmul f0 (fmul x x) = f0;
  fadd_zero_zero : fadd f0 f0 = f0;
  fdiv_zero_count (n : nat) : fdiv f0 (fof_nat (S n)) = f0;
}.

#[export] Instance Qc_finite : Finite Qc := λ _, true.

#[export] Instance float32_finite : Finite float32 := float32_is_finite.

(** ** Concrete objects

    A buffer of capacity two, the transitions stored in it (one per
    reward), the batch drawn from it and the toy agent that learns from
    it; the arithmetic is binary32. *)

Section Examples.
Import SimpleReplayBuffer SACAgent.

Definition inf32 : float32 := S754_infinity false.

Definition ex_transition (r : float32) : transition float32 :=
  Transition (TorchTensor true [f1], NdArray [f1])
    (NdArray [f1], TorchTensor false [f1]) (ActionObj [f0]) r false.

Definition ex_buffer (rs : list float32) (bs : Z)
  : SimpleReplayBuffer.state float32 :=
  SimpleReplayBuffer.State class_name 2 1 1 bs
    (Deque 2 (currdict ∘ ex_transition <$> rs)) None.

Definition ex_batch (rs : list float32) : batch float32 :=
  Batch ((λ _, ([f1], [f1])) <$> rs) ((λ _, ([f1], [f1])) <$> rs)
    ((λ _, [f0]) <$> rs) rs ((λ _, f0) <$> rs).

Definition ex_encoders : gmap string encoder_cfg :=
  {[ "vae" := EncoderCfg [8; 8]%Z 32 3 42 144 toy_checkpoint ]}.

(** The coefficient 0.995, as Python reads it. *)
Definition ex_polyak : pyfloat :=
  pyfloat_div (pyfloat_of_Z 995) (pyfloat_of_Z 1000).

Definition ex_cfg (ty : string) : config float32 :=
  Config f1 f1 ex_polyak 10 false ty true ex_encoders.

Definition ex_params : list (param float32) :=
  [Param [f1] true None; Param [f1; f0] true None; Param [f1] true None].

Definition ex_agent (ty : string) (b : SimpleReplayBuffer.state float32)
  : SACAgent.state (F := float32) (Noise := float32)
      (Observation := list float32) :=
  SACAgent.State (ex_cfg ty) 0 false "" 0%nat 0 None None b
    ex_params ex_params [0; 1] (Optimizer [0; 1] tt) (Optimizer [2] tt).

(** The buffer after a batch of two was drawn from it, the agent that
    holds it, and the batch. *)
Definition ex_sampled : SimpleReplayBuffer.state float32 :=
  (sample_batch [1; 0] (ex_buffer [f1; f0] 2)).2.

Definition ex_learner : SACAgent.state := ex_agent "vae" ex_sampled.

Definition ex_data : batch float32 := ex_batch [f0; f1].

(** Three transitions, a list, a buffer of the same class and one of
    another class, to be stored in a buffer of capacity two. *)
Definition ex_values : list (value float32) :=
  [VDict (ex_transition f0); VDict (ex_transition f1); VOther "list";
   VBuffer (ex_buffer [f1; f1] 1);
   VBuffer (SimpleReplayBuffer.State "PrioritizedReplayBuffer" 2 1 1 1
              (Deque 2 [currdict (ex_transition f0)]) None);
   VDict (ex_transition inf32)].

End Examples.

(** ** [class SACAgent]: checkpoints, schedules and logs

    The methods of the agent that keep its books.  Besides the attributes
    above they use the number of the episode, the best return and the best
    completion so far, the scheduler of the policy's learning rate, the
    safety actor-critic a child class may add, [metadata], the two loggers
    and the files written so far.  Returns, completions and logged scalars
    are finite numbers, taken as the rationals they denote: they are only
    ever compared and written, never computed with. *)

(** What [set_params] constructs and the sources do not define: the [Box]
    of the actions with its generator, the buffer class the agent imports
    and the initial parameters of an [ActorCritic]. *)
Class Construct (F Observation : Type) `{!Env F Observation} : Type := {
  box : Rng;
  replay_buffer_new : Z → Z → Z → result (SimpleReplayBuffer.state F);
  actor_critic_new : option Z → SACAgent.config F → option Z →
                     result (list (param F));
}.

Module Bookkeeping.
Section Methods.
Context {F Noise Observation Camera Kinematics : Type}.
Context `{!Arith F, !ActorCritic F Noise Observation, !Torch F Noise,
          !Env F Observation, !Construct F Observation}.
Import SACAgent.

(** [info["metrics"]], and [info] as far as it is read. *)
Definition metrics_dict : Type := gmap string Qc.
Definition info_dict : Type := gmap string metrics_dict.

(** [self.metadata]: what child classes push up, under ["info"] and
    ["safety_info"]. *)
Record metadata_dict : Type := Metadata {
  md_info : option info_dict;
  md_safety_info : option (gmap string Qc);
}.

(** The dict [add_experience] builds. *)
Record recording_dict : Type := Recording {
  r_step : Z;
  r_nearest_idx : Z;
  r_camera : Camera;
  r_feature : list F;
  r_state : Kinematics;
  r_action_taken : list F;
  r_next_camera : Camera;
  r_next_feature : list F;
  r_next_state : Kinematics;
  r_reward : Qc;
  r_episode : Z;
  r_stage : string;
  r_done : bool;
  r_transition_actor : string;
  r_metadata : info_dict;
}.

(** A line of [file_logger], kept as the values formatted into it. *)
Inductive message : Type :=
  | NewBest (ep_ret : Qc) (path_name : string)
  | PeriodicSave (save_freq : Z) (path_name : string).

(** A call of [tb_logger.add_scalar]. *)
Record scalar : Type := Scalar {
  tag : string;
  scalar_value : Qc;
  global_step : Z;
}.

(** The keys of [self.cfg] these methods read. *)
Record more_cfg : Type := MoreCfg {
  model_save_path : string;
  experiment_name : string;
  save_freq : Z;
  replay_size : Z;
  checkpoint : option string;   (* None when null in the YAML file *)
  load_checkpoint : bool;
}.

Record state : Type := State {
  agent : SACAgent.state;   (* the attributes modelled above *)
  settings : more_cfg;   (* the rest of self.cfg *)
  save_episodes : bool;
  episode_num : Z;
  best_ret : Qc;
  atol : pyfloat;
  store_from_safe : bool;
  pi_scheduler : option nat;   (* None, or the times it was stepped *)
  t_start : Z;
  best_pct : Qc;
  metadata : metadata_dict;
  act_dim : Z;
  safety_actor_critic : option (list (param F));   (* set by child classes *)
  recording : option recording_dict;   (* unset until add_experience *)
  file_logger : list message;   (* the lines written, oldest first *)
  tb_logger : list scalar;   (* the scalars written, oldest first *)
  files : gmap string (list (list F));   (* the files written so far *)
  save_error : string → option exn;   (* what a write to a path raises *)
}.

Definition set_agent (x : SACAgent.state) (s : state) : state :=
  {| agent := x; settings := settings s; save_episodes := save_episodes s;
     episode_num := episode_num s; best_ret := best_ret s; atol := atol s;
     store_from_safe := store_from_safe s; pi_scheduler := pi_scheduler s;
     t_start := t_start s; best_pct := best_pct s; metadata := metadata s;
     act_dim := act_dim s; safety_actor_critic := safety_actor_critic s;
     recording := recording s; file_logger := file_logger s;
     tb_logger := tb_logger s; files := files s;
     save_error := save_error s |}.

Definition set_save_episodes (x : bool) (s : state) : state :=
  {| agent := agent s; settings := settings s; save_episodes := x;
     episode_num := episode_num s; best_ret := best_ret s; atol := atol s;
     store_from_safe := store_from_safe s; pi_scheduler := pi_scheduler s;
     t_start := t_start s; best_pct := best_pct s; metadata := metadata s;
     act_dim := act_dim s; safety_actor_critic := safety_actor_critic s;
     recording := recording s; file_logger := file_logger s;
     tb_logger := tb_logger s; files := files s;
     save_error := save_error s |}.

Definition set_episode_num (x : Z) (s : state) : state :=
  {| agent := agent s; settings := settings s;
     save_episodes := save_episodes s; episode_num := x;
     best_ret := best_ret s; atol := atol s;
     store_from_safe := store_from_safe s; pi_scheduler := pi_scheduler s;
     t_start := t_start s; best_pct := best_pct s; metadata := metadata s;
     act_dim := act_dim s; safety_actor_critic := safety_actor_critic s;
     recording := recording s; file_logger := file_logger s;
     tb_logger := tb_logger s; files := files s;
     save_error := save_error s |}.

Definition set_best_ret (x : Qc) (s : state) : state :=
  {| agent := agent s; settings := settings s;
     save_episodes := save_episodes s; episode_num := episode_num s;
     best_ret := x; atol := atol s; store_from_safe := store_from_safe s;
     pi_scheduler := pi_scheduler s; t_start := t_start s;
     best_pct := best_pct s; metadata := metadata s; act_dim := act_dim s;
     safety_actor_critic := safety_actor_critic s; recording := recording s;
     file_logger := file_logger s; tb_logger := tb_logger s; files := files s;
     save_error := save_error s |}.

Definition set_atol (x : pyfloat) (s : state) : state :=
  {| agent := agent s; settings := settings s;
     save_episodes := save_episodes s; episode_num := episode_num s;
     best_ret := best_ret s; atol := x; store_from_safe := store_from_safe s;
     pi_scheduler := pi_scheduler s; t_start := t_start s;
     best_pct := best_pct s; metadata := metadata s; act_dim := act_dim s;
     safety_actor_critic := safety_actor_critic s; recording := recording s;
     file_logger := file_logger s; tb_logger := tb_logger s; files := files s;
     save_error := save_error s |}.

Definition set_store_from_safe (x : bool) (s : state) : state :=
  {| agent := agent s; settings := settings s;
     save_episodes := save_episodes s; episode_num := episode_num s;
     best_ret := best_ret s; atol := atol s; store_from_safe := x;
     pi_scheduler := pi_scheduler s; t_start := t_start s;
     best_pct := best_pct s; metadata := metadata s; act_dim := act_dim s;
     safety_actor_critic := safety_actor_critic s; recording := recording s;
     file_logger := file_logger s; tb_logger := tb_logger s; files := files s;
     save_error := save_error s |}.

Definition set_pi_scheduler (x : option nat) (s : state) : state :=
  {| agent := agent s; settings := settings s;
     save_episodes := save_episodes s; episode_num := episode_num s;
     best_ret := best_ret s; atol := atol s;
     store_from_safe := store_from_safe s; pi_scheduler := x;
     t_start := t_start s; best_pct := best_pct s; metadata := metadata s;
     act_dim := act_dim s; safety_actor_critic := safety_actor_critic s;
     recording := recording s; file_logger := file_logger s;
     tb_logger := tb_logger s; files := files s;
     save_error := save_error s |}.

Definition set_t_start (x : Z) (s : state) : state :=
  {| agent := agent s; settings := settings s;
     save_episodes := save_episodes s; episode_num := episode_num s;
     best_ret := best_ret s; atol := atol s;
     store_from_safe := store_from_safe s; pi_scheduler := pi_scheduler s;
     t_start := x; best_pct := best_pct s; metadata := metadata s;
     act_dim := act_dim s; safety_actor_critic := safety_actor_critic s;
     recording := recording s; file_logger := file_logger s;
     tb_logger := tb_logger s; files := files s;
     save_error := save_error s |}.

Definition set_best_pct (x : Qc) (s : state) : state :=
  {| agent := agent s; settings := settings s;
     save_episodes := save_episodes s; episode_num := episode_num s;
     best_ret := best_ret s; atol := atol s;
     store_from_safe := store_from_safe s; pi_scheduler := pi_scheduler s;
     t_start := t_start s; best_pct := x; metadata := metadata s;
     act_dim := act_dim s; safety_actor_critic := safety_actor_critic s;
     recording := recording s; file_logger := file_logger s;
     tb_logger := tb_logger s; files := files s;
     save_error := save_error s |}.

Definition set_metadata (x : metadata_dict) (s : state) : state :=
  {| agent := agent s; settings := settings s;
     save_episodes := save_episodes s; episode_num := episode_num s;
     best_ret := best_ret s; atol := atol s;
     store_from_safe := store_from_safe s; pi_scheduler := pi_scheduler s;
     t_start := t_start s; best_pct := best_pct s; metadata := x;
     act_dim := act_dim s; safety_actor_critic := safety_actor_critic s;
     recording := recording s; file_logger := file_logger s;
     tb_logger := tb_logger s; files := files s;
     save_error := save_error s |}.

Definition set_act_dim (x : Z) (s : state) : state :=
  {| agent := agent s; settings := settings s;
     save_episodes := save_episodes s; episode_num := episode_num s;
     best_ret := best_ret s; atol := atol s;
     store_from_safe := store_from_safe s; pi_scheduler := pi_scheduler s;
     t_start := t_start s; best_pct := best_pct s; metadata := metadata s;
     act_dim := x; safety_actor_critic := safety_actor_critic s;
     recording := recording s; file_logger := file_logger s;
     tb_logger := tb_logger s; files := files s;
     save_error := save_error s |}.

Definition set_recording (x : option recording_dict) (s : state) : state :=
  {| agent := agent s; settings := settings s;
     save_episodes := save_episodes s; episode_num := episode_num s;
     best_ret := best_ret s; atol := atol s;
     store_from_safe := store_from_safe s; pi_scheduler := pi_scheduler s;
     t_start := t_start s; best_pct := best_pct s; metadata := metadata s;
     act_dim := act_dim s; safety_actor_critic := safety_actor_critic s;
     recording := x; file_logger := file_logger s; tb_logger := tb_logger s;
     files := files s; save_error := save_error s |}.

Definition set_file_logger (x : list message) (s : state) : state :=
  {| agent := agent s; settings := settings s;
     save_episodes := save_episodes s; episode_num := episode_num s;
     best_ret := best_ret s; atol := atol s;
     store_from_safe := store_from_safe s; pi_scheduler := pi_scheduler s;
     t_start := t_start s; best_pct := best_pct s; metadata := metadata s;
     act_dim := act_dim s; safety_actor_critic := safety_actor_critic s;
     recording := recording s; file_logger := x; tb_logger := tb_logger s;
     files := files s; save_error := save_error s |}.

Definition set_tb_logger (x : list scalar) (s : state) : state :=
  {| agent := agent s; settings := settings s;
     save_episodes := save_episodes s; episode_num := episode_num s;
     best_ret := best_ret s; atol := atol s;
     store_from_safe := store_from_safe s; pi_scheduler := pi_scheduler s;
     t_start := t_start s; best_pct := best_pct s; metadata := metadata s;
     act_dim := act_dim s; safety_actor_critic := safety_actor_critic s;
     recording := recording s; file_logger := file_logger s; tb_logger := x;
     files := files s; save_error := save_error s |}.

Definition set_files (x : gmap string (list (list F))) (s : state) : state :=
  {| agent := agent s; settings := settings s;
     save_episodes := save_episodes s; episode_num := episode_num s;
     best_ret := best_ret s; atol := atol s;
     store_from_safe := store_from_safe s; pi_scheduler := pi_scheduler s;
     t_start := t_start s; best_pct := best_pct s; metadata := metadata s;
     act_dim := act_dim s; safety_actor_critic := safety_actor_critic s;
     recording := recording s; file_logger := file_logger s;
     tb_logger := tb_logger s; files := x; save_error := save_error s |}.

(** A method of the attributes above, run on the whole agent. *)
Definition on_agent {A} (m : M SACAgent.state A) : M state A :=
  λ s, let '(r, a) := m (agent s) in (r, set_agent a s).

(** [try: m except: pass] *)
Definition try_except_pass {A} (m : M state A) : M state unit :=
  λ s, (Ok tt, (m s).2).

(** [for x in l: body(x)] *)
Fixpoint for_in {A} (l : list A) (body : A → M state unit) : M state unit :=
  match l with
  | [] => ret tt
  | x :: l' => (_ <- body x ;; for_in l' body)%M
  end.

(** *** Files *)

(** [torch.save(sd, path)] *)
Definition torch_save (sd : list (list F)) (path : string) : M state unit :=
  (self <- get ;;
   match save_error self path with
   | Some e => raise e
   | None => modify (λ s, set_files (<[path := sd]> (files s)) s)
   end)%M.

(** [torch.load(path)] now: a file written since the start is read back,
    any other path is looked up in the files that were there. *)
Definition torch_load_now (path : string) : M state (list (list F)) :=
  (self <- get ;;
   lift (match files self !! path with
         | Some sd => Ok sd
         | None => torch_load path
         end))%M.

(** [module.state_dict()]: the tensors of the parameters, in order. *)
Definition state_dict (ps : list (param F)) : list (list F) := p_data <$> ps.

(** [module.load_state_dict(sd)] on the parameters of a module: every
    tensor of [sd] that has the shape of its parameter is copied into it,
    then missing, unexpected or misshapen tensors are reported. *)
Definition copy_ (sd : list (list F)) (i : nat) (p : param F) : param F :=
  match sd !! i with
  | Some x => if length x =? length (p_data p) then set_data x p else p
  | None => p
  end.

Definition module_load_state_dict (sd : list (list F)) (ps : list (param F))
  : result unit * list (param F) :=
  (if bool_decide (length <$> sd = shape ps) then Ok tt
   else Raise RuntimeError,
   imap (copy_ sd) ps).

Definition load_model (path : string) : M state unit :=
  (sd <- torch_load_now path ;;
   self <- get ;;
   let '(r, ps) := module_load_state_dict sd (actor_critic (agent self)) in
   _ <- modify (set_agent (set_actor_critic ps (agent self))) ;;
   lift r)%M.

Definition save_model (path : string) : M state unit :=
  (self <- get ;;
   torch_save (state_dict (actor_critic (agent self))) path)%M.

(** *** [set_params] *)

(** The shape of [Box(-1, 1, (2,))], and [shape[0]]. *)
Definition box_shape : list Z := [2%Z].

Definition getitem0 (l : list Z) : result Z :=
  match l with
  | x :: _ => Ok x
  | [] => Raise IndexError
  end.

(** [if cfg["checkpoint"] and cfg["load_checkpoint"]]: a path is true when
    it is not empty. *)
Definition checkpoint_to_load (c : more_cfg) : option string :=
  match checkpoint c with
  | Some path =>
      if negb (String.eqb path "") && load_checkpoint c then Some path
      else None
  | None => None
  end.

Definition set_params : M state unit :=
  (_ <- modify (set_save_episodes true) ;;
   _ <- modify (set_episode_num 0) ;;
   _ <- modify (set_best_ret 0) ;;
   _ <- on_agent (modify (set_t 0)) ;;
   _ <- on_agent (modify (set_deterministic false)) ;;
   _ <- modify (set_atol (pyfloat_div (pyfloat_of_Z 1) (pyfloat_of_Z 1000))) ;;
   _ <- modify (set_store_from_safe false) ;;
   _ <- modify (set_pi_scheduler None) ;;
   _ <- modify (set_t_start 0) ;;
   _ <- modify (set_best_pct 0) ;;
   _ <- modify (set_metadata (Metadata None None)) ;;
   _ <- on_agent (modify (set_transition_actor "")) ;;
   _ <- on_agent (modify (set_action_space box)) ;;
   n <- lift (getitem0 box_shape) ;;
   _ <- modify (set_act_dim n) ;;
   self <- get ;;
   b <- lift (replay_buffer_new (feat_dim (agent self)) (act_dim self)
                (replay_size (settings self))) ;;
   _ <- on_agent (modify (set_replay_buffer b)) ;;
   ps <- lift (actor_critic_new (obs_dim (agent self)) (cfg (agent self))
                 (obs_dim (agent self))) ;;
   _ <- on_agent (modify (set_actor_critic ps)) ;;
   _ <- match checkpoint_to_load (settings self) with
        | Some path => load_model path
        | None => ret tt
        end ;;
   on_agent (modify (λ a, set_actor_critic_target (actor_critic a) a)))%M.

(** *** Schedules and checkpoints *)

(** [info["metrics"][k]] *)
Definition metric (info : info_dict) (k : string) : result Qc :=
  (m <- getitem info "metrics" ;; getitem m k)%res.

(** [self.pi_scheduler.step()] *)
Definition pi_scheduler_step : M state unit :=
  (self <- get ;;
   match pi_scheduler self with
   | Some n => modify (set_pi_scheduler (Some (S n)))
   | None => raise AttributeError
   end)%M.

Definition cutoffs : list Qc := [Qc_of_Z 93; Qc_of_Z 100].

Definition update_best_pct_complete (info : info_dict) : M state unit :=
  (self <- get ;;
   pct <- lift (metric info "pct_complete") ;;
   if bool_decide (best_pct self < pct)%Qc
   then (_ <- for_in cutoffs (λ cutoff,
                self <- get ;;
                pct <- lift (metric info "pct_complete") ;;
                if bool_decide (best_pct self < cutoff)%Qc
                   && bool_decide (cutoff ≤ pct)%Qc
                then pi_scheduler_step
                else ret tt) ;;
         pct <- lift (metric info "pct_complete") ;;
         modify (set_best_pct pct))
   else ret tt)%M.

(** The two f-strings of [checkpoint_model]. *)
Definition best_path_name (c : more_cfg) (n_eps : Z) : string :=
  model_save_path c +:+ "/best_" +:+ experiment_name c +:+ "_episode_"
    +:+ pretty n_eps +:+ ".statedict".

Definition periodic_path_name (c : more_cfg) (n_eps : Z) : string :=
  model_save_path c +:+ "/" +:+ experiment_name c +:+ "_episode_"
    +:+ pretty n_eps +:+ ".statedict".

(** [self.file_logger(msg)] *)
Definition file_log (msg : message) : M state unit :=
  modify (λ s, set_file_logger (file_logger s ++ [msg]) s).

(** Try to save Safety Actor-Critic, if present. *)
Definition save_safety_actor_critic (path_name : string) : M state unit :=
  try_except_pass
    (self <- get ;;
     match safety_actor_critic self with
     | Some ps => torch_save (state_dict ps) path_name
     | None => raise AttributeError
     end)%M.

(** In the second test Python reads [n_eps + 1 % save_freq] as
    [n_eps + (1 % save_freq)]. *)
Definition checkpoint_model (ep_ret : Qc) (n_eps : Z) : M state unit :=
  (self <- get ;;
   if bool_decide (best_ret self < ep_ret)%Qc
   then (let path_name := best_path_name (settings self) n_eps in
         _ <- file_log (NewBest ep_ret path_name) ;;
         _ <- modify (set_best_ret ep_ret) ;;
         _ <- torch_save (state_dict (actor_critic (agent self))) path_name ;;
         let path_name := best_path_name (settings self) n_eps in
         save_safety_actor_critic path_name)
   else if bool_decide (0 < save_freq (settings self))%Z
           && bool_decide (n_eps + (1 `mod` save_freq (settings self)) = 0)%Z
   then (let path_name := periodic_path_name (settings self) n_eps in
         _ <- file_log (PeriodicSave (save_freq (settings self)) path_name) ;;
         _ <- torch_save (state_dict (actor_critic (agent self))) path_name ;;
         let path_name := periodic_path_name (settings self) n_eps in
         save_safety_actor_critic path_name)
   else ret tt)%M.

(** *** Recording and logging *)

(** [x.detach().cpu().numpy()]: a numpy array has no [detach]. *)
Definition detach_numpy (x : SimpleReplayBuffer.arraylike F)
  : result (list F) :=
  match x with
  | SimpleReplayBuffer.TorchTensor _ d => Ok d
  | SimpleReplayBuffer.NdArray _ => Raise AttributeError
  end.

Definition add_experience (action : list F) (camera next_camera : Camera)
    (done : bool) (env_nearest_idx : Z)
    (feature next_feature : SimpleReplayBuffer.arraylike F)
    (info : info_dict) (reward : Qc) (state_ next_state : Kinematics)
    (step : Z) : M state recording_dict :=
  (self <- get ;;
   f <- lift (detach_numpy feature) ;;
   f2 <- lift (detach_numpy next_feature) ;;
   let r := {| r_step := step; r_nearest_idx := env_nearest_idx;
               r_camera := camera; r_feature := f; r_state := state_;
               r_action_taken := action; r_next_camera := next_camera;
               r_next_feature := f2; r_next_state := next_state;
               r_reward := reward; r_episode := episode_num self;
               r_stage := "training"; r_done := done;
               r_transition_actor := transition_actor (agent self);
               r_metadata := info |} in
   _ <- modify (set_recording (Some r)) ;;
   ret r)%M.

(** [self.tb_logger.add_scalar(tag, value, step)] *)
Definition add_scalar (tag : string) (value : Qc) (step : Z) : M state unit :=
  modify (λ s, set_tb_logger (tb_logger s ++ [Scalar tag value step]) s).

(** [add_scalar(tag, info["metrics"][k], step)] *)
Definition add_metric (tag : string) (info : info_dict) (k : string)
    (step : Z) : M state unit :=
  (v <- lift (metric info k) ;; add_scalar tag v step)%M.

Definition log_val_metrics_to_tensorboard (info : info_dict) (ep_ret : Qc)
    (n_eps n_val_steps : Z) : M state unit :=
  (_ <- add_scalar "val/episodic_return" ep_ret n_eps ;;
   _ <- add_scalar "val/ep_n_steps" (Qc_of_Z n_val_steps) n_eps ;;
   _ <- try_except_pass
          (_ <- add_metric "val/ep_pct_complete" info "pct_complete" n_eps ;;
           _ <- add_metric "val/ep_total_time" info "total_time" n_eps ;;
           _ <- add_metric "val/ep_total_distance" info "total_distance"
                  n_eps ;;
           _ <- add_metric "val/ep_avg_speed" info "average_speed_kph"
                  n_eps ;;
           _ <- add_metric "val/ep_avg_disp_err" info
                  "average_displacement_error" n_eps ;;
           _ <- add_metric "val/ep_traj_efficiency" info
                  "trajectory_efficiency" n_eps ;;
           _ <- add_metric "val/ep_traj_admissibility" info
                  "trajectory_admissibility" n_eps ;;
           add_metric "val/movement_smoothness" info "movement_smoothness"
             n_eps) ;;
   self <- get ;;
   match md_safety_info (metadata self) with
   | Some safety_info =>
       v <- lift (getitem safety_info "ep_interventions") ;;
       add_scalar "val/ep_interventions" v n_eps
   | None => ret tt
   end)%M.

(** [add_scalar(tag, self.metadata["info"]["metrics"][k],
    self.episode_num)] *)
Definition add_train_metric (tag k : string) : M state unit :=
  (self <- get ;;
   v <- lift (match md_info (metadata self) with
              | Some info => metric info k
              | None => Raise KeyError
              end) ;;
   add_scalar tag v (episode_num self))%M.

Definition log_train_metrics_to_tensorboard (ep_ret : Qc) (t t_start : Z)
  : M state unit :=
  (self <- get ;;
   _ <- add_scalar "train/episodic_return" ep_ret (episode_num self) ;;
   _ <- add_train_metric "train/ep_total_time" "total_time" ;;
   _ <- add_train_metric "train/ep_total_distance" "total_distance" ;;
   _ <- add_train_metric "train/ep_avg_speed" "average_speed_kph" ;;
   _ <- add_train_metric "train/ep_avg_disp_err"
          "average_displacement_error" ;;
   _ <- add_train_metric "train/ep_traj_efficiency" "trajectory_efficiency" ;;
   _ <- add_train_metric "train/ep_traj_admissibility"
          "trajectory_admissibility" ;;
   _ <- add_train_metric "train/movement_smoothness" "movement_smoothness" ;;
   self <- get ;;
   add_scalar "train/ep_n_steps" (Qc_of_Z (t - t_start)) (episode_num self))%M.

End Methods.

Arguments metadata_dict : clear implicits.
Arguments recording_dict : clear implicits.
Arguments state {F Noise Observation} Camera Kinematics {_ _ _}.

End Bookkeeping.

(** *** Vocabulary of the further properties *)

(** What the loop that freezes, or unfreezes, a group does to the list of
    the [requires_grad] flags. *)
Definition set_flags (x : bool) (group : list nat) (l : list bool)
  : list bool :=
  foldl (λ l i, alter (λ _, x) i l) l group.

Section MoreVocabulary.
Context {F Noise Observation : Type}.
Context `{!Arith F, !ActorCritic F Noise Observation, !Torch F Noise,
          !Env F Observation}.
Import SACAgent.



End MoreVocabulary.

Section BooksVocabulary.
Context {F Noise Observation Camera Kinematics : Type}.
Context `{!Arith F, !ActorCritic F Noise Observation, !Torch F Noise,
          !Env F Observation, !Construct F Observation}.
Import Bookkeeping.
Implicit Types (s : state Camera Kinematics).

Definition Qc_max (x y : Qc) : Qc := if decide (x < y)%Qc then y else x.

(** The two writes of [checkpoint_model] at one path: the module of [s0],
    then the safety module. *)
Definition save_at (path_name : string) s0
  : M (state Camera Kinematics) unit :=
  (_ <- torch_save (state_dict (SACAgent.actor_critic (agent s0))) path_name ;;
   save_safety_actor_critic path_name)%M.

(** The state a run of [checkpoint_model] calls leaves, each given the
    return of an episode and its number, returning or raising. *)
Definition checkpoints s (episodes : list (Qc * Z)) : state Camera Kinematics :=
  foldl (λ s '(ep_ret, n_eps), (checkpoint_model ep_ret n_eps s).2) s episodes.

(** The cutoffs that lie above [best] and not above [pct]. *)
Definition crossed (best pct : Qc) : nat :=
  length (filter (λ cutoff, (best < cutoff)%Qc ∧ (cutoff ≤ pct)%Qc) cutoffs).

(** The state a run of [update_best_pct_complete] calls leaves. *)
Definition completions s (infos : list info_dict) : state Camera Kinematics :=
  foldl (λ s info, (update_best_pct_complete info s).2) s infos.

(** The tags of the validation and of the training metrics, each with the
    key it is read from, in the order of the calls. *)
Definition val_metrics : list (string * string) :=
  [("val/ep_pct_complete", "pct_complete");
   ("val/ep_total_time", "total_time");
   ("val/ep_total_distance", "total_distance");
   ("val/ep_avg_speed", "average_speed_kph");
   ("val/ep_avg_disp_err", "average_displacement_error");
   ("val/ep_traj_efficiency", "trajectory_efficiency");
   ("val/ep_traj_admissibility", "trajectory_admissibility");
   ("val/movement_smoothness", "movement_smoothness")].

Definition train_metrics : list (string * string) :=
  [("train/ep_total_time", "total_time");
   ("train/ep_total_distance", "total_distance");
   ("train/ep_avg_speed", "average_speed_kph");
   ("train/ep_avg_disp_err", "average_displacement_error");
   ("train/ep_traj_efficiency", "trajectory_efficiency");
   ("train/ep_traj_admissibility", "trajectory_admissibility");
   ("train/movement_smoothness", "movement_smoothness")].

(** The scalars written for a list of metrics up to the first one that is
    missing. *)
Fixpoint logged (read : string → result Qc) (step : Z)
    (l : list (string * string)) : list scalar :=
  match l with
  | [] => []
  | (tag, k) :: l' =>
      match read k with
      | Ok v => Scalar tag v step :: logged read step l'
      | Raise _ => []
      end
  end.

(** [self.metadata["info"]["metrics"][k]] *)
Definition metadata_metric s (k : string) : result Qc :=
  match md_info (metadata s) with
  | Some info => metric info k
  | None => Raise KeyError
  end.

End BooksVocabulary.

(** *** More concrete objects

    Constructors for the toy agent, agents with other encoder sections,
    and the books of a run: no file written yet, every write accepted. *)

Section MoreToy.
Context {F : Type} `{!Arith F}.

#[export] Instance toy_construct : Construct F (list F) := {|
  box := 0%nat;
  replay_buffer_new obs_dim act_dim size :=
    SimpleReplayBuffer.init obs_dim act_dim size 1;
  actor_critic_new obs_dim cfg latent_dims :=
    Ok [Param [f1] true None; Param [f1; f0] true None; Param [f1] true None];
|}.

End MoreToy.

Section MoreExamples.
Import SimpleReplayBuffer SACAgent Bookkeeping.

Definition ex_agent_with (encs : gmap string encoder_cfg)
  : SACAgent.state (F := float32) (Noise := float32)
      (Observation := list float32) :=
  SACAgent.State (Config f1 f1 ex_polyak 10 false "vae" true encs) 0 false "" 0%nat
    0 None None (ex_buffer [] 1) ex_params ex_params [0; 1]
    (Optimizer [0; 1] tt) (Optimizer [2] tt).

Definition ex_settings (save_freq : Z) (chkpt : option string) : more_cfg :=
  MoreCfg "models" "sac" save_freq 2 chkpt true.

Definition ex_books (save_freq : Z) (chkpt : option string)
    (sched : option nat) (safety : option (list (param float32)))
  : Bookkeeping.state (F := float32) (Noise := float32)
      (Observation := list float32) unit unit :=
  Bookkeeping.State (ex_agent "vae" (ex_buffer [] 1))
    (ex_settings save_freq chkpt) true 0 0 (pyfloat_of_Z 0) false sched 0 0
    (Metadata None None) 2 safety None [] [] ∅ (λ _, None).

(** An [info] with the completion [pct] and no other metric. *)
Definition ex_info (pct : Z) : info_dict :=
  {[ "metrics" := {[ "pct_complete" := Qc_of_Z pct ]} ]}.


End MoreExamples.

(** * Properties *)

(** ** Outcomes *)

Section MonadFacts.
Context {S A B : Type}.

Lemma rbind_Ok (r : result A) (k : A → result B) (b : B) :
  rbind r k = Ok b → ∃ a, r = Ok a ∧ k a = Ok b.
Proof. destruct r as [a|e]; cbn; [|done]. by exists a. Qed.

Lemma bind_Ok (m : M S A) (k : A → M S B) (s s' : S) (b : B) :
  bind m k s = (Ok b, s') → ∃ a s1, m s = (Ok a, s1) ∧ k a s1 = (Ok b, s').
Proof.
  unfold bind. destruct (m s) as [[a|e] s1]; [|done]. by exists a, s1.
Qed.

Lemma bind_run (m : M S A) (k : A → M S B) (s s1 : S) (a : A) :
  m s = (Ok a, s1) → bind m k s = k a s1.
Proof. unfold bind. by intros ->. Qed.

Lemma bind_raise (m : M S A) (k : A → M S B) (s s1 : S) (e : exn) :
  m s = (Raise e, s1) → bind m k s = (Raise e, s1).
Proof. unfold bind. by intros ->. Qed.

End MonadFacts.

(** ** The deque keeps the most recent elements *)

Section DequeFacts.
Context {A : Type}.
Implicit Types (d : deque A) (l xs : list A) (x : A).

Lemma most_recent_length n l : length (most_recent n l) = min n (length l).
Proof. unfold most_recent. rewrite length_drop. lia. Qed.

Lemma most_recent_snoc n l x :
  most_recent n (l ++ [x]) =
  (if n <? length (most_recent n l ++ [x])
   then drop 1 (most_recent n l ++ [x]) else most_recent n l ++ [x]).
Proof.
  unfold most_recent.
  rewrite !length_app, length_drop. simpl.
  destruct (Nat.ltb_spec n (length l - (length l - n) + 1)) as [Hlt|Hge].
  - destruct (decide (n = 0)) as [->|Hn].
    { rewrite !Nat.sub_0_r, drop_all, drop_ge by (rewrite length_app; simpl; lia).
      done. }
    rewrite drop_app_le by lia.
    rewrite drop_app_le by (rewrite length_drop; lia).
    rewrite drop_drop. f_equal. f_equal. lia.
  - replace (length l - n) with 0 by lia.
    replace (length l + 1 - n) with 0 by lia. done.
Qed.

Lemma deque_append_maxlen x d : maxlen (deque_append x d) = maxlen d.
Proof. done. Qed.

Lemma deque_extend_maxlen xs d : maxlen (deque_extend xs d) = maxlen d.
Proof.
  revert d. induction xs as [|x xs IH]; intros d; [done|].
  change (deque_extend (x :: xs) d) with (deque_extend xs (deque_append x d)).
  by rewrite IH.
Qed.

(** If the deque holds the last [maxlen] elements of a history, it still
    does after an [append]. *)
Lemma deque_append_recent x d l :
  items d = most_recent (maxlen d) l →
  items (deque_append x d) = most_recent (maxlen d) (l ++ [x]).
Proof.
  intros Hd. unfold deque_append. simpl.
  rewrite most_recent_snoc, Hd. done.
Qed.

Lemma deque_extend_recent xs d l :
  items d = most_recent (maxlen d) l →
  items (deque_extend xs d) = most_recent (maxlen d) (l ++ xs).
Proof.
  revert d l. induction xs as [|x xs IH]; intros d l Hd.
  - by rewrite app_nil_r.
  - change (deque_extend (x :: xs) d)
      with (deque_extend xs (deque_append x d)).
    rewrite (IH _ (l ++ [x])).
    + by rewrite deque_append_maxlen, <-(assoc_L (++)).
    + rewrite deque_append_maxlen. by apply deque_append_recent.
Qed.

Lemma deque_append_full x d oldest rest :
  items d = oldest :: rest →
  length (items d) = maxlen d →
  items (deque_append x d) = rest ++ [x].
Proof.
  intros Hd Hlen. unfold deque_append. simpl.
  rewrite length_app. simpl.
  destruct (Nat.ltb_spec (maxlen d) (length (items d) + 1)); [|lia].
  by rewrite Hd.
Qed.

End DequeFacts.

Example deque_append_full_ex : items (deque_append 3 (Deque 2 [1; 2])) = [2; 3].
Proof. reflexivity. Qed.

Example deque_append_room_ex : items (deque_append 3 (Deque 4 [1; 2])) = [1; 2; 3].
Proof. reflexivity. Qed.

Example deque_extend_ex :
  items (deque_extend [3; 4; 5] (Deque 2 [1; 2])) = [4; 5].
Proof. reflexivity. Qed.

Example deque_maxlen_zero_ex : items (deque_append 1 (Deque 0 [])) = [].
Proof. reflexivity. Qed.

(** ** The replay buffer is a bounded FIFO *)

Section BufferFacts.
Context {F : Type} `{!Arith F}.
Import SimpleReplayBuffer.
Implicit Types (b o : state F) (v : value F) (vs : list (value F)).

Lemma store_cls v b : cls (store v b).2 = cls b.
Proof.
  destruct v as [d|o|ty]; cbn; [done| |done].
  by destruct (String.eqb (cls o) (cls b)).
Qed.

Lemma store_maxlen v b : maxlen (buffer (store v b).2) = maxlen (buffer b).
Proof.
  destruct v as [d|o|ty]; cbn; [done| |done].
  destruct (String.eqb (cls o) (cls b)); cbn; [|done].
  apply deque_extend_maxlen.
Qed.

(** One [store] keeps the deque on the most recent elements of the history
    extended by what the call stores. *)
Lemma store_recent v b l :
  items (buffer b) = most_recent (maxlen (buffer b)) l →
  items (buffer (store v b).2) =
    most_recent (maxlen (buffer b)) (l ++ stored (cls b) v).
Proof.
  intros Hb. destruct v as [d|o|ty]; cbn.
  - by apply deque_append_recent.
  - destruct (String.eqb (cls o) (cls b)); cbn.
    + by apply deque_extend_recent.
    + by rewrite app_nil_r.
  - by rewrite app_nil_r.
Qed.

Lemma store_all_snoc vs v b :
  store_all (vs ++ [v]) b = (store v (store_all vs b)).2.
Proof. unfold store_all. by rewrite foldl_app. Qed.

Lemma store_all_invariants vs b :
  cls (store_all vs b) = cls b ∧
  maxlen (buffer (store_all vs b)) = maxlen (buffer b).
Proof.
  induction vs as [|v vs IH] using rev_ind; [done|].
  rewrite store_all_snoc, store_cls, store_maxlen. done.
Qed.

Lemma store_all_recent vs b l :
  items (buffer b) = most_recent (maxlen (buffer b)) l →
  items (buffer (store_all vs b)) =
    most_recent (maxlen (buffer b)) (l ++ concat (stored (cls b) <$> vs)).
Proof.
  intros Hb. induction vs as [|v vs IH] using rev_ind.
  - cbn. by rewrite app_nil_r.
  - destruct (store_all_invariants vs b) as [Hcls Hmax].
    rewrite store_all_snoc, fmap_app, concat_app.
    replace (concat (stored (cls b) <$> [v])) with (stored (cls b) v)
      by (cbn; by rewrite app_nil_r).
    rewrite (assoc_L (++)), <-Hcls, <-Hmax.
    apply store_recent. rewrite Hmax, Hcls. exact IH.
Qed.

Lemma init_spec (od ad size bs : Z) b :
  init od ad size bs = Ok b →
  (0 ≤ size)%Z ∧ cls b = class_name ∧
  buffer b = Deque (Z.to_nat size) [] ∧ weights b = None ∧ batch_size b = bs.
Proof.
  unfold init, deque_new. destruct (Z.ltb_spec size 0); cbn; [done|].
  intros [= <-]. done.
Qed.

(** C5. From a buffer constructed with capacity [size], after any run of
    [store] calls: the length is at most [size]; the buffer holds exactly
    the [size] most recent of all the elements stored so far, oldest
    first; and storing one more transition into the full buffer drops the
    oldest element and nothing else. *)
Theorem store_fifo_capacity (od ad size bs : Z) (b0 : state F) vs :
  init od ad size bs = Ok b0 →
  let b := store_all vs b0 in
  (Z.of_nat (len b) ≤ size)%Z ∧
  items (buffer b) =
    most_recent (Z.to_nat size) (concat (stored class_name <$> vs)) ∧
  ∀ d oldest rest,
    items (buffer b) = oldest :: rest →
    Z.of_nat (len b) = size →
    (store (VDict d) b).1 = Ok tt ∧
    items (buffer (store (VDict d) b).2) = rest ++ [currdict d].
Proof.
  intros (Hsize & Hcls & Hbuf & _)%init_spec b.
  assert (Hrec : items (buffer b) =
            most_recent (Z.to_nat size) (concat (stored class_name <$> vs))).
  { subst b. rewrite (store_all_recent vs b0 []).
    - by rewrite Hbuf, Hcls.
    - by rewrite Hbuf. }
  split_and!.
  - unfold len. rewrite Hrec, most_recent_length. lia.
  - done.
  - intros d oldest rest Hitems Hfull. split; [done|].
    cbn. apply (deque_append_full _ _ oldest); [done|].
    destruct (store_all_invariants vs b0) as [_ Hmax].
    fold b in Hmax. rewrite Hmax, Hbuf. cbn. unfold len in Hfull. lia.
Qed.

End BufferFacts.

(** ** What the store accepts *)

Section StoreFacts.
Context {F : Type} `{!Arith F}.
Import SimpleReplayBuffer.
Implicit Types (b o : state F) (v : value F).

(** C8. An argument that is neither a dict nor a buffer of the class of
    [self] makes [store] raise, the buffer left as it was; a buffer of the
    same class has all its elements appended in their stored order: the
    deque then holds the most recent [maxlen] elements of the old contents
    followed by the other buffer's, and all of them when there is room. *)
Theorem store_by_type b :
  (∀ v, (∀ d, v ≠ VDict d) → (∀ o, v = VBuffer o → cls o ≠ cls b) →
        store v b = (Raise invalid_input, b)) ∧
  (∀ o, cls o = cls b →
        length (items (buffer b)) ≤ maxlen (buffer b) →
        let b' := (store (VBuffer o) b).2 in
        (store (VBuffer o) b).1 = Ok tt ∧
        buffer b' = deque_extend (items (buffer o)) (buffer b) ∧
        items (buffer b') =
          most_recent (maxlen (buffer b))
            (items (buffer b) ++ items (buffer o)) ∧
        (length (items (buffer b)) + length (items (buffer o))
           ≤ maxlen (buffer b) →
         items (buffer b') = items (buffer b) ++ items (buffer o))).
Proof.
  split.
  - intros [d|o|ty] Hdict Hcls; cbn.
    + by destruct (Hdict d).
    + destruct (String.eqb_spec (cls o) (cls b)) as [Heq|_]; [|done].
      by destruct (Hcls o).
    + done.
  - intros o Hcls Hinv b'. subst b'. cbn.
    rewrite Hcls, String.eqb_refl. cbn.
    assert (Hrec : items (deque_extend (items (buffer o)) (buffer b)) =
              most_recent (maxlen (buffer b))
                (items (buffer b) ++ items (buffer o))).
    { apply deque_extend_recent. unfold most_recent.
      by replace (length (items (buffer b)) - maxlen (buffer b)) with 0
        by lia. }
    split_and!; [done..|].
    intros Hroom. rewrite Hrec. unfold most_recent.
    rewrite length_app.
    by replace (_ - maxlen (buffer b)) with 0 by lia.
Qed.

End StoreFacts.

(** ** Sampling *)

Section SampleFacts.
Context {F : Type} `{!Arith F}.
Import SimpleReplayBuffer.
Implicit Types (b : state F) (bt : batch F) (rows : list (entry F)).

Lemma gather_ok (l : list (entry F)) idxs :
  Forall (λ i, i < length l) idxs →
  ∃ rows, gather l idxs = Ok rows ∧ length rows = length idxs.
Proof.
  induction 1 as [|i idxs Hi _ (rows & Hrows & Hlen)]; cbn.
  - by exists [].
  - destruct (lookup_lt_is_Some_2 l i Hi) as [e ->].
    rewrite Hrows. cbn. exists (e :: rows). by rewrite <-Hlen.
Qed.

Lemma gather_length (l : list (entry F)) idxs rows :
  gather l idxs = Ok rows → length rows = length idxs.
Proof.
  revert rows. induction idxs as [|i idxs IH]; intros rows; cbn.
  - by intros [= <-].
  - destruct (l !! i); [|done].
    destruct (gather l idxs) as [rows'|]; cbn; [|done].
    intros [= <-]. cbn. by rewrite (IH rows').
Qed.

Lemma np_stack_ok (rs rs' : list (list F)) : np_stack rs = Ok rs' → rs' = rs.
Proof.
  destruct rs as [|r rs]; cbn; [done|].
  by destruct (_ && _); intros [=].
Qed.

Lemma np_stack_pairs_ok (rs rs' : list (list F * list F)) :
  np_stack_pairs rs = Ok rs' → rs' = rs.
Proof.
  destruct rs as [|r rs]; cbn; [done|].
  by destruct (_ && _); intros [=].
Qed.


Lemma to_tensors_rows rows bt :
  to_tensors rows = Ok (Data bt) → has_rows (length rows) bt ∧ rows ≠ [].
Proof.
  destruct rows as [|e rows]; [done|].
  unfold to_tensors. intros Hbt.
  apply rbind_Ok in Hbt as (o & Ho%np_stack_pairs_ok & Hbt).
  apply rbind_Ok in Hbt as (o2 & Ho2%np_stack_pairs_ok & Hbt).
  apply rbind_Ok in Hbt as (a & Ha%np_stack_ok & Hbt).
  injection Hbt as <-. subst. split; [|done].
  unfold has_rows. cbn. by rewrite !length_fmap.
Qed.

Lemma gather_rows (l : list (entry F)) idxs rows :
  gather l idxs = Ok rows → Forall2 (λ i e, l !! i = Some e) idxs rows.
Proof.
  revert rows. induction idxs as [|i idxs IH]; intros rows; cbn.
  - intros [= <-]. constructor.
  - destruct (l !! i) as [e|] eqn:Hi; [|done].
    intros (rows' & Hrows & [= <-])%rbind_Ok. constructor; auto.
Qed.

(** The rows of a returned batch are the entries at the drawn indices, in
    the order drawn, and the deque is as it was. *)
Lemma sample_batch_contents draw b bt b' :
  sample_batch draw b = (Ok (Data bt), b') →
  buffer b' = buffer b ∧
  ∃ rows,
    Forall2 (λ i e, items (buffer b) !! i = Some e) draw rows ∧
    bt = Batch (e_obs <$> rows) (e_obs2 <$> rows) (e_act <$> rows)
           (e_rew <$> rows) ((λ e, float_of_bool (e_done e)) <$> rows).
Proof.
  unfold sample_batch, bind, get, lift, modify, np_random_choice.
  repeat case_match; try done; simplify_eq.
  intros [= Hbt <-]. split; [done|].
  match goal with H : gather _ _ = Ok ?r |- _ =>
    exists r; split; [by apply gather_rows|] end.
  unfold to_tensors in Hbt. case_match; [done|].
  apply rbind_Ok in Hbt as (c1 & ->%np_stack_pairs_ok & Hbt).
  apply rbind_Ok in Hbt as (c2 & ->%np_stack_pairs_ok & Hbt).
  apply rbind_Ok in Hbt as (c3 & ->%np_stack_ok & Hbt).
  by injection Hbt as <-.
Qed.

(** A call that returns a batch has set the weights to as many zeros as
    the batch has rows. *)
Lemma sample_batch_returns draw b bt b' :
  sample_batch draw b = (Ok (Data bt), b') →
  ∃ n, n ≠ 0 ∧ has_rows n bt ∧ weights b' = Some (replicate n f0).
Proof.
  unfold sample_batch, bind, get, lift, modify.
  destruct (np_random_choice _ _ _) as [idxs|]; [|done].
  destruct (gather _ _) as [rows|] eqn:Hrows; [|done].
  apply gather_length in Hrows.
  intros [= Hbt <-]. apply to_tensors_rows in Hbt as [Hbt Hne].
  exists (length rows). split_and!; [|done|by rewrite Hrows].
  by destruct rows.
Qed.

(** On a buffer that is not empty and with a batch size that is not
    negative, the call gets past the draw, whatever the generator picks,
    and sets the weights. *)
Lemma sample_batch_sets_weights draw b :
  len b ≠ 0 → (0 ≤ batch_size b)%Z →
  is_choice (len b) (Z.min (batch_size b) (Z.of_nat (len b))) draw →
  weights (sample_batch draw b).2 =
    Some (replicate (Z.to_nat (Z.min (batch_size b) (Z.of_nat (len b)))) f0).
Proof.
  intros Hne Hbs (Hlen & _ & Hlt).
  unfold sample_batch, bind, get, lift, modify, np_random_choice.
  destruct (Z.ltb_spec (Z.min (batch_size b) (Z.of_nat (len b))) 0); [lia|].
  destruct (Nat.eqb_spec (len b) 0); [done|]. cbn.
  destruct (Z.ltb_spec (Z.of_nat (len b))
              (Z.min (batch_size b) (Z.of_nat (len b)))); [lia|].
  destruct (gather_ok (items (buffer b)) draw Hlt) as (rows & -> & _).
  cbn. rewrite <-Hlen, Nat2Z.id. by destruct (to_tensors rows).
Qed.

End SampleFacts.

(** ** The losses *)

Section TensorFacts.
Context {F : Type} `{!Arith F}.

Lemma broadcast2_same (f : F → F → F) (x y : list F) :
  length x = length y → broadcast2 f x y = Ok (zip_with f x y).
Proof. intros H. unfold broadcast2. by rewrite H, Nat.eqb_refl. Qed.

Lemma add_same (x y : list F) :
  length y = length x → add_ x y = Ok (zip_with fadd x y).
Proof. intros H. unfold add_. by rewrite H, Nat.eqb_refl. Qed.

End TensorFacts.

(** Lookups in, and lengths of, the columns built by the losses. *)
Ltac lookups :=
  repeat first [ rewrite lookup_zip_with | rewrite list_lookup_fmap
               | rewrite list_lookup_imap ].

Ltac len :=
  repeat first [ rewrite length_zip_with | rewrite length_fmap
               | rewrite length_imap | rewrite length_replicate ];
  try lia.

Section LossFacts.
Context {F Noise Observation : Type}.
Context `{!Arith F, !ActorCritic F Noise Observation, !Torch F Noise,
          !Env F Observation}.
Import SimpleReplayBuffer SACAgent.
Implicit Types (self : state) (bt : batch F) (eps : nat → Noise).

Lemma forward_q_same (q : list F * list F → list F → F) o a :
  length o = length a → forward_q q o a = Ok (zip_with q o a).
Proof. intros H. unfold forward_q. by rewrite H, Nat.eqb_refl. Qed.

(** The tensor-level errors of [compute_loss_q] are the per-transition
    errors. *)
Lemma td_errors_columns self q bt eps :
  let θ := p_data <$> actor_critic self in
  let θ_targ := p_data <$> actor_critic_target self in
  let out := forward_pi θ (b_obs2 bt) eps in
  zip_with fsub (zip_with (q θ) (b_obs bt) (b_act bt))
    (zip_with fadd (b_rew bt)
       (zip_with fmul (fmul (gamma (cfg self)) <$> (fsub f1 <$> b_done bt))
          (zip_with fsub
             (zip_with fmin (zip_with (q1 θ_targ) (b_obs2 bt) out.1)
                            (zip_with (q2 θ_targ) (b_obs2 bt) out.1))
             (fmul (alpha (cfg self)) <$> out.2)))) =
  td_errors self q bt eps.
Proof.
  cbn. unfold td_errors, transitions, bellman_backup.
  apply list_eq; intros i.
  lookups.
  destruct (b_obs bt !! i) as [o|]; cbn; [|done].
  destruct (b_act bt !! i) as [a|]; cbn; [|done].
  destruct (b_rew bt !! i) as [r|]; cbn; [|done].
  destruct (b_done bt !! i) as [d|]; cbn.
  - destruct (b_obs2 bt !! i) as [o2|]; cbn; [|done].
    by destruct (pi _ o2 (eps i)).
  - by destruct (b_obs2 bt !! i).
Qed.

Lemma length_td_errors self q bt eps n :
  has_rows n bt → length (td_errors self q bt eps) = n.
Proof.
  intros (? & ? & ? & ? & ?). unfold td_errors, transitions. len.
Qed.

(** The loss of a batch whose columns have [n] rows, under weights of the
    same length. *)
Lemma compute_loss_q_rows self bt eps w n :
  has_rows n bt →
  weights (replay_buffer self) = Some w → length w = n →
  ∃ l info, compute_loss_q self (Data bt) eps = Ok (l, info) ∧
            item l = q_loss self w bt eps.
Proof.
  intros Hrows Hw Hlen. pose proof Hrows as (Ho & Ho2 & Ha & Hr & Hd).
  pose proof (td_errors_columns self q1 bt eps) as E1.
  pose proof (td_errors_columns self q2 bt eps) as E2.
  pose proof (length_td_errors self q1 bt eps n Hrows) as L1.
  pose proof (length_td_errors self q2 bt eps n Hrows) as L2.
  cbn zeta in E1, E2. unfold compute_loss_q, getattr_weights.
  destruct (forward_pi _ (b_obs2 bt) eps) as [a2 logp_a2] eqn:Hpi.
  assert (length a2 = n ∧ length logp_a2 = n) as [La2 Llogp].
  { unfold forward_pi in Hpi. injection Hpi as <- <-. split; len. }
  cbn [fst snd] in E1, E2.
  rewrite !forward_q_same by lia. cbn [rbind].
  rewrite (broadcast2_same fmin) by len. cbn [rbind].
  rewrite (broadcast2_same fsub) by len. cbn [rbind].
  rewrite (broadcast2_same fmul) by len. cbn [rbind].
  rewrite (broadcast2_same fadd) by len. cbn [rbind].
  rewrite Hw. cbn [rbind].
  rewrite (broadcast2_same fsub), E1 by len. cbn [rbind].
  rewrite (broadcast2_same fmul) by (unfold pow2; len). cbn [rbind].
  rewrite (broadcast2_same fsub), E2 by len. cbn [rbind].
  rewrite (broadcast2_same fmul) by (unfold pow2; len). cbn [rbind].
  eexists _, _. split; [done|]. cbn [item].
  unfold q_loss, weighted_mse, pow2. by rewrite !zip_with_fmap_r.
Qed.

(** C1. For a batch that [sample_batch] returned, with the buffer in the
    state the call left it in, [compute_loss_q] returns the sum over the
    two critics of the mean of the weight-scaled squared errors between
    [Q(o, a)] and the backup [r + gamma * (1 - d) * (min(Q1_targ(o2, a2),
    Q2_targ(o2, a2)) - alpha * log pi(a2 | o2))], [a2] drawn from the
    current policy. *)
Theorem compute_loss_q_spec (b b' : SimpleReplayBuffer.state F) draw bt
    self eps :
  sample_batch draw b = (Ok (Data bt), b') →
  replay_buffer self = b' →
  ∃ w l info,
    weights b' = Some w ∧
    compute_loss_q self (Data bt) eps = Ok (l, info) ∧
    item l = q_loss self w bt eps.
Proof.
  intros (n & _ & Hrows & Hw)%sample_batch_returns <-.
  destruct (compute_loss_q_rows self bt eps (replicate n f0) n)
    as (l & info & Hl & Hitem); [done|done|len|].
  by exists (replicate n f0), l, info.
Qed.

(** The policy loss is defined on every batch. *)
Lemma compute_loss_pi_returns self bt eps :
  ∃ l info, compute_loss_pi self (Data bt) eps = Ok (l, info).
Proof.
  unfold compute_loss_pi.
  destruct (forward_pi _ (b_obs bt) eps) as [pi_ logp_pi] eqn:Hpi.
  unfold forward_pi in Hpi. injection Hpi as <- <-.
  rewrite !forward_q_same by len. cbn [rbind].
  rewrite (broadcast2_same fmin) by len. cbn [rbind].
  rewrite (broadcast2_same fsub) by len. cbn [rbind].
  by eexists _, _.
Qed.

(** C3. For every batch, [compute_loss_pi] returns the mean over the batch
    of [alpha * log pi(a | o) - min(Q1(o, a), Q2(o, a))], the actions
    drawn from the current policy on the batch observations. *)
Theorem compute_loss_pi_spec self bt eps :
  ∃ l info, compute_loss_pi self (Data bt) eps = Ok (l, info) ∧
            item l = pi_loss self bt eps.
Proof.
  unfold compute_loss_pi.
  destruct (forward_pi _ (b_obs bt) eps) as [pi_ logp_pi] eqn:Hpi.
  unfold forward_pi in Hpi. injection Hpi as <- <-.
  rewrite !forward_q_same by len. cbn [rbind].
  rewrite (broadcast2_same fmin) by len. cbn [rbind].
  rewrite (broadcast2_same fsub) by len. cbn [rbind].
  eexists _, _. split; [done|]. cbn [item]. unfold pi_loss. f_equal.
  apply list_eq; intros i.
  lookups.
  destruct (b_obs bt !! i) as [o|]; cbn; [|done].
  by destruct (pi _ o (eps i)).
Qed.

End LossFacts.

(** ** Zero weights *)

#[export] Instance Qc_zero_laws : ZeroLaws Qc.
Proof.
  split.
  - intros x _. apply Qcmult_0_l.
  - apply Qcplus_0_l.
  - intros n. apply Qcmult_0_l.
Qed.

Section ZeroWeights.
Context {F Noise Observation : Type}.
Context `{!Arith F, !ActorCritic F Noise Observation, !Torch F Noise,
          !Env F Observation, !Finite F, !ZeroLaws F}.
Import SimpleReplayBuffer SACAgent.

Lemma tsum_zeros n : tsum (replicate n f0) = f0 :> F.
Proof.
  unfold tsum. induction n as [|n IH]; cbn; [done|].
  by rewrite fadd_zero_zero.
Qed.

Lemma zero_weights_cancel n (e : list F) :
  length e = n →
  Forall (λ x, is_finite (fmul x x) = true) e →
  zip_with (λ wi ei, fmul wi (fmul ei ei)) (replicate n f0) e
  = replicate n f0.
Proof.
  intros <-. induction 1 as [|x e Hx _ IH]; cbn; [done|].
  by rewrite fmul_zero_square, IH.
Qed.

Lemma weighted_mse_zero n (e : list F) :
  n ≠ 0 → length e = n →
  Forall (λ x, is_finite (fmul x x) = true) e →
  weighted_mse (replicate n f0) e = f0.
Proof.
  intros Hn Hlen He. unfold weighted_mse, mean.
  rewrite zero_weights_cancel, tsum_zeros, length_replicate by done.
  destruct n as [|n]; [done|]. apply fdiv_zero_count.
Qed.

(** C2, amended. On a buffer that is not empty and whose batch size is not
    negative, [sample_batch] leaves in [weights] a zero tensor of length
    [min(batch_size, len(buffer))]; and the Q-loss that [compute_loss_q]
    computes from a batch the call returned is zero whenever the squared
    errors of both critics are finite. *)
Theorem zero_weights_zero_loss (b : SimpleReplayBuffer.state F) draw :
  len b ≠ 0 → (0 ≤ batch_size b)%Z →
  is_choice (len b) (Z.min (batch_size b) (Z.of_nat (len b))) draw →
  let b' := (sample_batch draw b).2 in
  weights b' =
    Some (replicate (Z.to_nat (Z.min (batch_size b) (Z.of_nat (len b)))) f0) ∧
  ∀ bt self eps,
    (sample_batch draw b).1 = Ok (Data bt) →
    replay_buffer self = b' →
    Forall (λ x, is_finite (fmul x x) = true)
      (td_errors self q1 bt eps ++ td_errors self q2 bt eps) →
    ∃ l info, compute_loss_q self (Data bt) eps = Ok (l, info) ∧
              item l = f0.
Proof.
  intros Hne Hbs Hdraw b'. split.
  { by apply sample_batch_sets_weights. }
  intros bt self eps Hbt Hself [He1 He2]%Forall_app.
  destruct (sample_batch draw b) as [r b''] eqn:Hs. cbn in Hbt, b'.
  subst r b'. apply sample_batch_returns in Hs as (n & Hn & Hrows & Hw).
  rewrite <-Hself in Hw.
  destruct (compute_loss_q_rows self bt eps (replicate n f0) n)
    as (l & info & Hl & Hitem); [done|done|len|].
  exists l, info. split; [done|]. rewrite Hitem. unfold q_loss.
  rewrite !weighted_mse_zero
    by (done || by apply length_td_errors). apply fadd_zero_zero.
Qed.

End ZeroWeights.

(** ** binary32 satisfies the zero laws *)

Section Float32Facts.

Lemma shr_1_div2 mrs : (0 ≤ shr_m mrs → shr_m (shr_1 mrs) = Z.div2 (shr_m mrs))%Z.
Proof. destruct mrs as [[|[p|p|]|p] r s]; cbn; intros; (done || lia). Qed.

Lemma iter_pos_nat {A} (f : A → A) p x :
  SpecFloat.iter_pos f p x = Nat.iter (Pos.to_nat p) f x.
Proof.
  revert x. induction p as [p IH|p IH|]; intros x; cbn [SpecFloat.iter_pos].
  - rewrite !IH, Pos2Nat.inj_xI.
    replace (S (2 * Pos.to_nat p)) with (Pos.to_nat p + Pos.to_nat p + 1)
      by lia.
    by rewrite !Nat.iter_add.
  - rewrite !IH, Pos2Nat.inj_xO.
    replace (2 * Pos.to_nat p) with (Pos.to_nat p + Pos.to_nat p) by lia.
    by rewrite Nat.iter_add.
  - done.
Qed.

Lemma shr_m_iter n mrs :
  (0 ≤ shr_m mrs → shr_m (Nat.iter n shr_1 mrs) = shr_m mrs / 2 ^ Z.of_nat n)%Z.
Proof.
  intros Hm. induction n as [|n IH].
  - cbn. by rewrite Z.div_1_r.
  - rewrite Nat.iter_succ, shr_1_div2, IH.
    + rewrite Z.div2_div, Z.div_div, Nat2Z.inj_succ, Z.pow_succ_r by lia.
      f_equal. lia.
    + rewrite IH. apply Z.div_pos; lia.
Qed.

Lemma digits2_pos_size p : digits2_pos p = Pos.size p.
Proof. induction p; cbn; by f_equal. Qed.

Lemma digits2_pos_le p : (2 ^ (Z.pos (digits2_pos p) - 1) ≤ Z.pos p)%Z.
Proof.
  rewrite digits2_pos_size. pose proof (Pos.size_le p) as H.
  apply Pos2Z.pos_le_pos in H. rewrite Pos2Z.inj_pow in H.
  replace (Z.pos (Pos.size p)) with (Z.succ (Z.pos (Pos.size p) - 1)) in H
    by lia.
  rewrite Z.pow_succ_r in H by lia. lia.
Qed.

(** Shifting to the binary32 exponent range keeps a positive mantissa
    positive when the exponent is not far below zero. *)
Lemma shr_fexp_pos p e l :
  (-148 ≤ e)%Z →
  (0 < shr_m (shr_fexp 24 128 (Z.pos p) e l).1 ∧
   e ≤ (shr_fexp 24 128 (Z.pos p) e l).2)%Z.
Proof.
  intros He. unfold shr_fexp, shr, fexp, emin. cbn [Zdigits2].
  pose proof (digits2_pos_le p) as Hd.
  set (d := Z.pos (digits2_pos p)) in *.
  assert (Hm : shr_m (shr_record_of_loc (Z.pos p) l) = Z.pos p)
    by by destruct l as [|[]].
  destruct (Z.max (d + e - 24) (3 - 128 - 24) - e)%Z as [|n|n] eqn:Hn;
    cbn [fst snd]; rewrite ?Hm; [lia| |lia].
  rewrite iter_pos_nat, shr_m_iter, Hm, positive_nat_Z by lia.
  split; [|lia].
  apply Z.div_str_pos. split; [lia|].
  etrans; [|exact Hd]. apply Z.pow_le_mono_r; lia.
Qed.

Lemma round_nearest_even_pos m l : (0 < m → 0 < round_nearest_even m l)%Z.
Proof.
  intros Hm. destruct l as [|[]]; cbn; [done| |done|lia].
  destruct (Z.even m); lia.
Qed.

(** Rounding a positive mantissa gives a finite number or an infinity of
    the sign asked for. *)
Lemma binary_round_aux_pos sx p e l :
  (-148 ≤ e)%Z →
  (∃ m' e', binary_round_aux 24 128 sx (Z.pos p) e l = S754_finite sx m' e') ∨
  binary_round_aux 24 128 sx (Z.pos p) e l = S754_infinity sx.
Proof.
  intros He. unfold binary_round_aux.
  destruct (shr_fexp_pos p e l He) as [Hm1 He1].
  destruct (shr_fexp 24 128 (Z.pos p) e l) as [mrs' e'].
  cbn [fst snd] in Hm1, He1.
  pose proof (round_nearest_even_pos (shr_m mrs') (loc_of_shr_record mrs') Hm1)
    as Hr.
  destruct (round_nearest_even _ _) as [|p1|] eqn:Hp1; [lia| |lia].
  destruct (shr_fexp_pos p1 e' loc_Exact) as [Hm2 _]; [lia|].
  destruct (shr_fexp 24 128 (Z.pos p1) e' loc_Exact) as [mrs'' e''].
  cbn [fst] in Hm2.
  destruct (shr_m mrs'') as [|m2|]; [lia| |lia].
  destruct (e'' <=? 128 - 24)%Z; eauto.
Qed.

Lemma float32_of_count n :
  (∃ m e, @fof_nat float32 _ (S n) = S754_finite false m e) ∨
  @fof_nat float32 _ (S n) = S754_infinity false.
Proof.
  cbn [fof_nat float32_arith]. rewrite Nat2Z.inj_succ, <-Z.add_1_r.
  destruct (Z.of_nat n + 1)%Z as [|p|] eqn:Hp; [lia| |lia].
  cbn [binary_normalize]. unfold binary_round.
  pose proof (Pos2Z.is_pos (digits2_pos p)) as Hd.
  destruct (shl_align p 0 _) as [mz ez] eqn:Hal.
  apply binary_round_aux_pos.
  unfold shl_align, fexp, emin in Hal.
  destruct (Z.max _ _ - 0)%Z eqn:Hz; injection Hal as <- <-; lia.
Qed.

#[export] Instance float32_zero_laws : ZeroLaws float32.
Proof.
  split.
  - intros [[]|s| |s m e]; cbn; try done.
    unfold binary_round_aux.
    destruct (shr_fexp _ _ _ _ _) as [mrs' e'].
    destruct (shr_fexp _ _ _ _ _) as [mrs'' e''].
    rewrite Bool.xorb_nilpotent.
    destruct (shr_m mrs''); cbn; try done.
    by destruct (_ <=? _)%Z.
  - done.
  - intros n. destruct (float32_of_count n) as [(m & e & ->)| ->]; done.
Qed.

End Float32Facts.

(** ** The update *)

Section UpdateFacts.
Context {F Noise Observation : Type}.
Context `{!Arith F, !ActorCritic F Noise Observation, !Torch F Noise,
          !Env F Observation}.
Import SimpleReplayBuffer SACAgent.
Implicit Types (s self : state) (ps ts : list (param F)) (p : param F).
Implicit Types (group : list nat) (f : nat → param F → param F).

(** *** Loops over a parameter group *)

Lemma for_each_cons f i group ps :
  for_each f (i :: group) ps = for_each f group (alter (f i) i ps).
Proof. done. Qed.

Lemma for_each_length f group ps : length (for_each f group ps) = length ps.
Proof.
  revert ps. induction group as [|i group IH]; intros ps; [done|].
  by rewrite for_each_cons, IH, length_alter.
Qed.

(** A parameter outside the group is left as it was. *)
Lemma for_each_outside f group ps j :
  j ∉ group → for_each f group ps !! j = ps !! j.
Proof.
  revert ps. induction group as [|i group IH]; intros ps Hj; [done|].
  apply not_elem_of_cons in Hj as [Hji Hj].
  by rewrite for_each_cons, IH, list_lookup_alter_ne.
Qed.

(** A loop whose body leaves a projection of the parameters alone leaves
    it alone on the whole list. *)
Lemma for_each_preserves {A} (π : param F → A) f group ps :
  (∀ i p, π (f i p) = π p) →
  π <$> for_each f group ps = π <$> ps.
Proof.
  intros Hf. revert ps. induction group as [|i group IH]; intros ps; [done|].
  rewrite for_each_cons, IH. apply list_eq; intros j.
  rewrite !list_lookup_fmap.
  destruct (decide (i = j)) as [->|Hij].
  - rewrite list_lookup_alter_eq. destruct (ps !! j); cbn; by rewrite ?Hf.
  - by rewrite list_lookup_alter_ne.
Qed.

(** Inside the group, the flag is the one the loop assigns. *)
Lemma for_each_requires_grad x group ps j p :
  j ∈ group →
  for_each (λ _, set_requires_grad x) group ps !! j = Some p →
  requires_grad p = x.
Proof.
  revert ps. induction group as [|i group IH]; intros ps Hj; [by inv Hj|].
  rewrite for_each_cons. destruct (decide (j ∈ group)) as [Hin|Hout].
  { by apply IH. }
  apply elem_of_cons in Hj as [->|?]; [|done].
  rewrite for_each_outside, list_lookup_alter_eq by done.
  destruct (ps !! i); [|done]. by intros [= <-].
Qed.

(** *** The pieces of a gradient step *)

Lemma clear_grad_data p : p_data (clear_grad p) = p_data p.
Proof. unfold clear_grad. by destruct set_to_none. Qed.

Lemma clear_grad_requires_grad p :
  requires_grad (clear_grad p) = requires_grad p.
Proof. unfold clear_grad. by destruct set_to_none. Qed.

Lemma zero_grad_data o ps : p_data <$> zero_grad o ps = p_data <$> ps.
Proof. apply for_each_preserves. intros _. apply clear_grad_data. Qed.

Lemma zero_grad_requires_grad o ps :
  requires_grad <$> zero_grad o ps = requires_grad <$> ps.
Proof. apply for_each_preserves. intros _. apply clear_grad_requires_grad. Qed.

Lemma backward_preserves {A} (π : param F → A) l ps :
  (∀ p x, π (set_grad x p) = π p) →
  π <$> backward l ps = π <$> ps.
Proof.
  intros Hπ. unfold backward. apply list_eq; intros j.
  rewrite !list_lookup_fmap, list_lookup_imap.
  destruct (ps !! j) as [p|]; cbn; [|done]. f_equal.
  destruct (requires_grad p); [|done].
  destruct (grad_fn l j); [|done].
  unfold accumulate. by destruct (grad p).
Qed.

Lemma backward_data l ps : p_data <$> backward l ps = p_data <$> ps.
Proof. by apply backward_preserves. Qed.

Lemma backward_requires_grad l ps :
  requires_grad <$> backward l ps = requires_grad <$> ps.
Proof. by apply backward_preserves. Qed.

Lemma apply_update_requires_grad os i p :
  requires_grad (apply_update os i p) = requires_grad p.
Proof. unfold apply_update. by destruct (grad p). Qed.

Lemma step_requires_grad o ps :
  requires_grad <$> (step o ps).1 = requires_grad <$> ps.
Proof. apply for_each_preserves. apply apply_update_requires_grad. Qed.

Lemma step_outside o ps j :
  j ∉ param_group o → (step o ps).1 !! j = ps !! j.
Proof. apply for_each_outside. Qed.



Lemma shape_data ps ps' : p_data <$> ps' = p_data <$> ps → shape ps' = shape ps.
Proof.
  intros H1. unfold shape.
  change (λ p : param F, length (p_data p)) with (length ∘ @p_data F).
  by rewrite !list_fmap_compose, H1.
Qed.

Lemma step_shape o ps : in_place → shape (step o ps).1 = shape ps.
Proof.
  intros Hin. apply (for_each_preserves (λ p, length (p_data p))).
  intros i p. unfold apply_update. destruct (grad p); [apply Hin|done].
Qed.

#[local] Arguments step : simpl never.
#[local] Arguments for_each : simpl never.
#[local] Arguments shape : simpl never.
#[local] Arguments backward : simpl never.
#[local] Arguments zero_grad : simpl never.
#[local] Arguments compute_loss_q : simpl never.
#[local] Arguments compute_loss_pi : simpl never.

(** *** The two gradient steps

    Whether the step returns or raises, it leaves a state that differs from
    the one it started in by the parameters of [actor_critic] and by the
    optimizer: no flag has changed, and no parameter outside the group of
    the optimizer has. *)
Lemma gradient_step_q_state d eps s :
  ∃ ps' o',
    (gradient_step_q d eps s).2 = set_q_optimizer o' (set_actor_critic ps' s) ∧
    requires_grad <$> ps' = requires_grad <$> actor_critic s ∧
    (∀ j, j ∉ param_group (q_optimizer s) →
          p_data <$> ps' !! j = p_data <$> actor_critic s !! j) ∧
    (in_place → shape ps' = shape (actor_critic s)).
Proof.
  unfold gradient_step_q, bind, get, lift, modify. cbn.
  destruct (compute_loss_q _ d eps) as [[l info]|e]; cbn.
  - set (ps := backward l (zero_grad (q_optimizer s) (actor_critic s))).
    exists (step (q_optimizer s) ps).1, (step (q_optimizer s) ps).2.
    subst ps. split_and!; [done|..].
    + by rewrite step_requires_grad, backward_requires_grad,
        zero_grad_requires_grad.
    + intros j Hj. rewrite step_outside by done.
      by rewrite <-!list_lookup_fmap, backward_data, zero_grad_data.
    + intros Hin. rewrite step_shape by done. apply shape_data.
      by rewrite backward_data, zero_grad_data.
  - exists (zero_grad (q_optimizer s) (actor_critic s)), (q_optimizer s).
    split_and!; [by destruct s|..].
    + apply zero_grad_requires_grad.
    + intros j _. by rewrite <-!list_lookup_fmap, zero_grad_data.
    + intros _. apply shape_data, zero_grad_data.
Qed.

Lemma gradient_step_pi_state d eps s :
  ∃ ps' o',
    (gradient_step_pi d eps s).2 = set_pi_optimizer o' (set_actor_critic ps' s) ∧
    requires_grad <$> ps' = requires_grad <$> actor_critic s ∧
    (∀ j, j ∉ param_group (pi_optimizer s) →
          p_data <$> ps' !! j = p_data <$> actor_critic s !! j) ∧
    (in_place → shape ps' = shape (actor_critic s)).
Proof.
  unfold gradient_step_pi, bind, get, lift, modify. cbn.
  destruct (compute_loss_pi _ d eps) as [[l info]|e]; cbn.
  - set (ps := backward l (zero_grad (pi_optimizer s) (actor_critic s))).
    exists (step (pi_optimizer s) ps).1, (step (pi_optimizer s) ps).2.
    subst ps. split_and!; [done|..].
    + by rewrite step_requires_grad, backward_requires_grad,
        zero_grad_requires_grad.
    + intros j Hj. rewrite step_outside by done.
      by rewrite <-!list_lookup_fmap, backward_data, zero_grad_data.
    + intros Hin. rewrite step_shape by done. apply shape_data.
      by rewrite backward_data, zero_grad_data.
  - exists (zero_grad (pi_optimizer s) (actor_critic s)), (pi_optimizer s).
    split_and!; [by destruct s|..].
    + apply zero_grad_requires_grad.
    + intros j _. by rewrite <-!list_lookup_fmap, zero_grad_data.
    + intros _. apply shape_data, zero_grad_data.
Qed.

(** [backward] passes over a parameter that does not require a gradient. *)
Lemma backward_frozen l ps j :
  (∀ p, ps !! j = Some p → requires_grad p = false) →
  backward l ps !! j = ps !! j.
Proof.
  intros Hj. unfold backward. rewrite list_lookup_imap.
  destruct (ps !! j) as [p|]; cbn; [|done].
  by rewrite (Hj p).
Qed.

Lemma zero_grad_outside o ps j :
  j ∉ param_group o → zero_grad o ps !! j = ps !! j.
Proof. apply for_each_outside. Qed.

(** The policy step leaves a frozen parameter outside the group of its
    optimizer exactly as it was: data, gradient and flag. *)
Lemma gradient_step_pi_frozen d eps s j :
  j ∉ param_group (pi_optimizer s) →
  (∀ p, actor_critic s !! j = Some p → requires_grad p = false) →
  actor_critic (gradient_step_pi d eps s).2 !! j = actor_critic s !! j.
Proof.
  intros Hout Hfrozen.
  unfold gradient_step_pi, bind, get, lift, modify. cbn.
  destruct (compute_loss_pi _ d eps) as [[l info]|e]; cbn.
  - set (ps := backward l (zero_grad (pi_optimizer s) (actor_critic s))).
    pose proof (step_outside (pi_optimizer s) ps j Hout) as Hstep.
    destruct (step (pi_optimizer s) ps) as [ps' o']. cbn in *.
    rewrite Hstep. subst ps.
    rewrite backward_frozen by by rewrite zero_grad_outside.
    by apply zero_grad_outside.
  - by apply zero_grad_outside.
Qed.

(** The steps return when their loss does. *)
Lemma gradient_step_q_returns bt eps s w n :
  has_rows n bt →
  weights (replay_buffer s) = Some w → length w = n →
  (gradient_step_q (Data bt) eps s).1 = Ok tt.
Proof.
  intros Hrows Hw Hlen.
  unfold gradient_step_q, bind, get, lift, modify. cbn.
  destruct (compute_loss_q_rows
              (set_actor_critic (zero_grad (q_optimizer s) (actor_critic s)) s)
              bt eps w n) as (l & info & -> & _); done.
Qed.

Lemma gradient_step_pi_returns bt eps s :
  (gradient_step_pi (Data bt) eps s).1 = Ok tt.
Proof.
  unfold gradient_step_pi, bind, get, lift, modify. cbn.
  by destruct (compute_loss_pi_returns
              (set_actor_critic (zero_grad (pi_optimizer s) (actor_critic s)) s)
              bt eps) as (l & info & ->).
Qed.

(** *** Polyak averaging *)


Lemma polyak_average_same_shape ρ ps ts :
  shape ps = shape ts →
  polyak_average ρ ps ts =
    (Ok tt, zip_with (λ p p_targ, set_data (polyak_mix ρ p p_targ) p_targ) ps ts).
Proof.
  revert ts. induction ps as [|p ps IH]; intros [|p_targ ts] Hsh;
    try done.
  injection Hsh as Hp Hsh. cbn [polyak_average].
  rewrite add_same by (len; done). rewrite (IH ts Hsh). done.
Qed.


(** *** The whole update *)

Lemma set_q_requires_grad_run x s :
  set_q_requires_grad x s =
    (Ok tt, set_actor_critic
              (for_each (λ _, set_requires_grad x) (q_params s) (actor_critic s))
              s).
Proof. done. Qed.

Lemma freeze_data x group ps :
  p_data <$> for_each (λ _, set_requires_grad x) group ps = p_data <$> ps.
Proof. by apply for_each_preserves. Qed.


(** What the phases leave alone. *)
Lemma phases_frame d eps_q eps_pi s :
  let s1 := after_q_step d eps_q s in
  let s2 := after_freeze d eps_q s in
  let s3 := after_pi_step d eps_q eps_pi s in
  let s4 := after_unfreeze d eps_q eps_pi s in
  (q_params s1 = q_params s ∧ q_params s3 = q_params s ∧
   pi_optimizer s2 = pi_optimizer s ∧
   actor_critic_target s4 = actor_critic_target s ∧
   cfg s4 = cfg s) ∧
  (p_data <$> actor_critic s2 = p_data <$> actor_critic s1 ∧
   p_data <$> actor_critic s4 = p_data <$> actor_critic s3) ∧
  (in_place → shape (actor_critic s4) = shape (actor_critic s)).
Proof.
  intros s1 s2 s3 s4. subst s4 s3 s2 s1.
  unfold after_unfreeze, after_pi_step, after_freeze, after_q_step.
  destruct (gradient_step_q_state d eps_q s)
    as (ps1 & o1 & E1 & _ & _ & Hsh1).
  rewrite !set_q_requires_grad_run. cbn [snd]. rewrite E1.
  set (s1 := set_q_optimizer o1 (set_actor_critic ps1 s)).
  set (s2 := set_actor_critic (for_each _ (q_params s1) (actor_critic s1)) s1).
  destruct (gradient_step_pi_state d eps_pi s2)
    as (ps3 & o3 & E3 & _ & _ & Hsh3).
  rewrite E3. subst s2 s1. cbn.
  split_and!; try done.
  - apply freeze_data.
  - apply freeze_data.
  - intros Hin. rewrite (shape_data ps3) by apply freeze_data.
    rewrite Hsh3 by done. cbn. rewrite (shape_data ps1) by apply freeze_data.
    by apply Hsh1.
Qed.

(** With a batch of [n] rows, weights of that length, a target of the
    shapes of the online module and in-place optimizers, every phase
    returns. *)
Lemma update_run bt eps_q eps_pi s w n :
  has_rows n bt →
  weights (replay_buffer s) = Some w → length w = n →
  in_place → shape (actor_critic s) = shape (actor_critic_target s) →
  let s4 := after_unfreeze (Data bt) eps_q eps_pi s in
  update (Data bt) eps_q eps_pi s =
    (Ok tt,
     set_actor_critic_target
       (zip_with (λ p p_targ,
                    set_data (polyak_mix (polyak (cfg s)) p p_targ) p_targ)
          (actor_critic s4) (actor_critic_target s)) s4).
Proof.
  intros Hrows Hw Hlen Hin Hsh s4.
  destruct (phases_frame (Data bt) eps_q eps_pi s)
    as ((_ & _ & _ & Htarg & Hcfg) & _ & Hsh4).
  fold s4 in Htarg, Hcfg, Hsh4.
  pose proof (gradient_step_q_returns bt eps_q s w n Hrows Hw Hlen) as R1.
  pose proof (gradient_step_pi_returns bt eps_pi
                (after_freeze (Data bt) eps_q s)) as R3.
  unfold update.
  rewrite (bind_run _ _ s (after_q_step (Data bt) eps_q s) tt)
    by (unfold after_q_step; destruct (gradient_step_q _ _ s) as [[[]|] ?];
        cbn in R1; by simplify_eq).
  rewrite (bind_run _ _ _ (after_freeze (Data bt) eps_q s) tt) by done.
  rewrite (bind_run _ _ _ (after_pi_step (Data bt) eps_q eps_pi s) tt)
    by (unfold after_pi_step;
        destruct (gradient_step_pi _ _ (after_freeze _ _ s)) as [[[]|] ?];
        cbn in R3; by simplify_eq).
  rewrite (bind_run _ _ _ s4 tt) by done.
  unfold update_targets. rewrite Htarg, Hcfg.
  by rewrite polyak_average_same_shape by (rewrite Hsh4; done).
Qed.


Lemma shape_lookup ps ts i p_targ :
  shape ps = shape ts → ts !! i = Some p_targ →
  ∃ p, ps !! i = Some p ∧ length (p_data p) = length (p_data p_targ).
Proof.
  intros Hsh Hi. apply (f_equal (.!! i)) in Hsh. unfold shape in Hsh.
  rewrite !list_lookup_fmap, Hi in Hsh.
  destruct (ps !! i) as [p|]; [|done]. exists p. split; [done|].
  by injection Hsh.
Qed.

(** C4. A call to [update] that gets a batch of [n] rows, with weights of
    length [n] in the buffer and a target module of the shapes of the
    online one, returns; and then every parameter of the target is
    [polyak] times its value before the call plus [(1 - polyak)] times
    the parameter of the online module at the same place, as the gradient
    steps of this call left it.  The arithmetic is the one of the code:
    [1 - polyak] is computed on Python floats, the two coefficients are
    cast to the dtype of the tensors, and the products and the sum are
    taken there. *)
Theorem update_polyak bt eps_q eps_pi s w n :
  has_rows n bt →
  weights (replay_buffer s) = Some w → length w = n →
  in_place → shape (actor_critic s) = shape (actor_critic_target s) →
  ∃ s',
    update (Data bt) eps_q eps_pi s = (Ok tt, s') ∧
    actor_critic s' = actor_critic (after_unfreeze (Data bt) eps_q eps_pi s) ∧
    length (actor_critic_target s') = length (actor_critic_target s) ∧
    ∀ i p_targ,
      actor_critic_target s !! i = Some p_targ →
      ∃ p p_targ',
        actor_critic s' !! i = Some p ∧
        actor_critic_target s' !! i = Some p_targ' ∧
        length (p_data p) = length (p_data p_targ) ∧
        p_data p_targ' =
          zip_with fadd
            ((λ x, fmul x (fof_float (polyak (cfg s)))) <$> p_data p_targ)
            (fmul (fof_float (pyfloat_sub (pyfloat_of_Z 1) (polyak (cfg s))))
               <$> p_data p).
Proof.
  intros Hrows Hw Hlen Hin Hsh.
  destruct (phases_frame (Data bt) eps_q eps_pi s) as (_ & _ & Hsh4).
  specialize (Hsh4 Hin). cbn zeta in Hsh4. rewrite Hsh in Hsh4.
  eexists. split; [by eapply update_run|].
  set (s4 := after_unfreeze (Data bt) eps_q eps_pi s) in *.
  cbn [actor_critic actor_critic_target set_actor_critic_target].
  split_and!; [done| |].
  - rewrite length_zip_with. apply (f_equal length) in Hsh4.
    unfold shape in Hsh4. rewrite !length_fmap in Hsh4. lia.
  - intros i p_targ Hi.
    destruct (shape_lookup _ _ i p_targ Hsh4 Hi) as (p & Hp & Hlenp).
    exists p, (set_data (polyak_mix (polyak (cfg s)) p p_targ) p_targ).
    split_and!; [done| |done|done].
    by rewrite lookup_zip_with, Hp, Hi.
Qed.

(** C6. In a call to [update] that returns (same conditions), when the
    optimizer of the policy holds no parameter listed in [q_params]: the
    parameters in [q_params] do not require a gradient when the policy
    step starts; the policy step leaves them exactly as it found them
    (data, gradient and flag); at the end of the call their data are what
    the Q-optimizer step left and they require a gradient again. *)
Theorem update_freezes_q bt eps_q eps_pi s w n :
  (∀ j, j ∈ q_params s → j ∉ param_group (pi_optimizer s)) →
  has_rows n bt →
  weights (replay_buffer s) = Some w → length w = n →
  in_place → shape (actor_critic s) = shape (actor_critic_target s) →
  let s1 := after_q_step (Data bt) eps_q s in
  let s2 := after_freeze (Data bt) eps_q s in
  let s3 := after_pi_step (Data bt) eps_q eps_pi s in
  ∃ s',
    update (Data bt) eps_q eps_pi s = (Ok tt, s') ∧
    ∀ j, j ∈ q_params s →
      (∀ p, actor_critic s2 !! j = Some p → requires_grad p = false) ∧
      actor_critic s3 !! j = actor_critic s2 !! j ∧
      p_data <$> actor_critic s2 !! j = p_data <$> actor_critic s1 !! j ∧
      p_data <$> actor_critic s' !! j = p_data <$> actor_critic s1 !! j ∧
      (∀ p, actor_critic s' !! j = Some p → requires_grad p = true).
Proof.
  intros Hdisj Hrows Hw Hlen Hin Hsh s1 s2 s3.
  eexists. split; [by eapply update_run|].
  cbn [actor_critic set_actor_critic_target].
  destruct (phases_frame (Data bt) eps_q eps_pi s)
    as ((Hq1 & Hq3 & Hpi2 & _ & _) & (Hd2 & Hd4) & _).
  fold s1 s2 s3 in Hq1, Hq3, Hpi2, Hd2, Hd4.
  intros j Hj.
  assert (Hfrozen : ∀ p, actor_critic s2 !! j = Some p →
                         requires_grad p = false).
  { intros p. unfold s2, after_freeze. rewrite set_q_requires_grad_run.
    cbn. fold s1. rewrite Hq1. by apply for_each_requires_grad. }
  assert (Hsame : actor_critic s3 !! j = actor_critic s2 !! j).
  { apply gradient_step_pi_frozen; [|done]. rewrite Hpi2. by apply Hdisj. }
  split_and!.
  - done.
  - done.
  - by rewrite <-!list_lookup_fmap, Hd2.
  - trans (p_data <$> actor_critic s3 !! j).
    { by rewrite <-!list_lookup_fmap, Hd4. }
    rewrite Hsame. by rewrite <-!list_lookup_fmap, Hd2.
  - intros p. unfold after_unfreeze. rewrite set_q_requires_grad_run.
    cbn. fold s3. rewrite Hq3. by apply for_each_requires_grad.
Qed.

End UpdateFacts.

(** ** Acting after a reset *)

Section ActFacts.
Context {F Noise Observation : Type}.
Context `{!Arith F, !ActorCritic F Noise Observation, !Torch F Noise,
          !Env F Observation}.
Import SimpleReplayBuffer SACAgent.
Implicit Types (s : state).


Lemma keeps_bind {A B C} (π : state → A) (m : M state B) (k : B → M state C) :
  keeps π m → (∀ b, keeps π (k b)) → keeps π (bind m k).
Proof.
  intros Hm Hk s. unfold bind. specialize (Hm s).
  destruct (m s) as [[b|e] s1]; cbn in *; [|done].
  by rewrite Hk.
Qed.


(** [update] assigns nothing but the two modules and the two optimizers. *)
Lemma update_keeps {A} (π : state → A) d eps_q eps_pi :
  (∀ x s, π (set_actor_critic x s) = π s) →
  (∀ x s, π (set_actor_critic_target x s) = π s) →
  (∀ x s, π (set_q_optimizer x s) = π s) →
  (∀ x s, π (set_pi_optimizer x s) = π s) →
  keeps π (update d eps_q eps_pi).
Proof.
  intros Hac Htarg Hq Hpi.
  assert (Hsq : keeps π (gradient_step_q d eps_q)).
  { intros s. destruct (gradient_step_q_state d eps_q s)
      as (ps & o & -> & _). by rewrite Hq, Hac. }
  assert (Hsp : keeps π (gradient_step_pi d eps_pi)).
  { intros s. destruct (gradient_step_pi_state d eps_pi s)
      as (ps & o & -> & _). by rewrite Hpi, Hac. }
  assert (Hfr : ∀ x, keeps π (set_q_requires_grad x)).
  { intros x s. rewrite set_q_requires_grad_run. apply Hac. }
  unfold update. repeat (apply keeps_bind; [done|intros _]).
  intros s. unfold update_targets.
  destruct (polyak_average _ _ _) as [r ts]. apply Htarg.
Qed.







End ActFacts.

(** ** The vision encoder *)

Section EncoderFacts.
Context {F Noise Observation : Type}.
Context `{!Arith F, !ActorCritic F Noise Observation, !Torch F Noise,
          !Env F Observation}.
Import SACAgent.
Implicit Types (s : state) (c : encoder_cfg).


Lemma load_state_dict_Ok (v v' : vae F) sd :
  load_state_dict v sd = Ok v' →
  length <$> sd = length <$> vae_weights v ∧
  v' = VAE (im_c v) (im_h v) (im_w v) (z_dim v) sd (on_device v).
Proof.
  unfold load_state_dict. case_bool_decide; [|done]. by intros [= <-].
Qed.

(** C9. [setup_vision_encoder] supports the one encoder type ["vae"]: with
    any other configured type it raises [AssertionError] and the agent is
    as before, no backbone built; when it returns, the type is ["vae"] and
    the backbone is a VAE of the configured dimensions, holding the
    weights of the configured checkpoint, on the device; and with ["vae"]
    it does return when the config section and the checkpoint are
    usable. *)
Theorem setup_vision_encoder_vae_only s :
  (use_encoder_type (cfg s) ≠ "vae" →
   setup_vision_encoder s = (Raise AssertionError, s)) ∧
  (∀ s', setup_vision_encoder s = (Ok tt, s') →
     use_encoder_type (cfg s) = "vae" ∧
     ∃ c sd,
       encoders (cfg s) !! "vae" = Some c ∧
       torch_load (vae_chkpt_statedict c) = Ok sd ∧
       backbone s' =
         Some (VAE (cfg_im_c c) (cfg_im_h c) (cfg_im_w c) (latent_dims c)
                 sd true)) ∧
  (∀ c sd,
     use_encoder_type (cfg s) = "vae" →
     encoders (cfg s) !! "vae" = Some c →
     (encoder_switch (cfg s) = true → speed_hiddens c ≠ []) →
     torch_load (vae_chkpt_statedict c) = Ok sd →
     length <$> sd = length <$> vae_weights (fresh_vae c) →
     (setup_vision_encoder s).1 = Ok tt).
Proof.
  split_and!.
  - intros Hty. unfold setup_vision_encoder, bind, get. cbn.
    by destruct (String.eqb_spec (use_encoder_type (cfg s)) "vae").
  - intros s'. unfold setup_vision_encoder.
    intros (self & s1 & [= <- <-] & H)%bind_Ok.
    destruct (String.eqb_spec (use_encoder_type (cfg s)) "vae")
      as [Hty|Hty]; [|by apply bind_Ok in H as (? & ? & [=] & _)].
    split; [done|]. rewrite Hty in H.
    apply bind_Ok in H as ([] & s1 & [= <-] & H).
    apply bind_Ok in H as (c & s1 & Hc & H).
    apply bind_Ok in H as ([] & s2 & _ & H).
    apply bind_Ok in H as (od & s3 & _ & H).
    apply bind_Ok in H as ([] & s4 & _ & H).
    apply bind_Ok in H as ([] & s5 & H5 & H).
    apply bind_Ok in H5 as (c' & s6 & Hc' & H5).
    apply bind_Ok in H5 as ([] & s7 & _ & H5).
    apply bind_Ok in H5 as (sd & s8 & Hsd & H5).
    apply bind_Ok in H5 as (v' & s9 & Hv' & H5).
    unfold lift, getitem in Hc'.
    destruct (encoders (cfg s) !! "vae") as [c0|] eqn:Hlook; [|done].
    injection Hc' as -> <-.
    injection Hsd as Hsd <-. injection Hv' as Hv' <-.
    apply load_state_dict_Ok in Hv' as [_ ->].
    injection H5 as <-.
    apply bind_Ok in H as (self' & s10 & [= <- <-] & H). cbn in H.
    injection H as <-. by exists c', sd.
  - intros c sd Hty Hc Hsw Hsd Hshape.
    unfold setup_vision_encoder, bind, get, lift, modify, getitem. cbn.
    rewrite Hty, Hc. cbn. rewrite Hsd. cbn.
    assert (Hod : ∃ od, (if encoder_switch (cfg s)
                         then (h <- last_item (speed_hiddens c) ;;
                               Ok (Some (latent_dims c + h)%Z))%res
                         else Ok None) = Ok od).
    { destruct (encoder_switch (cfg s)); [|by eexists].
      unfold last_item. destruct (list.last (speed_hiddens c)) eqn:Hl.
      - by eexists.
      - apply last_None in Hl. by destruct Hsw. }
    destruct Hod as [od ->]. cbn.
    unfold load_state_dict. by rewrite bool_decide_eq_true_2.
Qed.

End EncoderFacts.

(** ** Storing and sampling together *)

Section BufferMore.
Context {F : Type} `{!Arith F}.
Import SimpleReplayBuffer.
Implicit Types (b : state F) (v : value F) (bt : batch F).

Lemma most_recent_all {A} n (l : list A) : length l ≤ n → most_recent n l = l.
Proof. intros Hl. unfold most_recent. by replace (_ - _) with 0 by lia. Qed.

Lemma most_recent_last {A} n (l : list A) x :
  n ≠ 0 → list.last (most_recent n (l ++ [x])) = Some x.
Proof.
  intros Hn. unfold most_recent. rewrite length_app. cbn.
  rewrite drop_app_le by lia. by rewrite last_snoc.
Qed.

(** X1. [len] after a [store]: the length grows by the number of elements
    the call hands over (one for a dict, the other buffer's contents, none
    for a rejected value) and stops at the capacity; the length stays
    within the capacity. *)
Theorem store_len v b :
  len b ≤ maxlen (buffer b) →
  len (store v b).2 =
    min (len b + length (stored (cls b) v)) (maxlen (buffer b)) ∧
  len (store v b).2 ≤ maxlen (buffer (store v b).2).
Proof.
  intros Hinv. unfold len in *.
  rewrite (store_recent v b (items (buffer b))), store_maxlen
    by (by rewrite most_recent_all).
  rewrite most_recent_length, length_app. lia.
Qed.

Lemma is_choice_draw (a : nat) (size : Z) draw :
  (size ≤ Z.of_nat a)%Z → is_choice a size draw →
  np_random_choice a size draw = Ok draw.
Proof.
  intros Hle (Hlen & _ & Hlt). unfold np_random_choice.
  destruct (Z.ltb_spec size 0); [lia|].
  destruct (Z.ltb_spec (Z.of_nat a) size); [lia|].
  destruct (Nat.eqb_spec a 0) as [->|_]; [|done].
  destruct draw as [|i draw]; [by subst|].
  inv Hlt. lia.
Qed.

Lemma np_stack_raises (rs : list (list F)) e :
  np_stack rs = Raise e → e = ValueError.
Proof.
  destruct rs as [|r rs]; cbn; repeat case_match; by intros [= <-].
Qed.

Lemma np_stack_pairs_raises (rs : list (list F * list F)) e :
  np_stack_pairs rs = Raise e → e = ValueError.
Proof.
  destruct rs as [|r rs]; cbn; repeat case_match; by intros [= <-].
Qed.

Lemma to_tensors_raises rows e :
  to_tensors rows = Raise e → e = ValueError.
Proof.
  destruct rows as [|r rows]; [done|]. unfold to_tensors.
  destruct (np_stack_pairs (e_obs <$> r :: rows)) as [o|e1] eqn:Ho; cbn [rbind];
    [|intros [= <-]; by eapply np_stack_pairs_raises].
  destruct (np_stack_pairs (e_obs2 <$> r :: rows)) as [o2|e2] eqn:Ho2; cbn [rbind];
    [|intros [= <-]; by eapply np_stack_pairs_raises].
  destruct (np_stack (e_act <$> r :: rows)) as [a|e3] eqn:Ha; cbn [rbind]; [done|].
  intros [= <-]. by eapply np_stack_raises.
Qed.

(** X2. With a generator that behaves ([draw] holds as many distinct
    positions as asked for), [sample_batch] leaves the deque alone, raises
    nothing but the [ValueError] of stacking rows of different shapes, and
    a batch it returns has min(batch_size, len) rows: row [k] is the entry
    at the [k]-th drawn position, its [done] flag turned into a number. *)
Theorem sample_batch_rows draw b :
  is_choice (len b) (Z.min (batch_size b) (Z.of_nat (len b))) draw →
  let out := sample_batch draw b in
  buffer out.2 = buffer b ∧
  (∀ e, out.1 = Raise e → e = ValueError) ∧
  (∀ bt, out.1 = Ok (Data bt) →
     has_rows (Z.to_nat (Z.min (batch_size b) (Z.of_nat (len b)))) bt ∧
     ∃ rows,
       Forall2 (λ i e, items (buffer b) !! i = Some e) draw rows ∧
       bt = Batch (e_obs <$> rows) (e_obs2 <$> rows) (e_act <$> rows)
              (e_rew <$> rows) ((λ e, float_of_bool (e_done e)) <$> rows)).
Proof.
  intros Hdraw out. pose proof Hdraw as (Hlen & _ & Hlt).
  assert (Hout : ∃ rows, gather (items (buffer b)) draw = Ok rows ∧
                         length rows = length draw ∧
                         out = (to_tensors rows,
                                set_weights (replicate (length draw) f0) b)).
  { destruct (gather_ok (items (buffer b)) draw Hlt) as (rows & Hrows & Hl).
    exists rows. split_and!; [done..|].
    subst out. unfold sample_batch, bind, get, lift, modify.
    rewrite is_choice_draw by (done || lia). by rewrite Hrows. }
  destruct Hout as (rows & Hrows & Hl & ->). cbn [fst snd].
  split_and!; [done|apply to_tensors_raises|].
  intros bt Hbt. split.
  - apply to_tensors_rows in Hbt as [Hbt _].
    by rewrite <-Hlen, Nat2Z.id, <-Hl.
  - exists rows. split; [by apply gather_rows|].
    destruct rows as [|r rows]; [done|]. unfold to_tensors in Hbt.
    apply rbind_Ok in Hbt as (c1 & ->%np_stack_pairs_ok & Hbt).
    apply rbind_Ok in Hbt as (c2 & ->%np_stack_pairs_ok & Hbt).
    apply rbind_Ok in Hbt as (c3 & ->%np_stack_ok & Hbt).
    by injection Hbt as <-.
Qed.

(** The record a transition becomes in a batch. *)
Lemma sample_newest b e :
  list.last (items (buffer b)) = Some e →
  length (e_obs e).2 = length (e_obs e).1 →
  length (e_obs2 e).2 = length (e_obs2 e).1 →
  batch_size b = 1%Z →
  sample_batch [len b - 1] b =
    (Ok (Data (Batch [e_obs e] [e_obs2 e] [e_act e] [e_rew e]
                 [float_of_bool (e_done e)])),
     set_weights [f0] b).
Proof.
  intros Hlast Ho Ho2 Hbs.
  assert (Hne : len b ≠ 0).
  { unfold len. by destruct (items (buffer b)). }
  unfold sample_batch, bind, get, lift, modify.
  rewrite is_choice_draw; [|lia|].
  2:{ split_and!; [cbn; lia|apply NoDup_singleton|].
      apply Forall_singleton. lia. }
  cbn [gather]. unfold len.
  replace (length (items (buffer b)) - 1) with (pred (length (items (buffer b))))
    by lia.
  rewrite <-last_lookup, Hlast.
  cbn. rewrite Ho, Ho2, !Nat.eqb_refl. done.
Qed.

(** X3. What is stored is what is sampled: after [store] of a transition
    whose observation pairs can be stacked, in a buffer of capacity at least one
    and batch size one, drawing the newest position returns the
    one-row batch of that transition (tensors as arrays, the action's
    [.action], [done] as a number) and sets the weights to one zero. *)
Theorem store_then_sample_newest d b :
  maxlen (buffer b) ≠ 0 → len b ≤ maxlen (buffer b) →
  batch_size b = 1%Z →
  length (to_numpy (t_obs d).2) = length (to_numpy (t_obs d).1) →
  length (to_numpy (t_next_obs d).2) = length (to_numpy (t_next_obs d).1) →
  let b' := (store (VDict d) b).2 in
  sample_batch [len b' - 1] b' =
    (Ok (Data (Batch [convert (t_obs d)] [convert (t_next_obs d)]
                 [action (t_act d)] [t_rew d] [float_of_bool (t_done d)])),
     set_weights [f0] b').
Proof.
  intros Hcap Hinv Hbs Ho Ho2 b'.
  apply (sample_newest b' (currdict d)); [|done..].
  subst b'. rewrite (store_recent _ b (items (buffer b)))
    by (by rewrite most_recent_all).
  by apply most_recent_last.
Qed.




End BufferMore.

(** ** The update, whatever its outcome *)

Section UpdateMore.
Context {F Noise Observation : Type}.
Context `{!Arith F, !ActorCritic F Noise Observation, !Torch F Noise,
          !Env F Observation}.
Import SimpleReplayBuffer SACAgent.
Implicit Types (s : state) (ps ts : list (param F)) (d : data F).

#[local] Arguments step : simpl never.
#[local] Arguments for_each : simpl never.
#[local] Arguments shape : simpl never.
#[local] Arguments backward : simpl never.
#[local] Arguments zero_grad : simpl never.
#[local] Arguments compute_loss_q : simpl never.
#[local] Arguments compute_loss_pi : simpl never.

(** The loss reads the data of the parameters, not their gradients. *)
Lemma compute_loss_q_data s ps d eps :
  p_data <$> ps = p_data <$> actor_critic s →
  compute_loss_q (set_actor_critic ps s) d eps = compute_loss_q s d eps.
Proof. intros Hps. unfold compute_loss_q. cbn. by rewrite Hps. Qed.

Lemma gradient_step_q_raises d eps s e :
  compute_loss_q s d eps = Raise e →
  gradient_step_q d eps s =
    (Raise e, set_actor_critic (zero_grad (q_optimizer s) (actor_critic s)) s).
Proof.
  intros Hl. unfold gradient_step_q, bind, get, lift, modify. cbn.
  by rewrite compute_loss_q_data, Hl by apply zero_grad_data.
Qed.

Lemma update_raises d eps_q eps_pi s e :
  compute_loss_q s d eps_q = Raise e →
  update d eps_q eps_pi s =
    (Raise e, set_actor_critic (zero_grad (q_optimizer s) (actor_critic s)) s).
Proof.
  intros Hl. unfold update.
  by rewrite (bind_raise _ _ _ _ _ (gradient_step_q_raises d eps_q s e Hl)).
Qed.

(** X4. When the Q-loss of the batch cannot be computed, [update] raises
    what [compute_loss_q] raises and has done nothing but clear the
    gradients of the Q-optimizer's parameters: no parameter's data or
    flag, no parameter outside that group, neither the target module nor
    an optimizer has changed. *)
Theorem update_fails_early d eps_q eps_pi s e :
  compute_loss_q s d eps_q = Raise e →
  let out := update d eps_q eps_pi s in
  out = (Raise e,
         set_actor_critic (zero_grad (q_optimizer s) (actor_critic s)) s) ∧
  p_data <$> actor_critic out.2 = p_data <$> actor_critic s ∧
  requires_grad <$> actor_critic out.2 = requires_grad <$> actor_critic s ∧
  (∀ j, j ∉ param_group (q_optimizer s) →
        actor_critic out.2 !! j = actor_critic s !! j) ∧
  actor_critic_target out.2 = actor_critic_target s ∧
  q_optimizer out.2 = q_optimizer s ∧ pi_optimizer out.2 = pi_optimizer s.
Proof.
  intros Hl out. subst out. rewrite (update_raises d eps_q eps_pi s e Hl).
  cbn [fst snd actor_critic set_actor_critic actor_critic_target q_optimizer
       pi_optimizer].
  split_and!; try done.
  - apply zero_grad_data.
  - apply zero_grad_requires_grad.
  - intros j Hj. by apply zero_grad_outside.
Qed.

(** X5. A sample that asks for no row (an empty buffer, or a batch size of
    zero) returns the empty dict and sets the weights to the empty list;
    [update] on that dict raises [KeyError] and leaves the data of every
    parameter and the target module as they were. *)
Theorem update_after_empty_sample s draw eps_q eps_pi :
  let b := replay_buffer s in
  Z.min (batch_size b) (Z.of_nat (len b)) = 0%Z →
  is_choice (len b) 0 draw →
  sample_batch draw b = (Ok EmptyDict, set_weights [] b) ∧
  let out := update EmptyDict eps_q eps_pi (set_replay_buffer (set_weights [] b) s) in
  out.1 = Raise KeyError ∧
  p_data <$> actor_critic out.2 = p_data <$> actor_critic s ∧
  actor_critic_target out.2 = actor_critic_target s.
Proof.
  intros b Hmin Hdraw. split.
  - assert (draw = []) as ->.
    { destruct Hdraw as (Hlen & _). by destruct draw. }
    unfold sample_batch, bind, get, lift, modify.
    fold b. rewrite Hmin. unfold np_random_choice. cbn.
    rewrite andb_false_r.
    by destruct (Z.ltb_spec (Z.of_nat (len b)) 0); [lia|].
  - intros out. subst out.
    rewrite (update_raises EmptyDict eps_q eps_pi _ KeyError) by done.
    cbn. split_and!; [done| |done]. apply zero_grad_data.
Qed.

Lemma broadcast2_mismatch (f : F → F → F) (x y : list F) :
  length x ≠ length y → length x ≠ 1 → length y ≠ 1 →
  broadcast2 f x y = Raise RuntimeError.
Proof.
  intros Hxy Hx Hy. unfold broadcast2.
  destruct (Nat.eqb_spec (length x) (length y)); [done|].
  destruct x as [|a [|a' x]]; [|done|]; by destruct y as [|b [|b' y]].
Qed.

(** X6. How [compute_loss_q] fails: on the empty dict with [KeyError]; on
    a batch whose observation and action columns differ in length with
    [RuntimeError]; on a batch of [n] rows with [AttributeError] when the
    buffer's weights were never assigned (no [sample_batch] has got to
    them yet), and with [RuntimeError] when they were assigned for a batch
    of another size (neither size being one, which broadcasts). *)
Theorem compute_loss_q_errors s eps :
  compute_loss_q s EmptyDict eps = Raise KeyError ∧
  (∀ bt, length (b_obs bt) ≠ length (b_act bt) →
         compute_loss_q s (Data bt) eps = Raise RuntimeError) ∧
  (∀ bt n, has_rows n bt → weights (replay_buffer s) = None →
           compute_loss_q s (Data bt) eps = Raise AttributeError) ∧
  (∀ bt n w, has_rows n bt → weights (replay_buffer s) = Some w →
             length w ≠ n → length w ≠ 1 → n ≠ 1 →
             compute_loss_q s (Data bt) eps = Raise RuntimeError).
Proof.
  split_and!; [done|..].
  - intros bt Hoa. unfold compute_loss_q, forward_q.
    by destruct (Nat.eqb_spec (length (b_obs bt)) (length (b_act bt))).
  - intros bt n (Ho & Ho2 & Ha & Hr & Hd) Hw.
    unfold compute_loss_q, getattr_weights.
    destruct (forward_pi _ (b_obs2 bt) eps) as [a2 logp_a2] eqn:Hpi.
    unfold forward_pi in Hpi. injection Hpi as <- <-.
    rewrite !forward_q_same by len. cbn [rbind].
    rewrite (broadcast2_same fmin) by len. cbn [rbind].
    rewrite (broadcast2_same fsub) by len. cbn [rbind].
    rewrite (broadcast2_same fmul) by len. cbn [rbind].
    rewrite (broadcast2_same fadd) by len. cbn [rbind].
    by rewrite Hw.
  - intros bt n w (Ho & Ho2 & Ha & Hr & Hd) Hw Hn Hw1 Hn1.
    unfold compute_loss_q, getattr_weights.
    destruct (forward_pi _ (b_obs2 bt) eps) as [a2 logp_a2] eqn:Hpi.
    unfold forward_pi in Hpi. injection Hpi as <- <-.
    rewrite !forward_q_same by len. cbn [rbind].
    rewrite (broadcast2_same fmin) by len. cbn [rbind].
    rewrite (broadcast2_same fsub) by len. cbn [rbind].
    rewrite (broadcast2_same fmul) by len. cbn [rbind].
    rewrite (broadcast2_same fadd) by len. cbn [rbind].
    rewrite Hw. cbn [rbind].
    rewrite (broadcast2_same fsub) by len. cbn [rbind].
    by rewrite (broadcast2_mismatch fmul) by (unfold pow2; len).
Qed.

(** *** The flags of the Q-parameters *)

Lemma set_flags_lookup x group l j :
  set_flags x group l !! j =
    if decide (j ∈ group) then (λ _, x) <$> l !! j else l !! j.
Proof.
  revert l. induction group as [|i group IH]; intros l; [done|].
  change (set_flags x (i :: group) l)
    with (set_flags x group (alter (λ _, x) i l)).
  rewrite IH. destruct (decide (i = j)) as [->|Hij].
  - rewrite list_lookup_alter_eq.
    rewrite (decide_True (P := j ∈ j :: group)) by left.
    destruct (decide (j ∈ group)); by destruct (l !! j).
  - rewrite list_lookup_alter_ne by done.
    destruct (decide (j ∈ group)) as [Hin|Hout].
    + by rewrite decide_True by by right.
    + rewrite decide_False; [done|]. by intros [?|?]%elem_of_cons.
Qed.

Lemma for_each_flags x group ps :
  requires_grad <$> for_each (λ _, set_requires_grad x) group ps =
    set_flags x group (requires_grad <$> ps).
Proof.
  revert ps. induction group as [|i group IH]; intros ps; [done|].
  rewrite for_each_cons, IH.
  change (set_flags x (i :: group) (requires_grad <$> ps))
    with (set_flags x group (alter (λ _, x) i (requires_grad <$> ps))).
  f_equal. apply list_eq; intros j. rewrite list_lookup_fmap.
  destruct (decide (i = j)) as [->|Hij].
  - rewrite !list_lookup_alter_eq, list_lookup_fmap. by destruct (ps !! j).
  - by rewrite !list_lookup_alter_ne, list_lookup_fmap.
Qed.

(** Freezing then unfreezing gives back flags that were all set. *)
Lemma set_flags_restore group l :
  (∀ j, j ∈ group → l !! j = Some false → False) →
  set_flags true group (set_flags false group l) = l.
Proof.
  intros Hl. apply list_eq; intros j. rewrite !set_flags_lookup.
  destruct (decide (j ∈ group)) as [Hin|]; [|done].
  specialize (Hl j Hin). by destruct (l !! j) as [[]|].
Qed.

Lemma update_flags d eps_q eps_pi s :
  requires_grad <$> actor_critic (after_unfreeze d eps_q eps_pi s) =
    set_flags true (q_params s)
      (set_flags false (q_params s) (requires_grad <$> actor_critic s)).
Proof.
  destruct (phases_frame d eps_q eps_pi s) as ((Hq1 & Hq3 & _) & _).
  cbn zeta in Hq1, Hq3.
  unfold after_unfreeze. rewrite set_q_requires_grad_run. cbn [snd actor_critic
    set_actor_critic]. rewrite for_each_flags, Hq3.
  destruct (gradient_step_pi_state d eps_pi (after_freeze d eps_q s))
    as (ps3 & o3 & E3 & Hf3 & _).
  unfold after_pi_step. rewrite E3. cbn [actor_critic set_actor_critic
    set_pi_optimizer]. rewrite Hf3.
  unfold after_freeze. rewrite set_q_requires_grad_run. cbn [snd actor_critic
    set_actor_critic]. rewrite for_each_flags, Hq1.
  destruct (gradient_step_q_state d eps_q s) as (ps1 & o1 & E1 & Hf1 & _).
  unfold after_q_step. rewrite E1. cbn [actor_critic set_actor_critic
    set_q_optimizer]. by rewrite Hf1.
Qed.

(** *** An update that gets past the Q-loss *)

Lemma gradient_step_q_runs d eps s l :
  compute_loss_q s d eps = Ok l → (gradient_step_q d eps s).1 = Ok tt.
Proof.
  intros Hl. unfold gradient_step_q, bind, get, lift, modify. cbn.
  by rewrite compute_loss_q_data, Hl by apply zero_grad_data.
Qed.

Lemma update_runs d eps_q eps_pi s l :
  compute_loss_q s d eps_q = Ok l →
  update d eps_q eps_pi s = update_targets (after_unfreeze d eps_q eps_pi s).
Proof.
  intros Hl. destruct d as [|bt]; [done|].
  pose proof (gradient_step_q_runs _ eps_q s l Hl) as R1.
  pose proof (gradient_step_pi_returns bt eps_pi
                (after_freeze (Data bt) eps_q s)) as R3.
  unfold update.
  rewrite (bind_run _ _ s (after_q_step (Data bt) eps_q s) tt)
    by (unfold after_q_step; destruct (gradient_step_q _ _ s) as [[[]|] ?];
        cbn in R1; by simplify_eq).
  rewrite (bind_run _ _ _ (after_freeze (Data bt) eps_q s) tt) by done.
  rewrite (bind_run _ _ _ (after_pi_step (Data bt) eps_q eps_pi s) tt)
    by (unfold after_pi_step;
        destruct (gradient_step_pi _ _ (after_freeze _ _ s)) as [[[]|] ?];
        cbn in R3; by simplify_eq).
  by rewrite (bind_run _ _ _ (after_unfreeze (Data bt) eps_q eps_pi s) tt).
Qed.

Lemma polyak_mix_shape ρ ps ts :
  shape ps = shape ts →
  shape (zip_with (λ p p_targ, set_data (polyak_mix ρ p p_targ) p_targ) ps ts)
  = shape ts.
Proof.
  revert ts. induction ps as [|p ps IH]; intros [|p_targ ts] Hsh; try done.
  injection Hsh as Hp Hsh. cbn [zip_with]. unfold shape. cbn [fmap list_fmap].
  f_equal; [|by apply IH]. unfold polyak_mix. cbn. len.
Qed.

(** X7. One invariant of [update], kept whether it returns or raises:
    with optimizers that update in place, a target module of the shapes
    of the online one and all the Q-parameters requiring a gradient, the
    call leaves the shapes of both modules and every [requires_grad] flag
    as they were, and [q_params], [cfg], [t], the [deterministic] flag
    and the replay buffer untouched; and it returns exactly when the
    Q-loss of the batch can be computed. *)
Theorem update_invariant d eps_q eps_pi s :
  in_place → shape (actor_critic s) = shape (actor_critic_target s) →
  (∀ j p, j ∈ q_params s → actor_critic s !! j = Some p →
          requires_grad p = true) →
  let out := update d eps_q eps_pi s in
  (out.1 = Ok tt ↔ ∃ l, compute_loss_q s d eps_q = Ok l) ∧
  shape (actor_critic out.2) = shape (actor_critic s) ∧
  shape (actor_critic_target out.2) = shape (actor_critic_target s) ∧
  requires_grad <$> actor_critic out.2 = requires_grad <$> actor_critic s ∧
  q_params out.2 = q_params s ∧ cfg out.2 = cfg s ∧ t out.2 = t s ∧
  deterministic out.2 = deterministic s ∧
  replay_buffer out.2 = replay_buffer s.
Proof.
  intros Hin Hsh Hflags out.
  assert (Hframe : q_params out.2 = q_params s ∧ cfg out.2 = cfg s ∧
                   t out.2 = t s ∧ deterministic out.2 = deterministic s ∧
                   replay_buffer out.2 = replay_buffer s).
  { subst out. by rewrite (update_keeps q_params), (update_keeps cfg),
      (update_keeps t), (update_keeps deterministic),
      (update_keeps replay_buffer). }
  destruct Hframe as (? & ? & ? & ? & ?).
  split_and!; try done; subst out.
  all: destruct (compute_loss_q s d eps_q) as [l|e] eqn:Hl.
  all: try rewrite (update_raises d eps_q eps_pi s e Hl).
  all: try rewrite (update_runs d eps_q eps_pi s l Hl).
  all: try (destruct (phases_frame d eps_q eps_pi s)
              as ((_ & _ & _ & Htarg & _) & _ & Hsh4);
            specialize (Hsh4 Hin); cbn zeta in Htarg, Hsh4;
            unfold update_targets;
            rewrite Htarg, polyak_average_same_shape by (by rewrite Hsh4)).
  all: cbn [fst snd actor_critic actor_critic_target set_actor_critic
            set_actor_critic_target].
  - split; [by eexists|done].
  - split; [done|]. by intros [l [=]].
  - done.
  - apply shape_data, zero_grad_data.
  - apply polyak_mix_shape. by rewrite Hsh4.
  - done.
  - rewrite update_flags. apply set_flags_restore.
    intros j Hj Hfalse. rewrite list_lookup_fmap in Hfalse.
    destruct (actor_critic s !! j) as [p|] eqn:Hp; [|done].
    injection Hfalse as Hfalse. by rewrite (Hflags j p) in Hfalse.
  - apply zero_grad_requires_grad.
Qed.

End UpdateMore.

(** ** The exploration schedule *)

Section ActMore.
Context {F Noise Observation : Type}.
Context `{!Arith F, !ActorCritic F Noise Observation, !Torch F Noise,
          !Env F Observation}.
Import SACAgent.
Implicit Types (s : state).



End ActMore.

(** ** The vision encoder, when the setup fails and when it succeeds *)

Section EncoderMore.
Context {F Noise Observation : Type}.
Context `{!Arith F, !ActorCritic F Noise Observation, !Torch F Noise,
          !Env F Observation}.
Import SACAgent.
Implicit Types (s : state) (c : encoder_cfg).

Lemma last_item_Some {V} (l : list V) :
  l ≠ [] → ∃ v, list.last l = Some v ∧ last_item l = Ok v.
Proof.
  intros Hl. unfold last_item. destruct (list.last l) as [v|] eqn:Hlast.
  - by exists v.
  - by apply last_None in Hlast.
Qed.

(** X9. With the encoder type ["vae"], [setup_vision_encoder] fails part
    of the way.  Without a ["vae"] section it raises [KeyError], nothing
    assigned.  With the encoder switch on and no [speed_hiddens] it raises
    [IndexError], [feat_dim] already assigned.  When the checkpoint cannot
    be read it raises what [torch.load] raises, and when the checkpoint
    does not fit the VAE it raises [RuntimeError]: in both cases
    [feat_dim] and [obs_dim] are assigned and the agent is left with a
    backbone that is not on the device (for the unread checkpoint: the
    VAE as constructed, with its initial weights). *)
Theorem setup_vision_encoder_failures s :
  use_encoder_type (cfg s) = "vae" →
  (encoders (cfg s) !! "vae" = None →
   setup_vision_encoder s = (Raise KeyError, s)) ∧
  (∀ c, encoders (cfg s) !! "vae" = Some c →
     let s1 := set_feat_dim (latent_dims c + 1) s in
     let od := if encoder_switch (cfg s)
               then (λ h, latent_dims c + h)%Z <$> list.last (speed_hiddens c)
               else None in
     let s2 := set_backbone (Some (fresh_vae c)) (set_obs_dim od s1) in
     (encoder_switch (cfg s) = true → speed_hiddens c = [] →
      setup_vision_encoder s = (Raise IndexError, s1)) ∧
     ((encoder_switch (cfg s) = true → speed_hiddens c ≠ []) →
      (∀ e, torch_load (vae_chkpt_statedict c) = Raise e →
            setup_vision_encoder s = (Raise e, s2)) ∧
      (∀ sd, torch_load (vae_chkpt_statedict c) = Ok sd →
             length <$> sd ≠ length <$> vae_weights (fresh_vae c) →
             let out := setup_vision_encoder s in
             out.1 = Raise RuntimeError ∧
             feat_dim out.2 = (latent_dims c + 1)%Z ∧ obs_dim out.2 = od ∧
             on_device <$> backbone out.2 = Some false))).
Proof.
  intros Hty. split.
  - intros Hc.
    unfold setup_vision_encoder, bind, get, lift, modify, getitem. cbn.
    by rewrite Hty, Hc.
  - intros c Hc s1 od s2. split.
    + intros Hsw Hnil.
      unfold setup_vision_encoder, bind, get, lift, modify, getitem. cbn.
      by rewrite Hty, Hc, Hsw, Hnil.
    + intros Hsw.
      assert (Hod : (if encoder_switch (cfg s)
                     then (h <- last_item (speed_hiddens c) ;;
                           Ok (Some (latent_dims c + h)%Z))%res
                     else Ok None) = Ok od).
      { subst od. destruct (encoder_switch (cfg s)); [|done].
        destruct (last_item_Some (speed_hiddens c)) as (h & -> & ->); auto. }
      split.
      * intros e He.
        unfold setup_vision_encoder, bind, get, lift, modify, getitem. cbn.
        rewrite Hty, Hc. cbn. by rewrite Hod, He.
      * intros sd Hsd Hshape out. subst out.
        unfold setup_vision_encoder, bind, get, lift, modify, getitem. cbn.
        rewrite Hty, Hc. cbn. rewrite Hod, Hsd. cbn.
        unfold load_state_dict. by rewrite bool_decide_eq_false_2.
Qed.

(** X10. When [setup_vision_encoder] returns, [feat_dim] is the latent
    size plus one, [obs_dim] is the latent size plus the last of
    [speed_hiddens] if the encoder switch is on and [None] if not, and
    the three attributes [feat_dim], [obs_dim] and [backbone] are all
    that the call has assigned. *)
Theorem setup_vision_encoder_dims s s' :
  setup_vision_encoder s = (Ok tt, s') →
  ∃ c,
    encoders (cfg s) !! "vae" = Some c ∧
    feat_dim s' = (latent_dims c + 1)%Z ∧
    obs_dim s' =
      (if encoder_switch (cfg s)
       then (λ h, latent_dims c + h)%Z <$> list.last (speed_hiddens c)
       else None) ∧
    (encoder_switch (cfg s) = true → speed_hiddens c ≠ []) ∧
    s' = set_backbone (backbone s')
           (set_obs_dim (obs_dim s') (set_feat_dim (feat_dim s') s)).
Proof.
  unfold setup_vision_encoder.
  intros (self & s1 & [= <- <-] & H)%bind_Ok.
  destruct (String.eqb_spec (use_encoder_type (cfg s)) "vae")
    as [Hty|Hty]; [|by apply bind_Ok in H as (? & ? & [=] & _)].
  rewrite Hty in H.
  apply bind_Ok in H as ([] & s1 & [= <-] & H).
  apply bind_Ok in H as (c & s1 & Hc & H).
  unfold lift, getitem in Hc.
  destruct (encoders (cfg s) !! "vae") as [c0|] eqn:Hlook; [|done].
  injection Hc as -> <-.
  apply bind_Ok in H as ([] & s2 & [= <-] & H).
  apply bind_Ok in H as (od & s3 & Hod & H).
  injection Hod as Hod <-.
  apply bind_Ok in H as ([] & s4 & [= <-] & H).
  apply bind_Ok in H as ([] & s5 & H5 & H).
  apply bind_Ok in H5 as (c' & s6 & Hc' & H5).
  unfold lift, getitem in Hc'. cbn in Hc'. rewrite Hlook in Hc'.
  injection Hc' as <- <-.
  apply bind_Ok in H5 as ([] & s7 & [= <-] & H5).
  apply bind_Ok in H5 as (sd & s8 & Hsd & H5).
  injection Hsd as Hsd <-.
  apply bind_Ok in H5 as (v' & s9 & Hv' & H5).
  injection Hv' as Hv' <-. injection H5 as <-.
  apply bind_Ok in H as (self' & s10 & [= <- <-] & H). cbn in H.
  injection H as <-. exists c. cbn.
  assert (od = (if encoder_switch (cfg s)
                then (λ h, latent_dims c + h)%Z <$> list.last (speed_hiddens c)
                else None) ∧
          (encoder_switch (cfg s) = true → speed_hiddens c ≠ [])) as [-> ?].
  { destruct (encoder_switch (cfg s)); [|by injection Hod as <-].
    unfold last_item in Hod.
    destruct (list.last (speed_hiddens c)) as [h|] eqn:Hl; [|done].
    injection Hod as <-. split; [done|]. intros _ Hnil. by rewrite Hnil in Hl. }
  done.
Qed.

End EncoderMore.

(** ** Checkpoints *)

Section FileFacts.
Context {F Noise Observation Camera Kinematics : Type}.
Context `{!Arith F, !ActorCritic F Noise Observation, !Torch F Noise,
          !Env F Observation, !Construct F Observation}.
Import SACAgent Bookkeeping.
Implicit Types (s : state Camera Kinematics) (ps : list (param F)).
Implicit Types (sd : list (list F)) (path : string).

#[local] Arguments state_dict : simpl never.
#[local] Arguments shape : simpl never.

Lemma shape_state_dict ps : length <$> state_dict ps = shape ps.
Proof. unfold state_dict, shape. by rewrite <-list_fmap_compose. Qed.

(** Copying a state dict changes data only, and never a shape. *)
Lemma copy_preserves {A} (π : param F → A) sd ps :
  (∀ x p, π (set_data x p) = π p) →
  π <$> imap (copy_ sd) ps = π <$> ps.
Proof.
  intros Hπ. apply list_eq; intros i.
  rewrite !list_lookup_fmap, list_lookup_imap.
  destruct (ps !! i) as [p|]; cbn; [|done]. f_equal. unfold copy_.
  destruct (sd !! i) as [x|]; [|done].
  by destruct (length x =? length (p_data p)).
Qed.

Lemma copy_shape sd ps : shape (imap (copy_ sd) ps) = shape ps.
Proof.
  unfold shape. apply list_eq; intros i.
  rewrite !list_lookup_fmap, list_lookup_imap.
  destruct (ps !! i) as [p|]; cbn; [|done]. f_equal. unfold copy_.
  destruct (sd !! i) as [x|]; [|done].
  by destruct (Nat.eqb_spec (length x) (length (p_data p))).
Qed.

(** A tensor of the shape of its parameter is copied, whatever the
    others are. *)
Lemma copy_lookup sd ps i x p :
  sd !! i = Some x → ps !! i = Some p → length x = length (p_data p) →
  p_data <$> imap (copy_ sd) ps !! i = Some x.
Proof.
  intros Hx Hp Hlen. rewrite list_lookup_imap, Hp. cbn. unfold copy_.
  by rewrite Hx, Hlen, Nat.eqb_refl.
Qed.

Lemma copy_data sd ps :
  length <$> sd = shape ps → p_data <$> imap (copy_ sd) ps = sd.
Proof.
  intros Hsh. apply list_eq; intros i.
  apply (f_equal (.!! i)) in Hsh. unfold shape in Hsh.
  rewrite !list_lookup_fmap in Hsh. rewrite list_lookup_fmap.
  destruct (ps !! i) as [p|] eqn:Hp, (sd !! i) as [x|] eqn:Hx; try done.
  - injection Hsh as Hlen. by apply (copy_lookup sd ps i x p).
  - by rewrite list_lookup_imap, Hp.
Qed.

Lemma load_model_run path s sd :
  torch_load_now path s = (Ok sd, s) →
  load_model path s =
    ((module_load_state_dict sd (actor_critic (agent s))).1,
     set_agent (set_actor_critic (imap (copy_ sd) (actor_critic (agent s)))
                  (agent s)) s).
Proof. intros Hsd. unfold load_model. by rewrite (bind_run _ _ _ _ _ Hsd). Qed.

(** X11. What [save_model] writes, [load_model] reads back: when the
    write is accepted, a later [load_model] of the same path, the file
    not having been written again, into a module of the same shapes
    returns and gives every parameter the data it had when it was saved.
    It changes neither a [requires_grad] flag nor a gradient, and it does
    not touch the target module. *)
Theorem save_then_load_model path s0 :
  save_error s0 path = None →
  let s1 := (save_model path s0).2 in
  (save_model path s0).1 = Ok tt ∧ agent s1 = agent s0 ∧
  ∀ s,
    files s !! path = files s1 !! path →
    shape (actor_critic (agent s)) = shape (actor_critic (agent s0)) →
    let out := load_model path s in
    out.1 = Ok tt ∧
    p_data <$> actor_critic (agent out.2) =
      p_data <$> actor_critic (agent s0) ∧
    requires_grad <$> actor_critic (agent out.2) =
      requires_grad <$> actor_critic (agent s) ∧
    grad <$> actor_critic (agent out.2) = grad <$> actor_critic (agent s) ∧
    actor_critic_target (agent out.2) = actor_critic_target (agent s) ∧
    files out.2 = files s.
Proof.
  intros Hw s1.
  assert (Hs1 : save_model path s0 =
            (Ok tt, set_files (<[path := state_dict (actor_critic (agent s0))]>
                                 (files s0)) s0)).
  { unfold save_model, torch_save, bind, get, modify. by rewrite Hw. }
  subst s1. rewrite Hs1. cbn [fst snd]. split_and!; [done..|].
  intros s Hfile Hsh. cbn in Hfile. rewrite lookup_insert_eq in Hfile.
  rewrite (load_model_run path s (state_dict (actor_critic (agent s0))))
    by (unfold torch_load_now, bind, get, lift; by rewrite Hfile).
  unfold module_load_state_dict. cbn.
  rewrite bool_decide_eq_true_2 by (by rewrite shape_state_dict).
  split_and!; try done.
  - apply (copy_data (state_dict (actor_critic (agent s0)))).
    by rewrite shape_state_dict.
  - by apply copy_preserves.
  - by apply copy_preserves.
Qed.

(** X12. How [load_model] fails.  When the path was never written and
    [torch.load] raises, [load_model] raises the same and the agent is as
    before.  When the file does not fit the module (a tensor missing, one
    too many or one of another shape) it raises [RuntimeError] after the
    copy: every tensor that does fit its parameter has replaced it.  In
    any case the shapes, the flags and the gradients of the parameters
    and the target module are as before. *)
Theorem load_model_failures path s :
  let out := load_model path s in
  (∀ e, files s !! path = None → torch_load path = Raise e →
        out = (Raise e, s)) ∧
  (∀ sd, torch_load_now path s = (Ok sd, s) →
         length <$> sd ≠ shape (actor_critic (agent s)) →
         out.1 = Raise RuntimeError ∧
         ∀ i x p, sd !! i = Some x → actor_critic (agent s) !! i = Some p →
                  length x = length (p_data p) →
                  p_data <$> actor_critic (agent out.2) !! i = Some x) ∧
  shape (actor_critic (agent out.2)) = shape (actor_critic (agent s)) ∧
  requires_grad <$> actor_critic (agent out.2) =
    requires_grad <$> actor_critic (agent s) ∧
  grad <$> actor_critic (agent out.2) = grad <$> actor_critic (agent s) ∧
  actor_critic_target (agent out.2) = actor_critic_target (agent s).
Proof.
  intros out.
  assert (Hcases : (∃ e, torch_load_now path s = (Raise e, s)) ∨
                   (∃ sd, torch_load_now path s = (Ok sd, s))).
  { unfold torch_load_now, bind, get, lift.
    destruct (files s !! path) as [sd|]; [by right; eexists|].
    destruct (torch_load path) as [sd|e]; [right|left]; by eexists. }
  split_and!.
  - intros e Hnone He. subst out. unfold load_model.
    rewrite (bind_raise _ _ s s e); [done|].
    unfold torch_load_now, bind, get, lift. by rewrite Hnone, He.
  - intros sd Hsd Hsh. subst out. rewrite (load_model_run path s sd Hsd).
    unfold module_load_state_dict. cbn.
    rewrite bool_decide_eq_false_2 by done. split; [done|].
    intros i x p. apply copy_lookup.
  - destruct Hcases as [[e He]|[sd Hsd]]; subst out.
    + unfold load_model. by rewrite (bind_raise _ _ s s e He).
    + rewrite (load_model_run path s sd Hsd). apply copy_shape.
  - destruct Hcases as [[e He]|[sd Hsd]]; subst out.
    + unfold load_model. by rewrite (bind_raise _ _ s s e He).
    + rewrite (load_model_run path s sd Hsd). by apply copy_preserves.
  - destruct Hcases as [[e He]|[sd Hsd]]; subst out.
    + unfold load_model. by rewrite (bind_raise _ _ s s e He).
    + rewrite (load_model_run path s sd Hsd). by apply copy_preserves.
  - destruct Hcases as [[e He]|[sd Hsd]]; subst out.
    + unfold load_model. by rewrite (bind_raise _ _ s s e He).
    + by rewrite (load_model_run path s sd Hsd).
Qed.

End FileFacts.

(** ** The best return and the checkpoints *)

Section CheckpointFacts.
Context {F Noise Observation Camera Kinematics : Type}.
Context `{!Arith F, !ActorCritic F Noise Observation, !Torch F Noise,
          !Env F Observation, !Construct F Observation}.
Import SACAgent Bookkeeping.
Implicit Types (s : state Camera Kinematics) (ep_ret : Qc) (n_eps : Z).

#[local] Arguments state_dict : simpl never.
#[local] Arguments best_path_name : simpl never.
#[local] Arguments periodic_path_name : simpl never.

(** The two saves at one path: the module, then the safety module if there
    is one, whose failure is passed over. *)
Lemma save_both s0 s path :
  save_error s = save_error s0 → safety_actor_critic s = safety_actor_critic s0 →
  let out := (_ <- torch_save (state_dict (actor_critic (agent s0))) path ;;
              save_safety_actor_critic path)%M s in
  match save_error s0 path with
  | Some e => out = (Raise e, s)
  | None =>
      out = (Ok tt,
             set_files (<[path := state_dict
                                    (default (actor_critic (agent s0))
                                       (safety_actor_critic s0))]> (files s))
               s)
  end.
Proof.
  intros He Hs. cbn zeta.
  unfold save_safety_actor_critic, try_except_pass, torch_save, bind, get,
    modify, raise. rewrite He. cbn.
  destruct (save_error s0 path) as [e|] eqn:Hpath; [done|]. cbn.
  rewrite Hs. destruct (safety_actor_critic s0) as [ps|]; cbn; [|done].
  rewrite He, Hpath. cbn. by rewrite insert_insert_eq.
Qed.

Lemma periodic_test (save_freq n_eps : Z) :
  (0 ≤ n_eps)%Z →
  bool_decide (0 < save_freq)%Z
    && bool_decide (n_eps + (1 `mod` save_freq) = 0)%Z =
  bool_decide (n_eps = 0 ∧ save_freq = 1)%Z.
Proof.
  intros Hn. apply eq_true_iff_eq.
  rewrite andb_true_iff, !bool_decide_eq_true. split.
  - intros [Hpos Hmod]. destruct (decide (save_freq = 1)%Z) as [->|].
    + change (1 `mod` 1)%Z with 0%Z in Hmod. lia.
    + rewrite Z.mod_small in Hmod by lia. lia.
  - by intros [-> ->].
Qed.

(** The three ways through [checkpoint_model]. *)
Lemma checkpoint_model_run ep_ret n_eps s :
  checkpoint_model ep_ret n_eps s =
    if bool_decide (best_ret s < ep_ret)%Qc
    then save_at (best_path_name (settings s) n_eps) s
           (set_best_ret ep_ret
              (set_file_logger
                 (file_logger s ++
                  [NewBest ep_ret (best_path_name (settings s) n_eps)]) s))
    else if bool_decide (0 < save_freq (settings s))%Z
            && bool_decide (n_eps + (1 `mod` save_freq (settings s)) = 0)%Z
    then save_at (periodic_path_name (settings s) n_eps) s
           (set_file_logger
              (file_logger s ++
               [PeriodicSave (save_freq (settings s))
                  (periodic_path_name (settings s) n_eps)]) s)
    else (Ok tt, s).
Proof.
  unfold checkpoint_model, save_at, bind, get, file_log, modify.
  by repeat case_match.
Qed.

(** X13. A new best return: [checkpoint_model] logs the line, takes the
    return as [best_ret] and writes the checkpoint, in that order, so
    that when the write fails the call raises with [best_ret] already
    raised and no file written.  When the write is accepted the call
    returns, whatever happens to the second write, and the file holds the
    state dict of the safety actor-critic if the agent has one (both are
    written to one path) and of [actor_critic] if not.  The agent's
    modules are not touched. *)
Theorem checkpoint_model_best ep_ret n_eps s :
  (best_ret s < ep_ret)%Qc →
  let path_name := best_path_name (settings s) n_eps in
  let out := checkpoint_model ep_ret n_eps s in
  best_ret out.2 = ep_ret ∧
  file_logger out.2 = file_logger s ++ [NewBest ep_ret path_name] ∧
  agent out.2 = agent s ∧
  match save_error s path_name with
  | Some e => out.1 = Raise e ∧ files out.2 = files s
  | None =>
      out.1 = Ok tt ∧
      files out.2 =
        <[path_name := state_dict (default (actor_critic (agent s))
                                     (safety_actor_critic s))]> (files s)
  end.
Proof.
  intros Hbest path_name out. subst out.
  rewrite checkpoint_model_run, bool_decide_eq_true_2 by done.
  fold path_name. set (s2 := set_best_ret _ _).
  pose proof (save_both s s2 path_name eq_refl eq_refl) as Hsave.
  cbn zeta in Hsave. fold (save_at path_name s) in Hsave.
  destruct (save_error s path_name) as [e|]; rewrite Hsave; done.
Qed.

(** X14. Not a new best: the periodic save.  For an episode number that
    is not negative the test [n_eps + 1 % save_freq == 0] holds only for
    episode 0 with a [save_freq] of 1; in every other case
    [checkpoint_model] does nothing at all.  In that one case it logs the
    line and writes the checkpoint as for a best return, [best_ret]
    staying. *)
Theorem checkpoint_model_periodic ep_ret n_eps s :
  (ep_ret ≤ best_ret s)%Qc → (0 ≤ n_eps)%Z →
  let path_name := periodic_path_name (settings s) n_eps in
  let out := checkpoint_model ep_ret n_eps s in
  (n_eps ≠ 0%Z ∨ save_freq (settings s) ≠ 1%Z → out = (Ok tt, s)) ∧
  (n_eps = 0%Z → save_freq (settings s) = 1%Z →
   best_ret out.2 = best_ret s ∧
   file_logger out.2 = file_logger s ++ [PeriodicSave 1 path_name] ∧
   agent out.2 = agent s ∧
   match save_error s path_name with
   | Some e => out.1 = Raise e ∧ files out.2 = files s
   | None =>
       out.1 = Ok tt ∧
       files out.2 =
         <[path_name := state_dict (default (actor_critic (agent s))
                                      (safety_actor_critic s))]> (files s)
   end).
Proof.
  intros Hle Hn path_name out. subst out.
  rewrite checkpoint_model_run.
  rewrite bool_decide_eq_false_2 by by apply Qcle_not_lt.
  rewrite periodic_test by done. split.
  - intros Hno. rewrite bool_decide_eq_false_2; [done|]. intros [? ?].
    by destruct Hno.
  - intros Hn0 Hfreq. rewrite bool_decide_eq_true_2 by done.
    fold path_name. rewrite Hfreq. set (s2 := set_file_logger _ _).
    pose proof (save_both s s2 path_name eq_refl eq_refl) as Hsave.
    cbn zeta in Hsave. fold (save_at path_name s) in Hsave.
    destruct (save_error s path_name) as [e|]; rewrite Hsave; done.
Qed.

Lemma checkpoint_model_keeps ep_ret n_eps s :
  let s' := (checkpoint_model ep_ret n_eps s).2 in
  best_ret s' = Qc_max (best_ret s) ep_ret ∧ agent s' = agent s ∧
  ∃ lines, file_logger s' = file_logger s ++ lines.
Proof.
  cbn zeta. unfold Qc_max. rewrite checkpoint_model_run.
  destruct (decide (best_ret s < ep_ret)%Qc) as [Hbest|Hle].
  - rewrite bool_decide_eq_true_2 by done. set (s2 := set_best_ret _ _).
    pose proof (save_both s s2 (best_path_name (settings s) n_eps)
                  eq_refl eq_refl) as Hsave.
    cbn zeta in Hsave. fold (save_at (best_path_name (settings s) n_eps) s)
      in Hsave.
    destruct (save_error s _) as [e|]; rewrite Hsave; cbn;
      split_and!; try done; by eexists.
  - rewrite bool_decide_eq_false_2 by done.
    destruct (_ && _).
    + set (s2 := set_file_logger _ _).
      pose proof (save_both s s2 (periodic_path_name (settings s) n_eps)
                    eq_refl eq_refl) as Hsave.
      cbn zeta in Hsave.
      fold (save_at (periodic_path_name (settings s) n_eps) s) in Hsave.
      destruct (save_error s _) as [e|]; rewrite Hsave; cbn;
        split_and!; try done; by eexists.
    + cbn. split_and!; try done. exists []. by rewrite app_nil_r.
Qed.

(** X15. Over any run of [checkpoint_model] calls, saves failing or not,
    [best_ret] is the largest of its first value and the returns seen so
    far, the lines of the file logger are only added to, and the modules
    of the agent stay as they are. *)
Theorem best_ret_running_max s episodes :
  let s' := checkpoints s episodes in
  best_ret s' = foldl Qc_max (best_ret s) episodes.*1 ∧
  agent s' = agent s ∧
  ∃ lines, file_logger s' = file_logger s ++ lines.
Proof.
  revert s. induction episodes as [|[ep_ret n_eps] episodes IH]; intros s.
  { cbn. split_and!; try done. exists []. by rewrite app_nil_r. }
  destruct (checkpoint_model_keeps ep_ret n_eps s)
    as (Hbest & Hagent & lines1 & Hlines1).
  destruct (IH (checkpoint_model ep_ret n_eps s).2)
    as (IHbest & IHagent & lines2 & IHlines).
  cbn zeta in *. cbn [checkpoints foldl fmap list_fmap fst].
  fold (checkpoints (checkpoint_model ep_ret n_eps s).2 episodes).
  rewrite IHbest, IHagent, IHlines, Hbest, Hagent, Hlines1.
  split_and!; try done. exists (lines1 ++ lines2). by rewrite (assoc_L (++)).
Qed.

End CheckpointFacts.

(** ** The best completion and the scheduler *)

Section SchedulerFacts.
Context {F Noise Observation Camera Kinematics : Type}.
Context `{!Arith F, !ActorCritic F Noise Observation, !Torch F Noise,
          !Env F Observation, !Construct F Observation}.
Import SACAgent Bookkeeping.
Implicit Types (s : state Camera Kinematics) (info : info_dict).
Implicit Types (best pct cutoff : Qc).

#[local] Arguments metric : simpl never.

Lemma metric_raises info k e : metric info k = Raise e → e = KeyError.
Proof.
  unfold metric, getitem, rbind.
  repeat case_match; simplify_eq; by intros [= <-].
Qed.

(** The number of steps the loop over the cutoffs asks for. *)
Lemma crossed_cutoffs best pct :
  crossed best pct =
    (if bool_decide (best < Qc_of_Z 93)%Qc && bool_decide (Qc_of_Z 93 ≤ pct)%Qc
     then 1 else 0) +
    (if bool_decide (best < Qc_of_Z 100)%Qc
        && bool_decide (Qc_of_Z 100 ≤ pct)%Qc
     then 1 else 0).
Proof.
  unfold crossed, cutoffs. rewrite !filter_cons, filter_nil.
  repeat case_bool_decide; repeat case_decide; cbn; try done; tauto.
Qed.

Lemma update_best_pct_complete_run info s pct :
  metric info "pct_complete" = Ok pct →
  update_best_pct_complete info s =
    if bool_decide (best_pct s < pct)%Qc
    then match pi_scheduler s with
         | Some n =>
             (Ok tt,
              set_best_pct pct
                (set_pi_scheduler (Some (crossed (best_pct s) pct + n)) s))
         | None =>
             if crossed (best_pct s) pct =? 0
             then (Ok tt, set_best_pct pct s)
             else (Raise AttributeError, s)
         end
    else (Ok tt, s).
Proof.
  intros Hpct. rewrite crossed_cutoffs.
  unfold update_best_pct_complete, cutoffs, for_in, pi_scheduler_step, bind,
    get, lift, modify, ret, raise.
  rewrite Hpct. case_bool_decide; [|done].
  destruct s as [a c se en br at_ sf [n|] ts bp md ad sa rc fl tl fs er]; cbn.
  - by repeat (case_bool_decide; cbn).
  - by repeat (case_bool_decide; cbn).
Qed.

(** X16. One call of [update_best_pct_complete].  Without the metric it
    raises [KeyError]; a completion that is no better changes nothing.
    With a better one and a scheduler, the scheduler is stepped once for
    each of the cutoffs 93 and 100 that the completion reaches and the
    best so far was below, then the completion becomes the best.  With a
    better one and [pi_scheduler] still [None] (as [set_params] leaves
    it), reaching a cutoff raises [AttributeError] and the best
    completion is not recorded. *)
Theorem update_best_pct_complete_step info s :
  let out := update_best_pct_complete info s in
  (∀ e, metric info "pct_complete" = Raise e → out = (Raise KeyError, s)) ∧
  (∀ pct, metric info "pct_complete" = Ok pct →
     ((pct ≤ best_pct s)%Qc → out = (Ok tt, s)) ∧
     ((best_pct s < pct)%Qc →
      (∀ n, pi_scheduler s = Some n →
            out = (Ok tt,
                   set_best_pct pct
                     (set_pi_scheduler
                        (Some (crossed (best_pct s) pct + n)) s))) ∧
      (pi_scheduler s = None → crossed (best_pct s) pct = 0 →
       out = (Ok tt, set_best_pct pct s)) ∧
      (pi_scheduler s = None → crossed (best_pct s) pct ≠ 0 →
       out = (Raise AttributeError, s)))).
Proof.
  intros out. subst out. split.
  - intros e He. pose proof (metric_raises _ _ _ He) as ->.
    unfold update_best_pct_complete, bind, get, lift. by rewrite He.
  - intros pct Hpct. rewrite (update_best_pct_complete_run info s pct Hpct).
    split.
    + intros Hle. by rewrite bool_decide_eq_false_2 by by apply Qcle_not_lt.
    + intros Hlt. rewrite bool_decide_eq_true_2 by done. split_and!.
      * by intros n ->.
      * by intros -> ->.
      * intros -> Hne. by destruct (Nat.eqb_spec (crossed (best_pct s) pct) 0).
Qed.

(** Cutoffs crossed on the way up add up. *)
Lemma crossed_add a b c :
  (a ≤ b)%Qc → (b ≤ c)%Qc → crossed a b + crossed b c = crossed a c.
Proof.
  intros Hab Hbc. unfold crossed.
  induction cutoffs as [|x l IH]; [done|].
  rewrite !filter_cons.
  destruct (decide (a < x)%Qc) as [Hax|Hax], (decide (x ≤ b)%Qc) as [Hxb|Hxb],
    (decide (b < x)%Qc) as [Hbx|Hbx], (decide (x ≤ c)%Qc) as [Hxc|Hxc].
  all: repeat first [rewrite decide_True by tauto
                    |rewrite decide_False by tauto].
  all: cbn [length]; try lia.
  all: exfalso.
  all: try (by apply (Qcle_not_lt x b)).
  all: try (apply Hxc; by trans b).
  all: try (apply Hax; by apply (Qcle_lt_trans a b x)).
  all: try (apply Hbx; by apply Qcnot_le_lt).
Qed.

Lemma crossed_same a : crossed a a = 0.
Proof.
  unfold crossed. induction cutoffs as [|x l IH]; [done|].
  rewrite filter_cons, decide_False; [done|].
  intros [Hlt Hle]. by apply (Qcle_not_lt x a).
Qed.

(** X17. Over any run of [update_best_pct_complete] calls on an agent
    that has a scheduler, calls that raise for a missing metric included:
    the best completion never goes down, and the scheduler has been
    stepped exactly once for each cutoff between the first best
    completion and the last, however many calls it took to get there. *)
Theorem scheduler_steps_once_per_cutoff s infos n :
  pi_scheduler s = Some n →
  let s' := completions s infos in
  (best_pct s ≤ best_pct s')%Qc ∧
  pi_scheduler s' = Some (crossed (best_pct s) (best_pct s') + n).
Proof.
  revert s n. induction infos as [|info infos IH]; intros s n Hn.
  { cbn [completions foldl]. by rewrite crossed_same. }
  cbn zeta. cbn [completions foldl].
  fold (completions (update_best_pct_complete info s).2 infos).
  destruct (metric info "pct_complete") as [pct|e] eqn:Hpct.
  2:{ pose proof (metric_raises _ _ _ Hpct) as ->.
      replace (update_best_pct_complete info s) with
        (Raise KeyError : result unit, s)
        by (unfold update_best_pct_complete, bind, get, lift; by rewrite Hpct).
      by apply IH. }
  rewrite (update_best_pct_complete_run info s pct Hpct), Hn.
  case_bool_decide as Hlt; [|by apply IH].
  cbn [snd].
  destruct (IH (set_best_pct pct
                  (set_pi_scheduler (Some (crossed (best_pct s) pct + n)) s))
              (crossed (best_pct s) pct + n) eq_refl) as [Hle Hsched].
  cbn zeta in Hle, Hsched. cbn [best_pct set_best_pct] in Hle, Hsched.
  split.
  - trans pct; [by apply Qclt_le_weak|done].
  - rewrite Hsched. f_equal.
    rewrite <-(crossed_add (best_pct s) pct _ (Qclt_le_weak _ _ Hlt) Hle).
    lia.
Qed.

End SchedulerFacts.

(** ** The tensorboard logs *)

Section LogFacts.
Context {F Noise Observation Camera Kinematics : Type}.
Context `{!Arith F, !ActorCritic F Noise Observation, !Torch F Noise,
          !Env F Observation, !Construct F Observation}.
Import SACAgent Bookkeeping.
Implicit Types (s : state Camera Kinematics) (info : info_dict).
Implicit Types (m : M (state Camera Kinematics) unit).

Lemma set_tb_logger_twice x y s :
  set_tb_logger x (set_tb_logger y s) = set_tb_logger x s.
Proof. done. Qed.

#[local] Arguments metric : simpl never.
#[local] Arguments set_tb_logger : simpl never.

(** One [add_scalar] in a sequence, and one that reads a metric. *)
Lemma bind_add_scalar tag v step m s :
  bind (add_scalar tag v step) (λ _, m) s =
    m (set_tb_logger (tb_logger s ++ [Scalar tag v step]) s).
Proof. done. Qed.

Lemma add_metric_run tag info k step s :
  add_metric tag info k step s =
    match metric info k with
    | Ok v => (Ok tt, set_tb_logger (tb_logger s ++ [Scalar tag v step]) s)
    | Raise e => (Raise e, s)
    end.
Proof.
  unfold add_metric, add_scalar, bind, lift, modify.
  by destruct (metric info k).
Qed.

Lemma bind_add_metric tag info k step m s :
  bind (add_metric tag info k step) (λ _, m) s =
    match metric info k with
    | Ok v => m (set_tb_logger (tb_logger s ++ [Scalar tag v step]) s)
    | Raise e => (Raise e, s)
    end.
Proof. unfold bind. rewrite add_metric_run. by destruct (metric info k). Qed.

Lemma add_train_metric_run tag k s :
  add_train_metric tag k s =
    match metadata_metric s k with
    | Ok v => (Ok tt,
               set_tb_logger (tb_logger s ++ [Scalar tag v (episode_num s)]) s)
    | Raise e => (Raise e, s)
    end.
Proof.
  unfold add_train_metric, metadata_metric, add_scalar, bind, get, lift,
    modify.
  by destruct (match md_info (metadata s) with Some _ => _ | None => _ end).
Qed.

Lemma bind_add_train_metric tag k m s :
  bind (add_train_metric tag k) (λ _, m) s =
    match metadata_metric s k with
    | Ok v => m (set_tb_logger
                   (tb_logger s ++ [Scalar tag v (episode_num s)]) s)
    | Raise e => (Raise e, s)
    end.
Proof.
  unfold bind. rewrite add_train_metric_run.
  by destruct (metadata_metric s k).
Qed.

Lemma metadata_metric_raises s k e :
  metadata_metric s k = Raise e → e = KeyError.
Proof.
  unfold metadata_metric. destruct (md_info (metadata s)).
  - apply metric_raises.
  - by intros [= <-].
Qed.

Lemma tb_logger_set x s : tb_logger (set_tb_logger x s) = x.
Proof. done. Qed.

Lemma logged_cons read step tag k l :
  logged read step ((tag, k) :: l) =
    match read k with
    | Ok v => Scalar tag v step :: logged read step l
    | Raise _ => []
    end.
Proof. done. Qed.

(** The block under [try]: the state it leaves. *)
Lemma val_block info n_eps s :
  ((_ <- add_metric "val/ep_pct_complete" info "pct_complete" n_eps ;;
    _ <- add_metric "val/ep_total_time" info "total_time" n_eps ;;
    _ <- add_metric "val/ep_total_distance" info "total_distance" n_eps ;;
    _ <- add_metric "val/ep_avg_speed" info "average_speed_kph" n_eps ;;
    _ <- add_metric "val/ep_avg_disp_err" info "average_displacement_error"
           n_eps ;;
    _ <- add_metric "val/ep_traj_efficiency" info "trajectory_efficiency"
           n_eps ;;
    _ <- add_metric "val/ep_traj_admissibility" info
           "trajectory_admissibility" n_eps ;;
    add_metric "val/movement_smoothness" info "movement_smoothness"
      n_eps)%M s).2 =
  set_tb_logger (tb_logger s ++ logged (metric info) n_eps val_metrics) s.
Proof.
  unfold val_metrics.
  rewrite bind_add_metric, logged_cons.
  destruct (metric info _); [|rewrite app_nil_r; by destruct s].
  do 6 (rewrite bind_add_metric, logged_cons;
        destruct (metric info _);
        [rewrite tb_logger_set, set_tb_logger_twice
        |cbn [snd]; by rewrite <-?(assoc_L (++))]).
  rewrite add_metric_run, logged_cons.
  destruct (metric info _); cbn [snd logged];
    rewrite ?tb_logger_set, ?set_tb_logger_twice; by rewrite <-?(assoc_L (++)).
Qed.

(** X18. [log_val_metrics_to_tensorboard] writes the return and the
    number of steps, then the eight metrics of [info] in order up to the
    first one that is missing (none without ["metrics"]): a missing
    metric is passed over in silence, together with all that come after
    it.  Then, when [metadata] has ["safety_info"], it writes the
    interventions, or raises [KeyError] if that dict has none; this is
    the one way the call raises.  Nothing but the logger changes. *)
Theorem log_val_metrics_prefix info ep_ret n_eps n_val_steps s :
  let out := log_val_metrics_to_tensorboard info ep_ret n_eps n_val_steps s in
  let written :=
    tb_logger s ++
    [Scalar "val/episodic_return" ep_ret n_eps;
     Scalar "val/ep_n_steps" (Qc_of_Z n_val_steps) n_eps] ++
    logged (metric info) n_eps val_metrics in
  match md_safety_info (metadata s) with
  | None => out = (Ok tt, set_tb_logger written s)
  | Some safety_info =>
      match safety_info !! "ep_interventions" with
      | Some v =>
          out = (Ok tt,
                 set_tb_logger
                   (written ++ [Scalar "val/ep_interventions" v n_eps]) s)
      | None => out = (Raise KeyError, set_tb_logger written s)
      end
  end.
Proof.
  cbn zeta.
  set (first := [Scalar "val/episodic_return" ep_ret n_eps;
                 Scalar "val/ep_n_steps" (Qc_of_Z n_val_steps) n_eps]).
  set (written := tb_logger s ++ first ++ logged (metric info) n_eps val_metrics).
  assert (Hout : log_val_metrics_to_tensorboard info ep_ret n_eps n_val_steps s
                 = match md_safety_info (metadata s) with
                   | Some safety_info =>
                       (v <- lift (getitem safety_info "ep_interventions") ;;
                        add_scalar "val/ep_interventions" v n_eps)%M
                   | None => ret tt
                   end (set_tb_logger written s)).
  { unfold log_val_metrics_to_tensorboard.
    rewrite !bind_add_scalar, tb_logger_set, set_tb_logger_twice.
    unfold bind at 1. unfold try_except_pass at 1. cbv beta iota.
    rewrite val_block, tb_logger_set, set_tb_logger_twice.
    subst written first. by rewrite <-!(assoc_L (++)). }
  rewrite Hout. destruct (md_safety_info (metadata s)) as [si|]; [|done].
  unfold bind, lift, getitem, add_scalar, modify.
  destruct (si !! "ep_interventions") as [v|]; [|done].
  by rewrite tb_logger_set, set_tb_logger_twice.
Qed.

Lemma bind_add_train_metric_set tag k m x s :
  bind (add_train_metric tag k) (λ _, m) (set_tb_logger x s) =
    match metadata_metric s k with
    | Ok v => m (set_tb_logger (x ++ [Scalar tag v (episode_num s)]) s)
    | Raise e => (Raise e, set_tb_logger x s)
    end.
Proof. by rewrite bind_add_train_metric. Qed.

Lemma log_train_run ep_ret t t_start s :
  let some := logged (metadata_metric s) (episode_num s) train_metrics in
  let written :=
    tb_logger s ++
    Scalar "train/episodic_return" ep_ret (episode_num s) :: some in
  log_train_metrics_to_tensorboard ep_ret t t_start s =
    if bool_decide (length some = length train_metrics)
    then (Ok tt,
          set_tb_logger
            (written ++ [Scalar "train/ep_n_steps" (Qc_of_Z (t - t_start))
                           (episode_num s)]) s)
    else (Raise KeyError, set_tb_logger written s).
Proof.
  cbn zeta. unfold log_train_metrics_to_tensorboard, train_metrics.
  unfold bind at 1. unfold get at 1. cbv beta iota.
  rewrite bind_add_scalar.
  do 7 (rewrite bind_add_train_metric_set, logged_cons;
        destruct (metadata_metric s _) as [?|e] eqn:Hread;
        [clear Hread
        |apply metadata_metric_raises in Hread as ->;
         rewrite bool_decide_eq_false_2 by (cbn; lia);
         by rewrite <-?(assoc_L (++))]).
  rewrite bool_decide_eq_true_2 by done.
  unfold bind, get, add_scalar, modify.
  rewrite tb_logger_set, set_tb_logger_twice. cbn [logged].
  by rewrite <-?(assoc_L (++)).
Qed.

(** X19. [log_train_metrics_to_tensorboard] writes the return, then the
    seven metrics of [metadata["info"]] in order, then the number of
    steps, all at the step [episode_num]; at the first metric that is
    missing it raises [KeyError], what came before it written and the
    number of steps not.  With the empty [metadata] that [set_params]
    leaves, that is after the return alone. *)
Theorem log_train_metrics_prefix ep_ret t t_start s :
  let out := log_train_metrics_to_tensorboard ep_ret t t_start s in
  let some := logged (metadata_metric s) (episode_num s) train_metrics in
  let written :=
    tb_logger s ++
    Scalar "train/episodic_return" ep_ret (episode_num s) :: some in
  (length some = length train_metrics →
   out = (Ok tt,
          set_tb_logger
            (written ++ [Scalar "train/ep_n_steps" (Qc_of_Z (t - t_start))
                           (episode_num s)]) s)) ∧
  (length some ≠ length train_metrics →
   out = (Raise KeyError, set_tb_logger written s)) ∧
  (md_info (metadata s) = None → some = []).
Proof.
  cbn zeta. rewrite log_train_run. cbn zeta. split_and!.
  - intros Hall. by rewrite bool_decide_eq_true_2.
  - intros Hsome. by rewrite bool_decide_eq_false_2.
  - intros Hnone. unfold train_metrics, metadata_metric. cbn [logged].
    by rewrite Hnone.
Qed.

End LogFacts.

(** ** Recording a transition, and the start of a run *)

Section SetupFacts.
Context {F Noise Observation Camera Kinematics : Type}.
Context `{!Arith F, !ActorCritic F Noise Observation, !Torch F Noise,
          !Env F Observation, !Construct F Observation}.
Import SimpleReplayBuffer SACAgent Bookkeeping.
Implicit Types (s : state Camera Kinematics) (a : SACAgent.state).

(** A call of [select_action] that returns has recorded who chose. *)
Lemma select_action_Ok obs encode eps a x a' :
  select_action obs encode eps a = (Ok x, a') →
  transition_actor a' =
    (if bool_decide (t a ≤ start_steps (cfg a))%Z then random else learner) ∧
  t a' = (t a + 1)%Z.
Proof.
  unfold select_action, bind, get, lift, modify, ret. cbn.
  destruct (if encode then _ else _) as [o|e]; cbn; [|done].
  destruct (Z.ltb_spec (start_steps (cfg a)) (t a)).
  - destruct (act _ o _ eps) as [y|e]; cbn; [|done]. intros [= _ <-].
    by rewrite bool_decide_eq_false_2 by lia.
  - destruct (sample _) as [y g]. cbn. intros [= _ <-].
    by rewrite bool_decide_eq_true_2.
Qed.

(** X20. [add_experience] after a [select_action] that returned: the
    dict it builds, keeps as [self.recording] and returns holds the action
    it was given, the two features as arrays, the number of the episode,
    the stage ["training"] and, as [transition_actor], ["random"] when
    the action was drawn in the first [start_steps + 1] steps and
    ["learner"] when the policy chose it.  A feature that is a numpy
    array and not a tensor makes it raise [AttributeError], and
    [self.recording] stays what it was. *)
Theorem add_experience_after_select_action obs encode eps s action s1
    camera next_camera done idx feature next_feature info reward state_
    next_state step :
  on_agent (select_action obs encode eps) s = (Ok action, s1) →
  let out := add_experience action camera next_camera done idx feature
               next_feature info reward state_ next_state step s1 in
  (∀ x, feature = NdArray x → out = (Raise AttributeError, s1)) ∧
  (∀ x, next_feature = NdArray x → out = (Raise AttributeError, s1)) ∧
  (∀ rg f rg2 f2,
     feature = TorchTensor rg f → next_feature = TorchTensor rg2 f2 →
     ∃ r, out = (Ok r, set_recording (Some r) s1) ∧
          r_action_taken r = action ∧ r_feature r = f ∧
          r_next_feature r = f2 ∧ r_metadata r = info ∧
          r_episode r = episode_num s ∧ r_stage r = "training" ∧
          r_transition_actor r =
            (if bool_decide (t (agent s) ≤ start_steps (cfg (agent s)))%Z
             then random else learner)).
Proof.
  unfold on_agent.
  destruct (select_action obs encode eps (agent s)) as [r a'] eqn:Hact.
  intros [= -> <-]. apply select_action_Ok in Hact as [Hwho _].
  cbn zeta. unfold add_experience, bind, get, lift, modify, ret.
  split_and!.
  - by intros x ->.
  - intros x ->. by destruct feature.
  - intros rg f rg2 f2 -> ->. cbn. eexists. split; [done|]. cbn.
    by rewrite Hwho.
Qed.

(** X21. When [set_params] returns: the counters are at zero, the mode is
    not deterministic, there is no scheduler and no metadata; the buffer
    and the module are the ones the constructors gave, the buffer built
    for [feat_dim] features and 2 action dimensions; when a checkpoint is
    to be loaded, the module holds its tensors; and the target module is
    a copy of [actor_critic] made after the load, so that the two have
    the same shapes and the same data.  The optimizers, [q_params], the
    encoder's attributes and the files are not touched. *)
Theorem set_params_establishes s s' :
  set_params s = (Ok tt, s') →
  (t (agent s') = 0%Z ∧ deterministic (agent s') = false ∧
   transition_actor (agent s') = "" ∧ action_space (agent s') = box ∧
   episode_num s' = 0%Z ∧ best_ret s' = 0%Qc ∧ best_pct s' = 0%Qc ∧
   t_start s' = 0%Z ∧ pi_scheduler s' = None ∧
   metadata s' = Metadata None None ∧ act_dim s' = 2%Z) ∧
  replay_buffer_new (feat_dim (agent s)) 2 (replay_size (settings s)) =
    Ok (replay_buffer (agent s')) ∧
  (∃ ps,
     actor_critic_new (obs_dim (agent s)) (cfg (agent s)) (obs_dim (agent s))
       = Ok ps ∧
     match checkpoint_to_load (settings s) with
     | None => actor_critic (agent s') = ps
     | Some path =>
         ∃ sd, torch_load_now path s = (Ok sd, s) ∧
               length <$> sd = shape ps ∧
               p_data <$> actor_critic (agent s') = sd ∧
               requires_grad <$> actor_critic (agent s') =
                 requires_grad <$> ps
     end) ∧
  actor_critic_target (agent s') = actor_critic (agent s') ∧
  (q_params (agent s') = q_params (agent s) ∧
   q_optimizer (agent s') = q_optimizer (agent s) ∧
   pi_optimizer (agent s') = pi_optimizer (agent s) ∧
   cfg (agent s') = cfg (agent s) ∧ backbone (agent s') = backbone (agent s) ∧
   feat_dim (agent s') = feat_dim (agent s) ∧
   obs_dim (agent s') = obs_dim (agent s) ∧ files s' = files s).
Proof.
  unfold set_params, on_agent, bind, modify, get, lift, ret. cbn.
  destruct (replay_buffer_new _ _ _) as [b|e] eqn:Hb; cbn; [|done].
  destruct (actor_critic_new _ _ _) as [ps|e] eqn:Hps; cbn; [|done].
  destruct (checkpoint_to_load (settings s)) as [path|] eqn:Hpath; cbn.
  - destruct (match files s !! path with Some _ => _ | None => _ end)
      as [sd|e] eqn:Hsd; [|done].
    unfold lift. case_bool_decide as Hshape; [|done].
    intros [= <-]. cbn. split_and!; try done.
    exists ps. split; [done|]. exists sd. split_and!; try done.
    + by apply copy_data.
    + by apply copy_preserves.
  - intros [= <-]. cbn. split_and!; try done. by exists ps.
Qed.

End SetupFacts.

(** ** Worked instances *)

Section Worked.
Import SimpleReplayBuffer SACAgent.

(** The rewards left in a buffer of capacity two by the six calls of
    [ex_values]: two of the calls raise, the others store five
    transitions. *)
Example store_all_ex :
  e_rew <$> items (buffer (store_all ex_values (ex_buffer [] 1)))
  = [f1; inf32].
Proof. reflexivity. Qed.

(** The batch drawn from the buffer of the examples. *)
Example sample_batch_ex :
  sample_batch [1; 0] (ex_buffer [f1; f0] 2) = (Ok (Data ex_data), ex_sampled).
Proof. reflexivity. Qed.

(** In exact arithmetic zero weights cancel any errors. *)
Example Qc_weighted_mse_zero :
  weighted_mse (F := Qc) (replicate 2 f0) [Q2Qc (1 # 2); Q2Qc (-3)] = f0.
Proof. apply (weighted_mse_zero 2); [done|done|by repeat constructor]. Qed.

(** In binary32 they do not cancel an infinite one. *)
Example float32_weighted_mse_nan :
  weighted_mse (F := float32) (replicate 2 f0) [f1; inf32] = S754_nan.
Proof. reflexivity. Qed.

(** C2 as stated fails in two places.  With a negative batch size the call
    raises before [weights] is assigned; and with an infinite reward in the
    batch the zero weights give a NaN loss, not zero. *)
Lemma zero_weights_nan_loss :
  sample_batch [] (ex_buffer [f1] (-1)) =
    (Raise ValueError, ex_buffer [f1] (-1)) ∧
  weights (ex_buffer [f1] (-1)) = None ∧
  sample_batch [0] (ex_buffer [inf32] 1) =
    (Ok (Data (ex_batch [inf32])),
     set_weights [S754_zero false] (ex_buffer [inf32] 1)) ∧
  ∃ l info,
    compute_loss_q
      (ex_agent "vae" (set_weights [S754_zero false] (ex_buffer [inf32] 1)))
      (Data (ex_batch [inf32])) (λ _, f0) = Ok (l, info) ∧
    item l = S754_nan ∧ item l ≠ f0.
Proof.
  split_and!; [done..|].
  eexists _, _. split_and!; [by lazy|done..].
Qed.

Lemma zero_weights_zero_loss_witness :
  weights ex_sampled = Some [S754_zero false; S754_zero false] ∧
  ∃ l info,
    compute_loss_q ex_learner (Data ex_data) (λ _, f0) = Ok (l, info) ∧
    item l = S754_zero false.
Proof.
  assert (H1 : len (ex_buffer [f1; f0] 2) ≠ 0) by done.
  assert (H2 : (0 ≤ batch_size (ex_buffer [f1; f0] 2))%Z) by done.
  assert (H3 : is_choice (len (ex_buffer [f1; f0] 2))
                 (Z.min (batch_size (ex_buffer [f1; f0] 2))
                        (Z.of_nat (len (ex_buffer [f1; f0] 2)))) [1; 0]).
  { split_and!; [done| |by repeat constructor].
    constructor; [by intros ?%list_elem_of_singleton|apply NoDup_singleton]. }
  destruct (zero_weights_zero_loss (Noise := float32)
              (Observation := list float32)
              (ex_buffer [f1; f0] 2) [1; 0] H1 H2 H3) as [Hw Hl].
  split; [exact Hw|].
  apply (Hl ex_data); [done|done|].
  by repeat constructor.
Defined.

Lemma compute_loss_q_spec_witness :
  ∃ w l info,
    weights ex_sampled = Some w ∧
    compute_loss_q ex_learner (Data ex_data) (λ _, f0) = Ok (l, info) ∧
    item l = q_loss ex_learner w ex_data (λ _, f0).
Proof.
  by apply (compute_loss_q_spec (ex_buffer [f1; f0] 2) ex_sampled [1; 0]).
Defined.

(** With [polyak] at 0.995 the coefficient of the online parameter is
    the binary32 number nearest to the Python float [1 - 0.995], which
    is not [1 - 0.995] computed in binary32. *)
Example polyak_average_coefficient :
  fof_float (F := float32) (pyfloat_sub (pyfloat_of_Z 1) ex_polyak) =
    S754_finite false 10737418 (-31) ∧
  fsub (F := float32) f1 (fof_float ex_polyak) =
    S754_finite false 10737408 (-31) ∧
  polyak_average ex_polyak [Param [f1] true None] [Param [f0] true None] =
    (Ok tt, [Param [S754_finite false 10737418 (-31)] true None]).
Proof. by vm_compute. Qed.

Lemma toy_in_place : in_place (F := float32) (Noise := float32).
Proof.
  intros os i x g. cbn. unfold sgd.
  destruct (Nat.eqb_spec (length g) (length x)); [|done].
  rewrite length_zip_with. lia.
Qed.

Lemma ex_data_rows : has_rows 2 ex_data.
Proof. by repeat split. Qed.

Lemma update_polyak_witness :
  ∃ s',
    update (Data ex_data) (λ _, f0) (λ _, f0) ex_learner = (Ok tt, s') ∧
    actor_critic s' =
      actor_critic (after_unfreeze (Data ex_data) (λ _, f0) (λ _, f0) ex_learner) ∧
    length (actor_critic_target s') = length (actor_critic_target ex_learner) ∧
    ∀ i p_targ,
      actor_critic_target ex_learner !! i = Some p_targ →
      ∃ p p_targ',
        actor_critic s' !! i = Some p ∧
        actor_critic_target s' !! i = Some p_targ' ∧
        length (p_data p) = length (p_data p_targ) ∧
        p_data p_targ' =
          zip_with fadd
            ((λ x, fmul x (fof_float ex_polyak)) <$> p_data p_targ)
            (fmul (fof_float (pyfloat_sub (pyfloat_of_Z 1) ex_polyak))
               <$> p_data p).
Proof.
  apply (update_polyak ex_data (λ _, f0) (λ _, f0) ex_learner
           [S754_zero false; S754_zero false] 2);
    [apply ex_data_rows|done|done|apply toy_in_place|done].
Defined.

Lemma update_freezes_q_witness :
  let s1 := after_q_step (Data ex_data) (λ _, f0) ex_learner in
  let s2 := after_freeze (Data ex_data) (λ _, f0) ex_learner in
  let s3 := after_pi_step (Data ex_data) (λ _, f0) (λ _, f0) ex_learner in
  ∃ s',
    update (Data ex_data) (λ _, f0) (λ _, f0) ex_learner = (Ok tt, s') ∧
    ∀ j, j ∈ q_params ex_learner →
      (∀ p, actor_critic s2 !! j = Some p → requires_grad p = false) ∧
      actor_critic s3 !! j = actor_critic s2 !! j ∧
      p_data <$> actor_critic s2 !! j = p_data <$> actor_critic s1 !! j ∧
      p_data <$> actor_critic s' !! j = p_data <$> actor_critic s1 !! j ∧
      (∀ p, actor_critic s' !! j = Some p → requires_grad p = true).
Proof.
  apply (update_freezes_q ex_data (λ _, f0) (λ _, f0) ex_learner
           [S754_zero false; S754_zero false] 2);
    [|apply ex_data_rows|done|done|apply toy_in_place|done].
  intros j Hj Hpi. apply list_elem_of_singleton in Hpi as ->.
  by repeat apply elem_of_cons in Hj as [Hj|Hj]; [..|inv Hj].
Defined.


Lemma store_fifo_capacity_witness :
  let b := store_all ex_values (ex_buffer [] 1) in
  (Z.of_nat (len b) ≤ 2)%Z ∧
  items (buffer b) =
    most_recent (Z.to_nat 2) (concat (stored class_name <$> ex_values)) ∧
  ∀ d oldest rest,
    items (buffer b) = oldest :: rest →
    Z.of_nat (len b) = 2%Z →
    (store (VDict d) b).1 = Ok tt ∧
    items (buffer (store (VDict d) b).2) = rest ++ [currdict d].
Proof.
  by apply (store_fifo_capacity 1 1 2 1 (ex_buffer [] 1) ex_values).
Defined.

Lemma store_by_type_witness :
  store (VOther "list") (ex_buffer [f1] 1) =
    (Raise invalid_input, ex_buffer [f1] 1) ∧
  items (buffer (store (VBuffer (ex_buffer [f0; inf32] 1)) (ex_buffer [f1] 1)).2)
  = most_recent 2 (items (buffer (ex_buffer [f1] 1)) ++
                   items (buffer (ex_buffer [f0; inf32] 1))).
Proof.
  destruct (store_by_type (ex_buffer [f1] 1)) as [Hraise Hextend]. split.
  - by apply Hraise.
  - by apply (Hextend (ex_buffer [f0; inf32] 1)); [|cbn; lia].
Defined.


Lemma setup_vision_encoder_vae_only_witness :
  setup_vision_encoder (ex_agent "resnet" (ex_buffer [] 1)) =
    (Raise AssertionError, ex_agent "resnet" (ex_buffer [] 1)) ∧
  (setup_vision_encoder (ex_agent "vae" (ex_buffer [] 1))).1 = Ok tt ∧
  backbone (setup_vision_encoder (ex_agent "vae" (ex_buffer [] 1))).2 =
    Some (VAE 3 42 144 32 [[f1; f1]] true).
Proof.
  destruct (setup_vision_encoder_vae_only (ex_agent "resnet" (ex_buffer [] 1)))
    as (Hother & _ & _).
  destruct (setup_vision_encoder_vae_only (ex_agent "vae" (ex_buffer [] 1)))
    as (_ & Hvae & Hreturns).
  split_and!.
  - by apply Hother.
  - by apply (Hreturns (EncoderCfg [8; 8]%Z 32 3 42 144 toy_checkpoint)
                [[f1; f1]]).
  - destruct (Hvae (setup_vision_encoder (ex_agent "vae" (ex_buffer [] 1))).2)
      as (_ & c & sd & Hc & Hsd & ->); [done|].
    injection Hc as <-. by injection Hsd as <-.
Defined.

End Worked.

(** ** More worked instances *)

Section WorkedBuffer.
Import SimpleReplayBuffer SACAgent.

Lemma ex_choice : is_choice 2 2 [1; 0].
Proof.
  split_and!; [done| |by repeat constructor].
  constructor; [by intros ?%list_elem_of_singleton|apply NoDup_singleton].
Qed.

(** Storing into the full buffer of capacity two. *)
Lemma store_len_witness :
  len (store (VDict (ex_transition f0)) (ex_buffer [f1; f0] 1)).2 = 2 ∧
  len (store (VDict (ex_transition f0)) (ex_buffer [f1; f0] 1)).2 ≤ 2.
Proof.
  apply (store_len (VDict (ex_transition f0)) (ex_buffer [f1; f0] 1)).
  cbn. lia.
Defined.

Lemma sample_batch_rows_witness :
  let b := ex_buffer [f1; f0] 2 in
  let out := sample_batch [1; 0] b in
  buffer out.2 = buffer b ∧
  (∀ e, out.1 = Raise e → e = ValueError) ∧
  (∀ bt, out.1 = Ok (Data bt) →
     has_rows 2 bt ∧
     ∃ rows,
       Forall2 (λ i e, items (buffer b) !! i = Some e) [1; 0] rows ∧
       bt = Batch (e_obs <$> rows) (e_obs2 <$> rows) (e_act <$> rows)
              (e_rew <$> rows) ((λ e, float_of_bool (e_done e)) <$> rows)).
Proof.
  apply (sample_batch_rows [1; 0] (ex_buffer [f1; f0] 2)). exact ex_choice.
Defined.

Lemma store_then_sample_newest_witness :
  let b' := (store (VDict (ex_transition inf32)) (ex_buffer [f1] 1)).2 in
  sample_batch [len b' - 1] b' =
    (Ok (Data (Batch [([f1], [f1])] [([f1], [f1])] [[f0]] [inf32] [f0])),
     set_weights [f0] b').
Proof.
  by apply (store_then_sample_newest (ex_transition inf32) (ex_buffer [f1] 1));
    [|cbn; lia|..].
Defined.


End WorkedBuffer.

Section WorkedAgent.
Import SimpleReplayBuffer SACAgent.

(** An update on the empty dict. *)
Lemma update_fails_early_witness :
  let s := ex_learner in
  let out := update EmptyDict (λ _, f0) (λ _, f0) s in
  out = (Raise KeyError,
         set_actor_critic (zero_grad (q_optimizer s) (actor_critic s)) s) ∧
  p_data <$> actor_critic out.2 = p_data <$> actor_critic s ∧
  requires_grad <$> actor_critic out.2 = requires_grad <$> actor_critic s ∧
  (∀ j, j ∉ param_group (q_optimizer s) →
        actor_critic out.2 !! j = actor_critic s !! j) ∧
  actor_critic_target out.2 = actor_critic_target s ∧
  q_optimizer out.2 = q_optimizer s ∧ pi_optimizer out.2 = pi_optimizer s.
Proof.
  by apply (update_fails_early EmptyDict (λ _, f0) (λ _, f0) ex_learner
              KeyError).
Defined.

Lemma update_after_empty_sample_witness :
  let s := ex_agent "vae" (ex_buffer [] 1) in
  let b := replay_buffer s in
  sample_batch [] b = (Ok EmptyDict, set_weights [] b) ∧
  let out := update EmptyDict (λ _, f0) (λ _, f0)
               (set_replay_buffer (set_weights [] b) s) in
  out.1 = Raise KeyError ∧
  p_data <$> actor_critic out.2 = p_data <$> actor_critic s ∧
  actor_critic_target out.2 = actor_critic_target s.
Proof.
  apply (update_after_empty_sample (ex_agent "vae" (ex_buffer [] 1)) []
           (λ _, f0) (λ _, f0)); [done|].
  split_and!; [done|constructor|constructor].
Defined.

(** The four failures of the Q-loss on the toy agent. *)
Lemma compute_loss_q_errors_witness :
  compute_loss_q ex_learner EmptyDict (λ _, f0) = Raise KeyError ∧
  compute_loss_q ex_learner
    (Data (Batch [([f1], [f1])] [([f1], [f1])] [] [f0] [f0])) (λ _, f0)
    = Raise RuntimeError ∧
  compute_loss_q (ex_agent "vae" (ex_buffer [f1; f0] 2)) (Data ex_data)
    (λ _, f0) = Raise AttributeError ∧
  compute_loss_q
    (ex_agent "vae" (set_weights [f0; f0; f0] (ex_buffer [f1; f0] 2)))
    (Data ex_data) (λ _, f0) = Raise RuntimeError.
Proof.
  destruct (compute_loss_q_errors ex_learner (λ _, f0)) as (H1 & H2 & _).
  destruct (compute_loss_q_errors (ex_agent "vae" (ex_buffer [f1; f0] 2))
              (λ _, f0)) as (_ & _ & H3 & _).
  destruct (compute_loss_q_errors
              (ex_agent "vae"
                 (set_weights [f0; f0; f0] (ex_buffer [f1; f0] 2)))
              (λ _, f0)) as (_ & _ & _ & H4).
  split_and!.
  - exact H1.
  - by apply H2.
  - by apply (H3 ex_data 2); [apply ex_data_rows|].
  - by apply (H4 ex_data 2 [f0; f0; f0]); [apply ex_data_rows|..].
Defined.

Lemma ex_params_require_grad j p :
  ex_params !! j = Some p → requires_grad p = true.
Proof. destruct j as [|[|[|j]]]; cbn; by intros [= <-]. Qed.

Lemma update_invariant_witness :
  let s := ex_learner in
  let out := update (Data ex_data) (λ _, f0) (λ _, f0) s in
  (out.1 = Ok tt ↔ ∃ l, compute_loss_q s (Data ex_data) (λ _, f0) = Ok l) ∧
  shape (actor_critic out.2) = shape (actor_critic s) ∧
  shape (actor_critic_target out.2) = shape (actor_critic_target s) ∧
  requires_grad <$> actor_critic out.2 = requires_grad <$> actor_critic s ∧
  q_params out.2 = q_params s ∧ cfg out.2 = cfg s ∧ t out.2 = t s ∧
  deterministic out.2 = deterministic s ∧
  replay_buffer out.2 = replay_buffer s.
Proof.
  apply (update_invariant (Data ex_data) (λ _, f0) (λ _, f0) ex_learner);
    [apply toy_in_place|done|].
  intros j p _. apply ex_params_require_grad.
Defined.



(** No section, no [speed_hiddens], no checkpoint file. *)
Lemma setup_vision_encoder_failures_witness :
  let c1 := EncoderCfg [] 32 3 42 144 toy_checkpoint in
  let c2 := EncoderCfg [8]%Z 32 3 42 144 "missing.statedict" in
  setup_vision_encoder (ex_agent_with ∅) = (Raise KeyError, ex_agent_with ∅) ∧
  setup_vision_encoder (ex_agent_with {[ "vae" := c1 ]}) =
    (Raise IndexError, set_feat_dim 33 (ex_agent_with {[ "vae" := c1 ]})) ∧
  setup_vision_encoder (ex_agent_with {[ "vae" := c2 ]}) =
    (Raise FileNotFoundError,
     set_backbone (Some (fresh_vae c2))
       (set_obs_dim (Some 40%Z)
          (set_feat_dim 33 (ex_agent_with {[ "vae" := c2 ]})))).
Proof.
  intros c1 c2. split_and!.
  - by apply (setup_vision_encoder_failures (ex_agent_with ∅)).
  - destruct (setup_vision_encoder_failures (ex_agent_with {[ "vae" := c1 ]}))
      as [_ H1]; [done|].
    by apply (H1 c1).
  - destruct (setup_vision_encoder_failures (ex_agent_with {[ "vae" := c2 ]}))
      as [_ H2]; [done|].
    destruct (H2 c2) as [_ H3]; [done|].
    by apply H3.
Defined.

Lemma setup_vision_encoder_dims_witness :
  let s := ex_agent "vae" (ex_buffer [] 1) in
  let s' := (setup_vision_encoder s).2 in
  ∃ c,
    encoders (cfg s) !! "vae" = Some c ∧
    feat_dim s' = (latent_dims c + 1)%Z ∧
    obs_dim s' =
      (if encoder_switch (cfg s)
       then (λ h, latent_dims c + h)%Z <$> list.last (speed_hiddens c)
       else None) ∧
    (encoder_switch (cfg s) = true → speed_hiddens c ≠ []) ∧
    s' = set_backbone (backbone s')
           (set_obs_dim (obs_dim s') (set_feat_dim (feat_dim s') s)).
Proof.
  by apply (setup_vision_encoder_dims (ex_agent "vae" (ex_buffer [] 1))).
Defined.

End WorkedAgent.

Section WorkedBooks.
Import SimpleReplayBuffer SACAgent Bookkeeping.

(** Save, take a gradient step, load: the saved data are back. *)
Lemma save_then_load_model_witness :
  let s0 := ex_books 5 None None None in
  let s1 := (save_model "sac.statedict" s0).2 in
  let s := set_agent (update (Data ex_data) (λ _, f0) (λ _, f0) ex_learner).2
             s1 in
  (save_model "sac.statedict" s0).1 = Ok tt ∧
  (load_model "sac.statedict" s).1 = Ok tt ∧
  p_data <$> actor_critic (agent (load_model "sac.statedict" s).2) =
    [[f1]; [f1; f0]; [f1]].
Proof.
  intros s0 s1 s.
  destruct (save_then_load_model "sac.statedict" s0) as (Hsave & _ & Hload);
    [done|].
  split; [exact Hsave|].
  destruct (Hload s) as (Hret & Hdata & _); [done|by vm_compute|].
  split; [exact Hret|exact Hdata].
Defined.

Lemma load_model_failures_witness :
  load_model "none.statedict" (ex_books 5 None None None) =
    (Raise FileNotFoundError, ex_books 5 None None None) ∧
  (load_model toy_checkpoint (ex_books 5 None None None)).1 =
    Raise RuntimeError.
Proof.
  destruct (load_model_failures (Camera := unit) (Kinematics := unit)
              "none.statedict" (ex_books 5 None None None)) as (H1 & _).
  destruct (load_model_failures (Camera := unit) (Kinematics := unit)
              toy_checkpoint (ex_books 5 None None None)) as (_ & H2 & _).
  split.
  - by apply H1.
  - by apply (H2 [[f1; f1]]).
Defined.

(** A best return with a safety actor-critic: its state dict is what the
    file holds. *)
Lemma checkpoint_model_best_witness :
  let s := ex_books 5 None None (Some [Param [f0] true None]) in
  let out := checkpoint_model 1 7 s in
  best_ret out.2 = 1%Qc ∧ out.1 = Ok tt ∧
  files out.2 !! "models/best_sac_episode_7.statedict" = Some [[f0]].
Proof.
  intros s out.
  destruct (checkpoint_model_best 1 7 s) as (Hbest & _ & _ & Hret & Hfile);
    [done|].
  split_and!; [exact Hbest|exact Hret|].
  fold out in Hfile. by rewrite Hfile.
Defined.

(** Episode 4 with [save_freq] 5: no periodic save. *)
Lemma checkpoint_model_periodic_witness :
  checkpoint_model 0 4 (ex_books 5 None None None) =
    (Ok tt, ex_books 5 None None None) ∧
  files (checkpoint_model 0 0 (ex_books 1 None None None)).2
    !! "models/sac_episode_0.statedict" = Some [[f1]; [f1; f0]; [f1]].
Proof.
  destruct (checkpoint_model_periodic 0 4 (ex_books 5 None None None))
    as [Hidle _]; [done..|].
  destruct (checkpoint_model_periodic 0 0 (ex_books 1 None None None))
    as [_ Hsave]; [done..|].
  split.
  - apply Hidle. by right.
  - destruct Hsave as (_ & _ & _ & _ & Hfile); [done..|]. by rewrite Hfile.
Defined.

Lemma best_ret_running_max_witness :
  best_ret (checkpoints (ex_books 5 None None None)
              [(1%Qc, 0%Z); (Qc_of_Z 3, 1%Z); (Qc_of_Z 2, 2%Z)])
  = Qc_of_Z 3.
Proof.
  destruct (best_ret_running_max (ex_books 5 None None None)
              [(1%Qc, 0%Z); (Qc_of_Z 3, 1%Z); (Qc_of_Z 2, 2%Z)]) as [H _].
  exact H.
Defined.

(** With [pi_scheduler] at [None] a completion of 95 raises, one of 50
    is recorded. *)
Lemma update_best_pct_complete_step_witness :
  update_best_pct_complete (ex_info 95) (ex_books 5 None None None) =
    (Raise AttributeError, ex_books 5 None None None) ∧
  update_best_pct_complete (ex_info 50) (ex_books 5 None None None) =
    (Ok tt, set_best_pct (Qc_of_Z 50) (ex_books 5 None None None)) ∧
  update_best_pct_complete ∅ (ex_books 5 None None None) =
    (Raise KeyError, ex_books 5 None None None).
Proof.
  destruct (update_best_pct_complete_step (ex_info 95)
              (ex_books 5 None None None)) as [_ H95].
  destruct (update_best_pct_complete_step (ex_info 50)
              (ex_books 5 None None None)) as [_ H50].
  destruct (update_best_pct_complete_step ∅ (ex_books 5 None None None))
    as [Hkey _].
  split_and!.
  - destruct (H95 (Qc_of_Z 95)) as [_ H]; [done|].
    destruct H as (_ & _ & H); [done|]. by apply H.
  - destruct (H50 (Qc_of_Z 50)) as [_ H]; [done|].
    destruct H as (_ & H & _); [done|]. by apply H.
  - by apply (Hkey KeyError).
Defined.

(** Completions of 95, 50, then 100: two steps of the scheduler. *)
Lemma scheduler_steps_once_per_cutoff_witness :
  let s' := completions (ex_books 5 None (Some 0) None)
              [ex_info 95; ex_info 50; ex_info 100] in
  (0 ≤ best_pct s')%Qc ∧
  pi_scheduler s' = Some (crossed 0 (best_pct s') + 0).
Proof.
  by apply (scheduler_steps_once_per_cutoff (ex_books 5 None (Some 0) None)
              [ex_info 95; ex_info 50; ex_info 100] 0).
Defined.

End WorkedBooks.

Section WorkedLogs.
Import SimpleReplayBuffer SACAgent Bookkeeping.

Lemma ex_logged :
  logged (metric (ex_info 95)) 7 val_metrics =
    [Scalar "val/ep_pct_complete" (Qc_of_Z 95) 7].
Proof. by vm_compute. Qed.

(** An [info] with the completion alone: one metric is written, the
    seven after it are not, and the call returns. *)
Lemma log_val_metrics_prefix_witness :
  log_val_metrics_to_tensorboard (ex_info 95) 1 7 40
    (ex_books 5 None None None) =
  (Ok tt,
   set_tb_logger
     [Scalar "val/episodic_return" 1 7;
      Scalar "val/ep_n_steps" (Qc_of_Z 40) 7;
      Scalar "val/ep_pct_complete" (Qc_of_Z 95) 7]
     (ex_books 5 None None None)).
Proof.
  pose proof (log_val_metrics_prefix (ex_info 95) 1 7 40
                (ex_books 5 None None None)) as H.
  cbn zeta in H. rewrite ex_logged in H. exact H.
Defined.

(** On the empty metadata the training log raises after the return. *)
Lemma log_train_metrics_prefix_witness :
  log_train_metrics_to_tensorboard 1 40 0 (ex_books 5 None None None) =
  (Raise KeyError,
   set_tb_logger [Scalar "train/episodic_return" 1 0]
     (ex_books 5 None None None)).
Proof.
  destruct (log_train_metrics_prefix 1 40 0 (ex_books 5 None None None))
    as (_ & H & _).
  by apply H.
Defined.

(** The first action of a run is a random one, and recorded as such. *)
Lemma add_experience_after_select_action_witness :
  let s := ex_books 5 None None None in
  let s1 := (on_agent (select_action [f1] false f0) s).2 in
  ∃ r,
    add_experience [f0; f0] tt tt false 3 (TorchTensor true [f1])
      (TorchTensor true [f0]) (ex_info 50) 1 tt tt 0 s1 =
      (Ok r, set_recording (Some r) s1) ∧
    r_action_taken r = [f0; f0] ∧ r_feature r = [f1] ∧
    r_next_feature r = [f0] ∧ r_metadata r = ex_info 50 ∧
    r_episode r = 0%Z ∧ r_stage r = "training" ∧
    r_transition_actor r = random.
Proof.
  intros s s1.
  destruct (add_experience_after_select_action [f1] false f0 s [f0; f0] s1
              tt tt false 3 (TorchTensor true [f1]) (TorchTensor true [f0])
              (ex_info 50) 1 tt tt 0 eq_refl) as (_ & _ & H).
  exact (H true [f1] true [f0] eq_refl eq_refl).
Defined.

Lemma ex_set_params :
  (set_params (ex_books 5 None (Some 3) None)).1 = Ok tt.
Proof. by vm_compute. Qed.

(** [set_params] on an agent that had a scheduler and no checkpoint to
    load. *)
Lemma set_params_establishes_witness :
  let s := ex_books 5 None (Some 3) None in
  let s' := (set_params s).2 in
  t (agent s') = 0%Z ∧ deterministic (agent s') = false ∧
  pi_scheduler s' = None ∧
  actor_critic_target (agent s') = actor_critic (agent s') ∧
  len (replay_buffer (agent s')) = 0.
Proof.
  intros s s'.
  assert (Hrun : set_params s = (Ok tt, s')).
  { subst s'. pose proof ex_set_params as H. fold s in H.
    destruct (set_params s) as [r s1]. cbn in H. by subst. }
  destruct (set_params_establishes s s' Hrun)
    as ((Ht & Hdet & _ & _ & _ & _ & _ & _ & Hsched & _) & Hbuf & _ & Htarg
        & _).
  split_and!; [exact Ht|exact Hdet|exact Hsched|exact Htarg|].
  rewrite <-(f_equal (λ r, match r with Ok b => len b | Raise _ => 0 end)
               Hbuf).
  reflexivity.
Defined.

End WorkedLogs.
